(** * wc2: a word counter driven by a byte-indexed state machine

    A shallow embedding of [wc2.c] (the table builder
    [compile_utf8_statemachine] with its helpers, [compile_pointers], and
    the three chunk processors [parse_chunk], [parse_chunk_p] and
    [parse_chunk_pp]) together with the properties of the program that
    its specification states.

    Conventions.
    - Unsigned C integers are values of [N].  The data model is LP64:
      [unsigned] is 32 bits wide, [unsigned long], [size_t] and pointers
      are 64 bits wide, [unsigned char] is 8 bits wide.  Every store into
      a narrower object writes its wrap-around out ([to_uchar], [wrap32],
      [wrap64]).
    - The global [unsigned char table[256][256]] is a list of 256 rows of
      256 cells, zero-initialised as every C object of static storage is.
    - [isspace] and [iswspace] belong to the C library and depend on the
      locale that [setlocale] installs from the environment: they are
      parameters of the development. *)

From Stdlib Require Import NArith Bool Lia.
From Stdlib.Strings Require Import Byte.
From stdpp Require Import base numbers option list.

Local Open Scope N_scope.

(** ** Machine integers *)

(** The conversion to [unsigned char] keeps the low eight bits. *)
Definition to_uchar (v : N) : N := N.land v 0xFF.
Definition wrap32 (v : N) : N := v mod 2 ^ 32.
Definition wrap64 (v : N) : N := v mod 2 ^ 64.

(** ** The two enumerations of states *)

Definition DUO2_xx : N := 0.
Definition DUO2_C2 : N := 1.
Definition TRI2_E0 : N := 2.
Definition TRI2_E1 : N := 3.
Definition TRI2_E2 : N := 4.
Definition TRI2_E3 : N := 5.
Definition TRI2_ED : N := 6.
Definition TRI2_EE : N := 7.
Definition TRI2_xx : N := 8.
Definition TRI3_E0_xx : N := 9.
Definition TRI3_E1_xx : N := 10.
Definition TRI3_E1_9a : N := 11.
Definition TRI3_E2_80 : N := 12.
Definition TRI3_E2_81 : N := 13.
Definition TRI3_E2_xx : N := 14.
Definition TRI3_E3_80 : N := 15.
Definition TRI3_E3_81 : N := 16.
Definition TRI3_E3_xx : N := 17.
Definition TRI3_Ed_xx : N := 18.
Definition TRI3_Ee_xx : N := 19.
Definition TRI3_xx_xx : N := 20.
Definition QUAD2_xx : N := 21.
Definition QUAD2_F0 : N := 22.
Definition QUAD2_F4 : N := 23.
Definition QUAD3_xx_xx : N := 24.
Definition QUAD3_F0_xx : N := 25.
Definition QUAD3_F4_xx : N := 26.
Definition QUAD4_xx_xx_xx : N := 27.
Definition QUAD4_F0_xx_xx : N := 28.
Definition QUAD4_F4_xx_xx : N := 29.
Definition ILLEGAL : N := 30.

Definition WASSPACE : N := 0.
Definition NEWLINE : N := 1.
Definition NEWWORD : N := 2.
Definition WASWORD : N := 3.
Definition USPACE : N := 4.
Definition UWORD : N := USPACE + ILLEGAL + 1.
Definition STATE_MAX : N := UWORD + ILLEGAL + 1.

(** ** Arrays and loops *)

Abbreviation Row := (list N).
Abbreviation Table := (list (list N)).

(** [table[256][256]] before [main] runs. *)
Definition table_init : Table := replicate 256 (replicate 256 0).

(** A checked read [t[s][c]]: [None] when an index leaves the array. *)
Definition load (t : Table) (s c : N) : option N :=
  t !! N.to_nat s ≫= (.!! N.to_nat c).

(** The read [t[s][c]] of the builder, whose indices are constants inside
    the array. *)
Definition entry (t : Table) (s c : N) : N := default 0 (load t s c).

(** [row[c] = v] for an [unsigned char *row]. *)
Definition row_store (row : Row) (c v : N) : Row :=
  <[N.to_nat c := to_uchar v]> row.

(** [t[s][c] = v].  Every store of the program has both indices inside
    the array; outside it (undefined in C) this model leaves [t] as it
    is. *)
Definition store (t : Table) (s c v : N) : Table :=
  alter (fun row => row_store row c v) (N.to_nat s) t.

(** Run [f] on the row [t[s]] through a pointer to it. *)
Definition on_row (s : N) (f : Row -> Row) (t : Table) : Table :=
  alter f (N.to_nat s) t.

(** [memcpy(t[dst], t[src], 256)]: a whole row. *)
Definition memcpy_row (t : Table) (dst src : N) : Table :=
  match t !! N.to_nat src with
  | Some row => <[N.to_nat dst := row]> t
  | None => t
  end.

(** [n] rounds of [body], the counter starting at [i]. *)
Fixpoint for_loop {S : Type} (n : nat) (i : N) (body : N -> S -> S) (s : S) : S :=
  match n with
  | O => s
  | Datatypes.S n' => for_loop n' (i + 1) body (body i s)
  end.

(** [for (i = lo; i < hi; i++) body]. *)
Definition for_range {S : Type} (lo hi : N) (body : N -> S -> S) (s : S) : S :=
  for_loop (N.to_nat (hi - lo)) lo body s.

(** ** The table builder *)

Section Builder.

(** The C library's classification of a byte and of a wide character. *)
Variable isspace : N -> bool.
Variable iswspace : N -> bool.

(** The state that [build_basic] stores into [row[c]]: every branch of
    the body of its loop is one store into that cell, and this is the
    value stored, branch by branch. *)
Definition basic_state (default_state ubase c : N) : N :=
  if negb (N.land c 0x80 =? 0) then
    if N.land c 0xE0 =? 0xC0 then
      (* 110x xxxx - unicode 2 byte sequence *)
      if c <? 0xC2 then ubase + ILLEGAL
      else if c =? 0xC2 then ubase + DUO2_C2
      else ubase + DUO2_xx
    else if N.land c 0xF0 =? 0xE0 then
      (* 1110 xxxx - unicode 3 byte sequence *)
      if c =? 0xE0 then ubase + TRI2_E0
      else if c =? 0xE1 then ubase + TRI2_E1
      else if c =? 0xE2 then ubase + TRI2_E2
      else if c =? 0xE3 then ubase + TRI2_E3
      else if c =? 0xED then ubase + TRI2_ED
      else if c =? 0xEE then ubase + TRI2_EE
      else ubase + TRI2_xx
    else if N.land c 0xF8 =? 0xF0 then
      if 0xF5 <=? c then ubase + ILLEGAL
      else if c =? 0xF0 then ubase + QUAD2_F0
      else if c =? 0xF4 then ubase + QUAD2_F4
      else ubase + QUAD2_xx
    else ubase + ILLEGAL
  else if c =? 10 then NEWLINE
  else if isspace c then WASSPACE
  else default_state.

Definition build_basic (row : Row) (default_state ubase : N) : Row :=
  for_range 0 256 (fun c row =>
    row_store row c (basic_state default_state ubase c)) row.

(** The same body with the store kept inside each branch, as the source
    writes it; [build_basic_branches_loop] relates the two. *)
Definition build_basic_branches (default_state ubase c : N) (row : Row) : Row :=
  if negb (N.land c 0x80 =? 0) then
    if N.land c 0xE0 =? 0xC0 then
      if c <? 0xC2 then row_store row c (ubase + ILLEGAL)
      else if c =? 0xC2 then row_store row c (ubase + DUO2_C2)
      else row_store row c (ubase + DUO2_xx)
    else if N.land c 0xF0 =? 0xE0 then
      if c =? 0xE0 then row_store row c (ubase + TRI2_E0)
      else if c =? 0xE1 then row_store row c (ubase + TRI2_E1)
      else if c =? 0xE2 then row_store row c (ubase + TRI2_E2)
      else if c =? 0xE3 then row_store row c (ubase + TRI2_E3)
      else if c =? 0xED then row_store row c (ubase + TRI2_ED)
      else if c =? 0xEE then row_store row c (ubase + TRI2_EE)
      else row_store row c (ubase + TRI2_xx)
    else if N.land c 0xF8 =? 0xF0 then
      if 0xF5 <=? c then row_store row c (ubase + ILLEGAL)
      else if c =? 0xF0 then row_store row c (ubase + QUAD2_F0)
      else if c =? 0xF4 then row_store row c (ubase + QUAD2_F4)
      else row_store row c (ubase + QUAD2_xx)
    else row_store row c (ubase + ILLEGAL)
  else if c =? 10 then row_store row c NEWLINE
  else if isspace c then row_store row c WASSPACE
  else row_store row c default_state.

Definition build_WASSPACE (row : Row) : Row := build_basic row NEWWORD USPACE.
Definition build_WASWORD (row : Row) : Row := build_basic row WASWORD UWORD.

Definition build_urow (ubase id next : N) (t : Table) : Table :=
  let default_state := entry t (ubase + ILLEGAL) 0 in
  let next := if next =? 0 then default_state else ubase + next in
  let t := memcpy_row t (ubase + id) (ubase + ILLEGAL) in
  let t := for_range 0x80 0xC0 (fun i t => store t (ubase + id) i next) t in
  for_range 0xC0 0x100 (fun i t => store t (ubase + id) i (ubase + ILLEGAL)) t.

(** [if (b) t[s][c] = v;]: the cell takes [v] when [b] holds and keeps
    its content otherwise. *)
Definition store_if (b : bool) (t : Table) (s c v : N) : Table :=
  alter (alter (fun old => if b then to_uchar v else old) (N.to_nat c))
    (N.to_nat s) t.

Definition build_unicode (default_state ubase : N) (t : Table) : Table :=
  let t := on_row (ubase + ILLEGAL) (fun row => build_basic row default_state ubase) t in
  (* Two byte *)
  let t := build_urow ubase DUO2_xx 0 t in
  let t := build_urow ubase DUO2_C2 0 t in
  (* Three byte *)
  let t := build_urow ubase TRI2_E0 TRI3_E0_xx t in
  let t := build_urow ubase TRI2_E1 TRI3_E1_xx t in
  let t := build_urow ubase TRI2_E2 TRI3_E2_xx t in
  let t := build_urow ubase TRI2_E3 TRI3_E3_xx t in
  let t := build_urow ubase TRI2_ED TRI3_Ed_xx t in
  let t := build_urow ubase TRI2_EE TRI3_Ee_xx t in
  let t := build_urow ubase TRI2_xx TRI3_xx_xx t in
  let t := build_urow ubase TRI3_E0_xx 0 t in
  let t := build_urow ubase TRI3_E1_xx 0 t in
  let t := build_urow ubase TRI3_E1_9a 0 t in
  let t := build_urow ubase TRI3_E2_80 0 t in
  let t := build_urow ubase TRI3_E2_81 0 t in
  let t := build_urow ubase TRI3_E2_xx 0 t in
  let t := build_urow ubase TRI3_E3_80 0 t in
  let t := build_urow ubase TRI3_E3_81 0 t in
  let t := build_urow ubase TRI3_E3_xx 0 t in
  let t := build_urow ubase TRI3_Ed_xx 0 t in
  let t := build_urow ubase TRI3_Ee_xx 0 t in
  let t := build_urow ubase TRI3_xx_xx 0 t in
  let t := store t (ubase + TRI2_E1) 0x9a (ubase + TRI3_E1_9a) in
  let t := store t (ubase + TRI2_E2) 0x80 (ubase + TRI3_E2_80) in
  let t := store t (ubase + TRI2_E2) 0x81 (ubase + TRI3_E2_81) in
  let t := store t (ubase + TRI2_E3) 0x80 (ubase + TRI3_E3_80) in
  let t := store t (ubase + TRI2_E3) 0x81 (ubase + TRI3_E3_81) in
  (* Four byte *)
  let t := build_urow ubase QUAD2_xx QUAD3_xx_xx t in
  let t := build_urow ubase QUAD2_F0 QUAD3_F0_xx t in
  let t := build_urow ubase QUAD2_F4 QUAD3_F4_xx t in
  let t := build_urow ubase QUAD3_xx_xx QUAD4_xx_xx_xx t in
  let t := build_urow ubase QUAD3_F0_xx QUAD4_F0_xx_xx t in
  let t := build_urow ubase QUAD3_F4_xx QUAD4_F4_xx_xx t in
  let t := build_urow ubase QUAD4_xx_xx_xx 0 t in
  let t := build_urow ubase QUAD4_F0_xx_xx 0 t in
  let t := build_urow ubase QUAD4_F4_xx_xx 0 t in
  (* Mark Unicode spaces *)
  let t := store_if (iswspace 0x0085) t (ubase + DUO2_C2) 0x85 WASSPACE in
  let t := store_if (iswspace 0x00A0) t (ubase + DUO2_C2) 0xA0 WASSPACE in
  let t := store_if (iswspace 0x1680) t (ubase + TRI3_E1_9a) 0x80 WASSPACE in
  let t := for_range 0x2000 (0x200b + 1) (fun i t =>
             store_if (iswspace i) t (ubase + TRI3_E2_80) (0x80 + N.land i 0x6F) WASSPACE) t in
  let t := store_if (iswspace 0x2028) t (ubase + TRI3_E2_80) 0xA8 WASSPACE in
  let t := store_if (iswspace 0x2029) t (ubase + TRI3_E2_80) 0xA9 WASSPACE in
  let t := store_if (iswspace 0x202F) t (ubase + TRI3_E2_80) 0xAF WASSPACE in
  let t := store_if (iswspace 0x205F) t (ubase + TRI3_E2_81) 0x9F WASSPACE in
  let t := store_if (iswspace 0x3000) t (ubase + TRI3_E3_80) 0x80 WASSPACE in
  (* Mark illegal sequences *)
  let t := for_range 0x80 0xA0 (fun i t => store t (ubase + TRI2_E0) i (ubase + ILLEGAL)) t in
  let t := for_range 0x80 0x90 (fun i t => store t (ubase + QUAD2_F0) i (ubase + ILLEGAL)) t in
  let t := for_range 0x90 0xC0 (fun i t => store t (ubase + QUAD2_F4) i (ubase + ILLEGAL)) t in
  for_range 0xA0 0xC0 (fun i t => store t (ubase + TRI2_ED) i (ubase + ILLEGAL)) t.

(** [is_multibyte] is the C [int] tested by [if (is_multibyte)]. *)
Definition compile_utf8_statemachine (is_multibyte : bool) (t : Table) : Table :=
  if is_multibyte then
    let t := on_row WASSPACE build_WASSPACE t in
    let t := on_row NEWLINE build_WASSPACE t in
    let t := on_row WASWORD build_WASWORD t in
    let t := on_row NEWWORD build_WASWORD t in
    let t := build_unicode NEWWORD USPACE t in
    build_unicode WASWORD UWORD t
  else
    (* every branch stores into the same four cells of column [c] *)
    for_range 0 256 (fun c t =>
      let t := store t WASSPACE c
        (if c =? 10 then NEWLINE else if isspace c then WASSPACE else NEWWORD) in
      let t := store t NEWLINE c
        (if c =? 10 then NEWLINE else if isspace c then WASSPACE else NEWWORD) in
      let t := store t NEWWORD c
        (if c =? 10 then NEWLINE else if isspace c then WASSPACE else WASWORD) in
      store t WASWORD c
        (if c =? 10 then NEWLINE else if isspace c then WASSPACE else WASWORD)) t.

(** The body of the loop of the single-byte branch with its three
    branches of four stores, as the source writes it;
    [ascii_branches_loop] relates it to the loop above. *)
Definition ascii_branches (c : N) (t : Table) : Table :=
  if c =? 10 then
    let t := store t WASSPACE c NEWLINE in
    let t := store t NEWLINE c NEWLINE in
    let t := store t NEWWORD c NEWLINE in
    store t WASWORD c NEWLINE
  else if isspace c then
    let t := store t WASSPACE c WASSPACE in
    let t := store t NEWLINE c WASSPACE in
    let t := store t NEWWORD c WASSPACE in
    store t WASWORD c WASSPACE
  else
    let t := store t WASSPACE c NEWWORD in
    let t := store t NEWLINE c NEWWORD in
    let t := store t NEWWORD c WASWORD in
    store t WASWORD c WASWORD.

(** The table the program works with: built once by [main]. *)
Definition the_table (is_multibyte : bool) : Table :=
  compile_utf8_statemachine is_multibyte table_init.

End Builder.

(** The classification of the "C" locale, where the white-space
    characters are space, form feed, newline, carriage return and the two
    tabs, and no wide character beyond them is a space. *)
Definition c_isspace (c : N) : bool := (c =? 32) || ((9 <=? c) && (c <=? 13)).
Definition c_iswspace (c : N) : bool := c_isspace c.

(** A locale with the Unicode spaces that the builder asks about. *)
Definition u_iswspace (c : N) : bool :=
  c_isspace c || (c =? 0x85) || (c =? 0xA0) || (c =? 0x1680)
  || ((0x2000 <=? c) && (c <=? 0x200A)) || (c =? 0x2028) || (c =? 0x2029)
  || (c =? 0x202F) || (c =? 0x205F) || (c =? 0x3000).

(** ** The chunk processors *)

(** [struct results]: four [unsigned long] counters. *)
Record results : Type := mk_results {
  line_count : N;
  word_count : N;
  char_count : N;
  byte_count : N
}.

(** The [+=] on each field that [parse_file] and [main] sum results
    with, in [unsigned long] arithmetic. *)
Definition add_results (a b : results) : results :=
  {| line_count := wrap64 (line_count a + line_count b);
     word_count := wrap64 (word_count a + word_count b);
     char_count := wrap64 (char_count a + char_count b);
     byte_count := wrap64 (byte_count a + byte_count b) |}.

(** The automatic array [counts[STATE_MAX]] as the function finds it:
    [junk] is the indeterminate content of the stack, [wrap] the width
    of a cell. *)
Definition alloc_counts (wrap : N -> N) (junk : N -> N) : list N :=
  (fun i => wrap (junk (N.of_nat i))) <$> seq 0 (N.to_nat STATE_MAX).

(** [counts[NEWLINE] = 0; counts[NEWWORD] = 0; counts[WASSPACE] = 0;
    counts[WASWORD] = 0;] *)
Definition zero_counts (counts : list N) : list N :=
  <[N.to_nat WASWORD := 0]>
    (<[N.to_nat WASSPACE := 0]>
      (<[N.to_nat NEWWORD := 0]>
        (<[N.to_nat NEWLINE := 0]> counts))).

(** [counts[s]] for one of the four constant indices. *)
Definition cell (counts : list N) (s : N) : N :=
  default 0 (counts !! N.to_nat s).

(** [counts[state]++], checked: [None] when [state] is outside
    [counts]. *)
Definition bump (wrap : N -> N) (counts : list N) (state : N) : option (list N) :=
  n ← counts !! N.to_nat state;
  Some (<[N.to_nat state := wrap (n + 1)]> counts).

(** The results block shared by the three functions; [wrap] is the
    width the sum of [char_count] is computed in. *)
Definition make_results (wrap : N -> N) (counts : list N) (length : N) : results :=
  {| line_count := cell counts NEWLINE;
     word_count := cell counts NEWWORD;
     char_count :=
       wrap (wrap (wrap (cell counts NEWLINE + cell counts WASSPACE)
                   + cell counts WASWORD) + cell counts NEWWORD);
     byte_count := length |}.

(** [parse_chunk]: the loop indexes the buffer.  The result is the
    [struct results] and the value stored through [inout_state]; [None]
    stands for an access outside [table] or [counts]. *)
Definition parse_chunk (t : Table) (junk : N -> N) (buf : list Byte.byte)
    (inout_state : N) : option (results * N) :=
  let length := N.of_nat (length buf) in
  let state := inout_state in
  let counts := zero_counts (alloc_counts wrap32 junk) in
  '(state, counts) ←
    for_range 0 length (fun i acc =>
      '(state, counts) ← acc;
      c ← Byte.to_N <$> buf !! N.to_nat i;
      state ← load t state c;
      counts ← bump wrap32 counts state;
      Some (state, counts)) (Some (state, counts));
  Some (make_results wrap32 counts length, wrap32 state).

(** The loop [while (buf < end) { c = *buf++; ... }] of [parse_chunk_p]:
    the buffer is consumed from its head. *)
Fixpoint walk (t : Table) (buf : list Byte.byte) (state : N) (counts : list N)
    : option (N * list N) :=
  match buf with
  | [] => Some (state, counts)
  | b :: buf =>
      let c := Byte.to_N b in
      state ← load t state c;
      counts ← bump wrap32 counts state;
      walk t buf state counts
  end.

Definition parse_chunk_p (t : Table) (junk : N -> N) (buf : list Byte.byte)
    (inout_state : N) : option (results * N) :=
  let state := inout_state in
  let counts := zero_counts (alloc_counts wrap32 junk) in
  '(state, counts) ← walk t buf state counts;
  Some (make_results wrap32 counts (N.of_nat (length buf)), wrap32 state).

(** *** The table of pointers *)

(** [sizeof(void * )]. *)
Definition PTR_SIZE : N := 8.

(** [table_p] is an array of 256 rows of 256 pointers placed at the
    address [base]; a pointer is the address it holds, and a cell never
    written holds the null pointer 0. *)
Definition table_p_init : list (list N) := replicate 256 (replicate 256 0).

(** The macro [PSTATE(p)], for a pointer [p] that is not below
    [table_p]. *)
Definition PSTATE (base p : N) : option N :=
  if base <=? p then Some ((p - base) / (256 * PTR_SIZE)) else None.

(** One round of the inner loop of [compile_pointers]: the store and
    the [assert]. *)
Definition compile_pointers_cell (base : N) (t : Table) (i j : N)
    (acc : option (list (list N))) : option (list (list N)) :=
  tp ← acc;
  let p := base + entry t i j * 256 * PTR_SIZE in
  let tp := alter (fun row => <[N.to_nat j := p]> row) (N.to_nat i) tp in
  q ← tp !! N.to_nat i ≫= (.!! N.to_nat j);
  s ← PSTATE base q;
  if s =? entry t i j then Some tp else None.

(** [compile_pointers]; [None] when an [assert] fails. *)
Definition compile_pointers (base : N) (t : Table) (tp : list (list N))
    : option (list (list N)) :=
  for_range 0 STATE_MAX (fun i acc =>
    for_range 0 256 (fun j acc => compile_pointers_cell base t i j acc) acc)
    (Some tp).

(** The read [state[c]] of a [void **state]: the pointer stored [c]
    cells after the address [state], which has to fall on a cell of
    [table_p]. *)
Definition deref (base : N) (tp : list (list N)) (state c : N) : option N :=
  let a := state + c * PTR_SIZE in
  if (base <=? a) && ((a - base) mod PTR_SIZE =? 0) then
    let k := (a - base) / PTR_SIZE in
    tp !! N.to_nat (k / 256) ≫= (.!! N.to_nat (k mod 256))
  else None.

Fixpoint walk_pp (base : N) (tp : list (list N)) (buf : list Byte.byte)
    (state : N) (counts : list N) : option (N * list N) :=
  match buf with
  | [] => Some (state, counts)
  | b :: buf =>
      let c := Byte.to_N b in
      state ← deref base tp state c;
      s ← PSTATE base state;
      counts ← bump wrap64 counts s;
      walk_pp base tp buf state counts
  end.

(** [parse_chunk_pp]: the state is a pointer to a row of [table_p] and
    the tallies are [unsigned long]. *)
Definition parse_chunk_pp (base : N) (tp : list (list N)) (junk : N -> N)
    (buf : list Byte.byte) (inout_state : N) : option (results * N) :=
  let state := base + wrap32 (inout_state * 256) * PTR_SIZE in
  let counts := zero_counts (alloc_counts wrap64 junk) in
  '(state, counts) ← walk_pp base tp buf state counts;
  s ← PSTATE base state;
  Some (make_results wrap64 counts (N.of_nat (length buf)), wrap32 s).

(** ** Reference semantics of a run

    The states the automaton lands in, one per byte, and how often a
    state occurs among them.  These are plain mathematics: no bound, no
    wrap-around. *)

Fixpoint run (t : Table) (state : N) (buf : list Byte.byte) : list N :=
  match buf with
  | [] => []
  | b :: buf =>
      let state := entry t state (Byte.to_N b) in
      state :: run t state buf
  end.

(** The state after the last byte. *)
Definition final (state : N) (trace : list N) : N := List.last trace state.
Arguments final : simpl never.

(** The number of transitions of [trace] that land in [s]. *)
Definition landings (s : N) (trace : list N) : N :=
  N.of_nat (count_occ N.eq_dec trace s).
Arguments landings : simpl never.

(** The tallies after counting [trace] into [counts], cells of width
    [wrap]. *)
Definition tally (wrap : N -> N) (counts : list N) (trace : list N) : list N :=
  foldl (fun counts s => <[N.to_nat s := wrap (cell counts s + 1)]> counts) counts trace.

(** A table of the declared shape whose cells are states below
    [STATE_MAX]. *)
Definition row_ok (row : Row) : Prop :=
  length row = 256%nat /\ Forall (fun v => v < STATE_MAX) row.
Definition table_ok (t : Table) : Prop :=
  length t = 256%nat /\ Forall row_ok t.

(** * Reference definitions

    The notions the properties are stated with: what the tables are
    expected to hold, the shapes of the inputs of the scenarios, and the
    checks that are run on a built table. *)

(** The results of a chunk, in terms of the reference run. *)
Definition results_of (wrap : N -> N) (trace : list N) (length : N) : results :=
  {| line_count := wrap (landings NEWLINE trace);
     word_count := wrap (landings NEWWORD trace);
     char_count :=
       wrap (landings NEWLINE trace + landings WASSPACE trace
             + landings WASWORD trace + landings NEWWORD trace);
     byte_count := length |}.

(** The context a state belongs to: [USPACE] for the states entered
    after a space, [UWORD] for the states entered inside a word. *)
Definition context_of (s : N) : N :=
  if (s <? NEWWORD) || ((USPACE <=? s) && (s <? UWORD)) then USPACE else UWORD.

(** Boolean checks over ranges of states and bytes, run on a table
    that is built once. *)
Definition bytes_from (lo n : nat) : list N := N.of_nat <$> seq lo n.

Definition cells_all (t : Table) (f : N -> N -> N -> bool)
    (states bytes : list N) : bool :=
  forallb (fun s => forallb (fun c => f s c (entry t s c)) bytes) states.

Definition zero_results : results :=
  {| line_count := 0; word_count := 0; char_count := 0; byte_count := 0 |}.

(** The transitions that land in a state where a character ends. *)
Definition char_landings (trace : list N) : N :=
  landings NEWLINE trace + landings WASSPACE trace
  + landings WASWORD trace + landings NEWWORD trace.

(** A buffer of [n] newlines; [n] is kept in binary. *)
Definition newlines (n : N) : list Byte.byte := replicate (N.to_nat n) Byte.x0a.

Definition is_ascii (b : Byte.byte) : bool := Byte.to_N b <? 128.

(** A well-formed multi-byte UTF-8 sequence at the head of [buf]: two,
    three or four bytes, under the restrictions on the second byte that
    [build_unicode] marks. *)
Definition in_range (lo hi b : N) : bool := (lo <=? b) && (b <=? hi).

Definition is_cont (b : N) : bool := in_range 0x80 0xBF b.

Definition utf8_sequence_at (buf : list N) : bool :=
  match buf with
  | b1 :: b2 :: rest =>
      (in_range 0xC2 0xDF b1 && is_cont b2)
      || match rest with
         | b3 :: rest =>
             (((b1 =? 0xE0) && in_range 0xA0 0xBF b2
               || in_range 0xE1 0xEC b1 && is_cont b2
               || (b1 =? 0xED) && in_range 0x80 0x9F b2
               || in_range 0xEE 0xEF b1 && is_cont b2) && is_cont b3)
             || match rest with
                | b4 :: _ =>
                    ((b1 =? 0xF0) && in_range 0x90 0xBF b2
                     || in_range 0xF1 0xF3 b1 && is_cont b2
                     || (b1 =? 0xF4) && in_range 0x80 0x8F b2)
                    && is_cont b3 && is_cont b4
                | [] => false
                end
         | [] => false
         end
  | _ => false
  end.

(** [buf] contains a multi-byte UTF-8 sequence. *)
Fixpoint contains_multibyte (buf : list N) : bool :=
  match buf with
  | [] => false
  | _ :: rest => utf8_sequence_at buf || contains_multibyte rest
  end.

(** The second byte after a lead byte, for a row whose continuation
    bytes from [lo] to [hi] go on to [next] and whose other continuation
    bytes are illegal. *)
Definition narrowed (ubase next lo hi c : N) : N :=
  if (lo <=? c) && (c <=? hi) then ubase + next else ubase + ILLEGAL.

(** The states that take a lead byte: the four base states and the
    two [ILLEGAL] states. *)
Definition takes_lead (s : N) : bool :=
  (s <? 4) || (s =? USPACE + ILLEGAL) || (s =? UWORD + ILLEGAL).

Abbreviation check_narrowed t ubase id next lo hi :=
  (cells_all t (fun _ c v => v =? narrowed ubase next lo hi c)
     (bytes_from (N.to_nat (ubase + id)) 1) (bytes_from 0x80 64)).

Abbreviation check_lead t c id :=
  (cells_all t (fun s _ v => negb (takes_lead s) || (v =? context_of s + id))
     (bytes_from 0 66) (bytes_from c 1)).

(** Every check on the cells that hold no value of the locale, run on
    one table. *)
Definition lead_checks (t : Table) : list bool :=
  [ cells_all t (fun s _ v => v =? context_of s + ILLEGAL)
      (bytes_from 0 66) (bytes_from 0xC0 2);
    cells_all t (fun s _ v => v =? context_of s + ILLEGAL)
      (bytes_from 0 66) (bytes_from 0xF5 11);
    check_narrowed t USPACE TRI2_E0 TRI3_E0_xx 0xA0 0xBF;
    check_narrowed t USPACE TRI2_ED TRI3_Ed_xx 0x80 0x9F;
    check_narrowed t USPACE QUAD2_F0 QUAD3_F0_xx 0x90 0xBF;
    check_narrowed t USPACE QUAD2_F4 QUAD3_F4_xx 0x80 0x8F;
    check_narrowed t UWORD TRI2_E0 TRI3_E0_xx 0xA0 0xBF;
    check_narrowed t UWORD TRI2_ED TRI3_Ed_xx 0x80 0x9F;
    check_narrowed t UWORD QUAD2_F0 QUAD3_F0_xx 0x90 0xBF;
    check_narrowed t UWORD QUAD2_F4 QUAD3_F4_xx 0x80 0x8F;
    check_lead t 0xE0 TRI2_E0;
    check_lead t 0xED TRI2_ED;
    check_lead t 0xF0 QUAD2_F0;
    check_lead t 0xF4 QUAD2_F4;
    cells_all t (fun s _ v => v =? s)
      (bytes_from (N.to_nat (USPACE + ILLEGAL)) 1) (bytes_from 0x80 64);
    cells_all t (fun s _ v => v =? s)
      (bytes_from (N.to_nat (UWORD + ILLEGAL)) 1) (bytes_from 0x80 64) ].

(** The states that wait for the last continuation byte of a
    sequence. *)
Definition completing (id : N) : bool :=
  (id <=? DUO2_C2)
  || ((TRI3_E0_xx <=? id) && (id <=? TRI3_xx_xx))
  || ((QUAD4_xx_xx_xx <=? id) && (id <=? QUAD4_F4_xx_xx)).

(** The code point of a space that ends with byte [c] in state [id], if
    [build_unicode] asks [iswspace] about one. *)
Definition unicode_space_of (id c : N) : option N :=
  if id =? DUO2_C2 then
    if c =? 0x85 then Some 0x0085 else if c =? 0xA0 then Some 0x00A0 else None
  else if id =? TRI3_E1_9a then
    if c =? 0x80 then Some 0x1680 else None
  else if id =? TRI3_E2_80 then
    if c <=? 0x8B then Some (0x2000 + (c - 0x80))
    else if c =? 0xA8 then Some 0x2028
    else if c =? 0xA9 then Some 0x2029
    else if c =? 0xAF then Some 0x202F
    else None
  else if id =? TRI3_E2_81 then
    if c =? 0x9F then Some 0x205F else None
  else if id =? TRI3_E3_80 then
    if c =? 0x80 then Some 0x3000 else None
  else None.

(** The cells of the rows from [slo] on the continuation bytes. *)
Definition continuation_cells (t : Table) (slo sn : nat) : list (list N) :=
  (fun s => (fun c => entry t s c) <$> bytes_from 0x80 64) <$> bytes_from slo sn.

(** The address of row [s] of [table_p]. *)
Definition row_ptr (base s : N) : N := base + s * 256 * PTR_SIZE.

(** [tp[i][j]], checked. *)
Definition pload (tp : list (list N)) (i j : N) : option N :=
  tp !! N.to_nat i ≫= (.!! N.to_nat j).

Definition ptable_shape (tp : list (list N)) : Prop :=
  length tp = 256%nat /\ Forall (fun row => length row = 256%nat) tp.

(** What [compile_pointers] has established when its loops stand at
    row [i] and column [j]. *)
Definition pointers_upto (base : N) (t : Table) (i j : N)
    (acc : option (list (list N))) : Prop :=
  exists tp, acc = Some tp /\ ptable_shape tp
    /\ forall i' j', i' < i \/ (i' = i /\ j' < j) -> j' < 256 ->
         pload tp i' j' = Some (row_ptr base (entry t i' j')).

Section Reference.

Variable isspace : N -> bool.
Variable iswspace : N -> bool.

(** The classic four-state automaton of word counting: a newline, a
    space, and otherwise the first or a later byte of a word. *)
Definition ascii_next (s c : N) : N :=
  if c =? 10 then NEWLINE
  else if isspace c then WASSPACE
  else if (s =? WASSPACE) || (s =? NEWLINE) then NEWWORD
  else WASWORD.

Definition ascii_body (c : N) (t : Table) : Table :=
  let t := store t WASSPACE c
    (if c =? 10 then NEWLINE else if isspace c then WASSPACE else NEWWORD) in
  let t := store t NEWLINE c
    (if c =? 10 then NEWLINE else if isspace c then WASSPACE else NEWWORD) in
  let t := store t NEWWORD c
    (if c =? 10 then NEWLINE else if isspace c then WASSPACE else WASWORD) in
  store t WASWORD c
    (if c =? 10 then NEWLINE else if isspace c then WASSPACE else WASWORD).

(** A byte of a word: ASCII, no newline, no space of the locale. *)
Definition word_byte (b : Byte.byte) : bool :=
  (Byte.to_N b <? 128) && negb (Byte.to_N b =? 10) && negb (isspace (Byte.to_N b)).

(** A separating byte: ASCII, no newline, a space of the locale. *)
Definition space_byte (b : Byte.byte) : bool :=
  (Byte.to_N b <? 128) && negb (Byte.to_N b =? 10) && isspace (Byte.to_N b).

(** A run of bytes of a word, not empty. *)
Definition is_word (w : list Byte.byte) : bool :=
  match w with [] => false | _ :: _ => forallb word_byte w end.

(** [w] followed by the pairs of a separator and a word: maximal runs
    separated by single spaces. *)
Fixpoint sentence (w : list Byte.byte) (rest : list (Byte.byte * list Byte.byte))
    : list Byte.byte :=
  match rest with
  | [] => w
  | (s, w') :: rest => w ++ s :: sentence w' rest
  end.

Definition rest_ok (rest : list (Byte.byte * list Byte.byte)) : bool :=
  forallb (fun sw => space_byte (fst sw) && is_word (snd sw)) rest.

(** Where the last continuation byte [c] of a sequence leads from the
    state [ubase + id]: to [WASSPACE] after a space of Unicode, and
    otherwise to the state that [build_urow] reads from
    [table[ubase + ILLEGAL][0]]. *)
Definition completed (ubase id c : N) : N :=
  let default_state :=
    to_uchar (to_uchar (if isspace 0 then WASSPACE
                        else if ubase =? USPACE then NEWWORD else WASWORD)) in
  match unicode_space_of id c with
  | Some cp => if iswspace cp then to_uchar WASSPACE else default_state
  | None => default_state
  end.

Definition completed_at (s c : N) : N :=
  completed (context_of s) (s - context_of s) c.

End Reference.

(** ** The automaton of the multibyte mode, read as a function *)

(** The state a context goes to on a character that is no space. *)
Definition default_of (ubase : N) : N :=
  if ubase =? USPACE then NEWWORD else WASWORD.

(** The state, within its context, that a lead byte opens. *)
Definition lead_id (c : N) : N :=
  if c <? 0xC2 then ILLEGAL
  else if c =? 0xC2 then DUO2_C2
  else if c <=? 0xDF then DUO2_xx
  else if c =? 0xE0 then TRI2_E0
  else if c =? 0xE1 then TRI2_E1
  else if c =? 0xE2 then TRI2_E2
  else if c =? 0xE3 then TRI2_E3
  else if c =? 0xED then TRI2_ED
  else if c =? 0xEE then TRI2_EE
  else if c <=? 0xEF then TRI2_xx
  else if c =? 0xF0 then QUAD2_F0
  else if c =? 0xF4 then QUAD2_F4
  else if c <=? 0xF3 then QUAD2_xx
  else ILLEGAL.

(** The state, within its context, that the continuation byte [c] leads
    to from the state [id] of an unfinished sequence; [None] when [c]
    is the last byte of the sequence. *)
Definition cont_id (id c : N) : option N :=
  if id =? TRI2_E0 then Some (if c <? 0xA0 then ILLEGAL else TRI3_E0_xx)
  else if id =? TRI2_E1 then Some (if c =? 0x9A then TRI3_E1_9a else TRI3_E1_xx)
  else if id =? TRI2_E2 then
    Some (if c =? 0x80 then TRI3_E2_80 else if c =? 0x81 then TRI3_E2_81 else TRI3_E2_xx)
  else if id =? TRI2_E3 then
    Some (if c =? 0x80 then TRI3_E3_80 else if c =? 0x81 then TRI3_E3_81 else TRI3_E3_xx)
  else if id =? TRI2_ED then Some (if c <? 0xA0 then TRI3_Ed_xx else ILLEGAL)
  else if id =? TRI2_EE then Some TRI3_Ee_xx
  else if id =? TRI2_xx then Some TRI3_xx_xx
  else if id =? QUAD2_xx then Some QUAD3_xx_xx
  else if id =? QUAD2_F0 then Some (if c <? 0x90 then ILLEGAL else QUAD3_F0_xx)
  else if id =? QUAD2_F4 then Some (if c <? 0x90 then QUAD3_F4_xx else ILLEGAL)
  else if id =? QUAD3_xx_xx then Some QUAD4_xx_xx_xx
  else if id =? QUAD3_F0_xx then Some QUAD4_F0_xx_xx
  else if id =? QUAD3_F4_xx then Some QUAD4_F4_xx_xx
  else if id =? ILLEGAL then Some ILLEGAL
  else None.

(** The cells of the rows from [slo] on the bytes from [blo]. *)
Definition table_cells (t : Table) (slo sn blo bn : nat) : list (list N) :=
  (fun s => (fun c => entry t s c) <$> bytes_from blo bn) <$> bytes_from slo sn.

Section Automaton.

Variable isspace : N -> bool.
Variable iswspace : N -> bool.

(** A byte of ASCII, in any state of the context [ubase]. *)
Definition ascii_step (ubase c : N) : N :=
  if c =? 10 then NEWLINE
  else if isspace c then WASSPACE
  else default_of ubase.

(** The last byte [c] of a sequence, in the state [id] of the context
    [ubase]. *)
Definition char_end (ubase id c : N) : N :=
  let default_state := if isspace 0 then WASSPACE else default_of ubase in
  match unicode_space_of id c with
  | Some cp => if iswspace cp then WASSPACE else default_state
  | None => default_state
  end.

(** The transition of the multibyte mode from state [s] on byte [c]. *)
Definition utf8_next (s c : N) : N :=
  let ubase := context_of s in
  if c <? 0x80 then ascii_step ubase c
  else if takes_lead s then
    if c <? 0xC0 then ubase + ILLEGAL else ubase + lead_id c
  else if 0xC0 <=? c then ubase + ILLEGAL
  else
    match cont_id (s - ubase) c with
    | Some id => ubase + id
    | None => char_end ubase (s - ubase) c
    end.

End Automaton.

(** ** What the counters are meant to count *)

(** The number of bytes of [buf] that satisfy [p]. *)
Fixpoint count_bytes (p : N -> bool) (buf : list Byte.byte) : N :=
  match buf with
  | [] => 0
  | b :: buf => (if p (Byte.to_N b) then 1 else 0) + count_bytes p buf
  end.

Definition is_newline (c : N) : bool := c =? 10.

(** The states an input may be entered in: the four base states, and in
    the multibyte mode the states of an unfinished sequence too. *)
Definition entered (is_multibyte : bool) (st : N) : Prop :=
  if is_multibyte then st < STATE_MAX else st < 4.

Section Counting.

Variable isspace : N -> bool.

(** A byte that ends a word: a newline or a space of the locale. *)
Definition separates (c : N) : bool := (c =? 10) || isspace c.

(** The number of bytes of [buf] that begin a word: the bytes that do
    not separate and follow one that does; [after_space] tells whether
    the byte before [buf] separates. *)
Fixpoint word_starts (after_space : bool) (buf : list Byte.byte) : N :=
  match buf with
  | [] => 0
  | b :: buf =>
      (if after_space && negb (separates (Byte.to_N b)) then 1 else 0)
      + word_starts (separates (Byte.to_N b)) buf
  end.

End Counting.

(** ** Well-formed UTF-8 *)

(** One character of well-formed UTF-8, byte by byte: the sequences
    that the Unicode standard allows (no overlong form, no surrogate,
    nothing above U+10FFFF). *)
Definition utf8_char (ch : list Byte.byte) : bool :=
  match Byte.to_N <$> ch with
  | [b1] => b1 <? 0x80
  | [b1; b2] => in_range 0xC2 0xDF b1 && is_cont b2
  | [b1; b2; b3] =>
      ((b1 =? 0xE0) && in_range 0xA0 0xBF b2
       || in_range 0xE1 0xEC b1 && is_cont b2
       || (b1 =? 0xED) && in_range 0x80 0x9F b2
       || in_range 0xEE 0xEF b1 && is_cont b2) && is_cont b3
  | [b1; b2; b3; b4] =>
      ((b1 =? 0xF0) && in_range 0x90 0xBF b2
       || in_range 0xF1 0xF3 b1 && is_cont b2
       || (b1 =? 0xF4) && in_range 0x80 0x8F b2) && is_cont b3 && is_cont b4
  | _ => false
  end.

(** The code point that a character encodes. *)
Definition code_point (ch : list Byte.byte) : N :=
  match Byte.to_N <$> ch with
  | [b1] => b1
  | [b1; b2] => N.lor (N.shiftl (N.land b1 0x1F) 6) (N.land b2 0x3F)
  | [b1; b2; b3] =>
      N.lor (N.shiftl (N.land b1 0x0F) 12)
        (N.lor (N.shiftl (N.land b2 0x3F) 6) (N.land b3 0x3F))
  | [b1; b2; b3; b4] =>
      N.lor (N.shiftl (N.land b1 0x07) 18)
        (N.lor (N.shiftl (N.land b2 0x3F) 12)
           (N.lor (N.shiftl (N.land b3 0x3F) 6) (N.land b4 0x3F)))
  | _ => 0
  end.

(** The code points beyond ASCII that [build_unicode] asks [iswspace]
    about. *)
Definition space_candidate (cp : N) : bool :=
  (cp =? 0x0085) || (cp =? 0x00A0) || (cp =? 0x1680)
  || in_range 0x2000 0x200B cp
  || (cp =? 0x2028) || (cp =? 0x2029) || (cp =? 0x202F) || (cp =? 0x205F)
  || (cp =? 0x3000).

Section Text.

Variable isspace : N -> bool.
Variable iswspace : N -> bool.

(** A character that ends a word: a newline, a space of the locale in
    ASCII, or one of the candidates that the locale takes for a space. *)
Definition char_separates (ch : list Byte.byte) : bool :=
  match ch with
  | [b] => separates isspace (Byte.to_N b)
  | _ => space_candidate (code_point ch) && iswspace (code_point ch)
  end.

(** The number of characters of a text that begin a word. *)
Fixpoint char_word_starts (after_space : bool) (text : list (list Byte.byte)) : N :=
  match text with
  | [] => 0
  | ch :: text =>
      (if after_space && negb (char_separates ch) then 1 else 0)
      + char_word_starts (char_separates ch) text
  end.

(** The base state after the character [ch], read in the base state
    [s]. *)
Definition char_state (s : N) (ch : list Byte.byte) : N :=
  match ch with
  | [b] => ascii_step isspace (context_of s) (Byte.to_N b)
  | _ =>
      if isspace 0 then WASSPACE
      else if space_candidate (code_point ch) && iswspace (code_point ch) then WASSPACE
      else default_of (context_of s)
  end.

End Text.

(** * The driver

    The functions around the chunk processors, from [parse_file] to
    [main], and the notions their properties are stated with. *)

(** ** Files *)

(** [struct config]: the [int] fields are values of [Z], [file_count]
    is a [size_t] and [column_width] an [unsigned]. *)
Record config : Type := mk_config {
  file_count : N;
  is_stdin : Z;
  is_counting_lines : Z;
  is_counting_words : Z;
  is_counting_bytes : Z;
  is_counting_chars : Z;
  is_printing_totals : Z;
  column_width : N;
  is_pointer_arithmetic : Z
}.


(** A stream open for reading, seen through [fread(buf, 1, BUFSIZE,
    fp)]: the bytes that the successive calls deliver, call by call.  A
    call delivers at most [BUFSIZE] bytes, and when the list is
    exhausted [fread] returns 0. *)
Definition stream : Type := list (list Byte.byte).

(** The globals that [main] has set up before it reads a file: [table],
    [table_p] and the address of [table_p]. *)
Record tables : Type := mk_tables {
  table : Table;
  table_p_base : N;
  table_p : list (list N)
}.

(** The loop of [parse_file]; [call] numbers the calls of the chunk
    processor, each of which finds its own content [junk call] in
    [counts]. *)
Fixpoint parse_file_loop (g : tables) (junk : nat -> N -> N) (cfg : config)
    (call : nat) (fp : stream) (sum : results) (state : N) : option results :=
  match fp with
  | [] => Some sum
  | buf :: fp =>
      let count := N.of_nat (length buf) in
      if count <=? 0 then Some sum
      else
        '(x, state) ←
          (if (1 <? is_pointer_arithmetic cfg)%Z then
             parse_chunk_pp (table_p_base g) (table_p g) (junk call) buf state
           else if negb (is_pointer_arithmetic cfg =? 0)%Z then
             parse_chunk_p (table g) (junk call) buf state
           else
             parse_chunk (table g) (junk call) buf state);
        parse_file_loop g junk cfg (S call) fp (add_results sum x) state
  end.

Definition parse_file (g : tables) (junk : nat -> N -> N) (cfg : config)
    (fp : stream) : option results :=
  parse_file_loop g junk cfg 0 fp zero_results 0.




(** ** The command line *)

(** A C string: its bytes up to the terminating NUL. *)
Definition cstring : Type := list Byte.byte.

(** [s[i]] for [i] up to the length of [s]: beyond the last byte stands
    the NUL. *)
Definition char_at (s : cstring) (i : nat) : N :=
  match s !! i with
  | Some b => Byte.to_N b
  | None => 0
  end.

(** [strcmp(a, b) == 0]. *)
Definition same_string (a b : cstring) : bool :=
  bool_decide (Byte.to_N <$> a = Byte.to_N <$> b).

(** What [stat] reports of a name: nothing when it fails, and otherwise
    whether the name is a regular file ([S_ISREG]) and its [st_size], an
    [off_t]. *)
Definition stat_fn : Type := cstring -> option (bool * Z).

(** The loop [while (maxsize) { width++; maxsize /= 10; }]; [None] when
    [fuel] rounds do not end it. *)
Fixpoint count_digits (fuel : nat) (maxsize : Z) (width : N) : option N :=
  match fuel with
  | O => None
  | S fuel =>
      if (maxsize =? 0)%Z then Some width
      else count_digits fuel (maxsize ÷ 10)%Z (wrap32 (width + 1))
  end.

(** The size that [get_column_width] has in [maxsize] after the name
    [filename]. *)
Definition widen (stat : stat_fn) (maxsize : Z) (filename : cstring) : Z :=
  if char_at filename 0 =? 45 then maxsize
  else
    match stat filename with
    | Some (is_reg, st_size) =>
        if is_reg then (if (maxsize <=? st_size)%Z then st_size else maxsize)
        else if (maxsize <=? 1000000)%Z then 1000000%Z else maxsize
    | None => maxsize
    end.

(** [get_column_width]: [argv] holds the name of the program and the
    arguments.  An [off_t] has at most 19 decimal digits, so 20 rounds
    end the last loop for every size that [stat] can report. *)
Definition get_column_width (stat : stat_fn) (argv : list cstring) (is_stdin : Z)
    : option N :=
  let maxsize := foldl (widen stat) 1%Z (tail argv) in
  let maxsize :=
    if negb (is_stdin =? 0)%Z then
      if (maxsize <=? 1000000)%Z then 1000000%Z else maxsize
    else maxsize in
  count_digits 20 maxsize 0.

(** The sizes that [stat] reports of [names] are sizes of files, in the
    range of [off_t]. *)
Definition sizes_in_range (stat : stat_fn) (names : list cstring) : bool :=
  forallb (fun name =>
             match stat name with
             | Some (_, size) => (0 <=? size)%Z && (size <? 2 ^ 63)%Z
             | None => true
             end) names.

(** A file system for the examples: a regular file [a] of 12345 bytes
    and a directory [d]. *)
Definition example_stat : stat_fn :=
  fun name =>
    if same_string name [Byte.x61] then Some (true, 12345%Z)
    else if same_string name [Byte.x64] then Some (false, 4096%Z)
    else None.

(** ** How a run ends *)

(** What a run that leaves through [exit] has written before: the
    banner of [--version], the text of [print_help], or the message of
    [perror] for a string. *)
Inductive message : Type :=
  | Version
  | Help
  | Perror (s : cstring).

(** The ways a run of a function ends: it returns, it calls
    [exit(status)], an [assert] fails, or it runs into behaviour that C
    leaves undefined (the overflow of an [int], an access outside an
    array, an argument that the callee cannot read as the type it
    expects). *)
Inductive result (A : Type) : Type :=
  | Returns (a : A)
  | Exits (status : Z) (msg : message)
  | AssertFails
  | Undefined.
Arguments Returns {A} a.
Arguments Exits {A} status msg.
Arguments AssertFails {A}.
Arguments Undefined {A}.

#[global] Instance result_bind : MBind result :=
  fun A B (k : A -> result B) (r : result A) =>
    match r with
    | Returns a => k a
    | Exits status msg => Exits status msg
    | AssertFails => AssertFails
    | Undefined => Undefined
    end.

Definition INT_MAX : Z := 2147483647.

(** ** Printing *)

(** The digits of [n], most significant first, in front of [acc]; an
    [unsigned long] has at most 20 of them. *)
Fixpoint decimal_loop (fuel : nat) (n : N) (acc : list Byte.byte) : list Byte.byte :=
  match fuel with
  | O => acc
  | S fuel =>
      let acc := default Byte.x30 (Byte.of_N (48 + n mod 10)) :: acc in
      if n / 10 =? 0 then acc else decimal_loop fuel (n / 10) acc
  end.

Definition decimal (n : N) : list Byte.byte := decimal_loop 20 n [].

(** The decimal digits of [value], with spaces in front of them up to
    [width] characters. *)
Definition right_justified (width value : N) : list Byte.byte :=
  replicate (N.to_nat width - length (decimal value)) Byte.x20 ++ decimal value.

(** What [printf] writes for the conversion [%*lu] when it is handed
    the [unsigned] [width] and the [unsigned long] [value].  The
    conversion reads its width as an [int]: an [unsigned] in its place
    is defined where an [int] holds the value, and the digits are then
    right-justified on [width] characters. *)
Definition format_lu (width value : N) : result (list Byte.byte) :=
  if (Z.of_N width <=? INT_MAX)%Z then Returns (right_justified width value)
  else Undefined.

(** One [printf("%s%*lu", needs_space++ ? " " : "", width, value)] of
    [print_results]: the text written so far and [needs_space] are
    threaded through. *)
Definition print_count (flag : Z) (width value : N) (st : list Byte.byte * Z)
    : result (list Byte.byte * Z) :=
  let '(out, needs_space) := st in
  if negb (flag =? 0)%Z then
    field ← format_lu width value;
    Returns (out ++ (if negb (needs_space =? 0)%Z then [Byte.x20] else []) ++ field,
             (needs_space + 1)%Z)
  else Returns st.

(** [print_results]: what it writes to the standard output; [filename]
    is [None] for the null pointer. *)
Definition print_results (filename : option cstring) (r : results) (cfg : config)
    : result (list Byte.byte) :=
  let width := column_width cfg in
  let st := ([], 0%Z) in
  st ← print_count (is_counting_lines cfg) width (line_count r) st;
  st ← print_count (is_counting_words cfg) width (word_count r) st;
  st ← print_count (is_counting_bytes cfg) width (byte_count r) st;
  st ← print_count (is_counting_chars cfg) width (char_count r) st;
  let '(out, needs_space) := st in
  let out :=
    match filename with
    | Some name => out ++ (if negb (needs_space =? 0)%Z then [Byte.x20] else []) ++ name
    | None => out
    end in
  Returns (out ++ [Byte.x0a]).

(** The fields of a line of results, in the order of the columns. *)
Definition fields_of (filename : option cstring) (r : results) (cfg : config)
    : list (list Byte.byte) :=
  (if negb (is_counting_lines cfg =? 0)%Z
   then [right_justified (column_width cfg) (line_count r)] else [])
  ++ (if negb (is_counting_words cfg =? 0)%Z
      then [right_justified (column_width cfg) (word_count r)] else [])
  ++ (if negb (is_counting_bytes cfg =? 0)%Z
      then [right_justified (column_width cfg) (byte_count r)] else [])
  ++ (if negb (is_counting_chars cfg =? 0)%Z
      then [right_justified (column_width cfg) (char_count r)] else [])
  ++ match filename with Some name => [name] | None => [] end.

(** The fields with one space between each two of them. *)
Fixpoint spaced (fields : list (list Byte.byte)) : list Byte.byte :=
  match fields with
  | [] => []
  | [f] => f
  | f :: fields => f ++ Byte.x20 :: spaced fields
  end.

(** A line of results: its fields, a space between each two of them,
    and the newline. *)
Definition results_line (filename : option cstring) (r : results) (cfg : config)
    : list Byte.byte :=
  spaced (fields_of filename r cfg) ++ [Byte.x0a].

(** ** Reading the command line *)

(** [x++] for an [int]. *)
Definition int_incr (x : Z) : result Z :=
  if (x <? INT_MAX)%Z then Returns (x + 1)%Z else Undefined.

(** [isdigit(c)] for a [c] that an [unsigned char] holds; the function
    is applied to a plain [char], and where that is a signed type a
    byte from 0x80 on is no argument that C defines it for. *)
Definition isdigit (c : N) : bool := (48 <=? c) && (c <=? 57).

(** [atoi] of a string that begins with a digit: the number that its
    leading digits spell, when an [int] holds it. *)
Fixpoint digits_value (s : cstring) (acc : Z) : Z :=
  match s with
  | [] => acc
  | b :: s =>
      if isdigit (Byte.to_N b) then digits_value s (acc * 10 + (Z.of_N (Byte.to_N b) - 48))%Z
      else acc
  end.

Definition atoi (s : cstring) : result Z :=
  if (digits_value s 0 <=? INT_MAX)%Z then Returns (digits_value s 0) else Undefined.

(** The assignments to the fields of [cfg]. *)
Definition set_file_count (cfg : config) (v : N) : config :=
  mk_config v (is_stdin cfg) (is_counting_lines cfg) (is_counting_words cfg)
    (is_counting_bytes cfg) (is_counting_chars cfg) (is_printing_totals cfg)
    (column_width cfg) (is_pointer_arithmetic cfg).
Definition set_is_stdin (cfg : config) (v : Z) : config :=
  mk_config (file_count cfg) v (is_counting_lines cfg) (is_counting_words cfg)
    (is_counting_bytes cfg) (is_counting_chars cfg) (is_printing_totals cfg)
    (column_width cfg) (is_pointer_arithmetic cfg).
Definition set_is_counting_lines (cfg : config) (v : Z) : config :=
  mk_config (file_count cfg) (is_stdin cfg) v (is_counting_words cfg)
    (is_counting_bytes cfg) (is_counting_chars cfg) (is_printing_totals cfg)
    (column_width cfg) (is_pointer_arithmetic cfg).
Definition set_is_counting_words (cfg : config) (v : Z) : config :=
  mk_config (file_count cfg) (is_stdin cfg) (is_counting_lines cfg) v
    (is_counting_bytes cfg) (is_counting_chars cfg) (is_printing_totals cfg)
    (column_width cfg) (is_pointer_arithmetic cfg).
Definition set_is_counting_bytes (cfg : config) (v : Z) : config :=
  mk_config (file_count cfg) (is_stdin cfg) (is_counting_lines cfg) (is_counting_words cfg)
    v (is_counting_chars cfg) (is_printing_totals cfg)
    (column_width cfg) (is_pointer_arithmetic cfg).
Definition set_is_counting_chars (cfg : config) (v : Z) : config :=
  mk_config (file_count cfg) (is_stdin cfg) (is_counting_lines cfg) (is_counting_words cfg)
    (is_counting_bytes cfg) v (is_printing_totals cfg)
    (column_width cfg) (is_pointer_arithmetic cfg).
Definition set_is_printing_totals (cfg : config) (v : Z) : config :=
  mk_config (file_count cfg) (is_stdin cfg) (is_counting_lines cfg) (is_counting_words cfg)
    (is_counting_bytes cfg) (is_counting_chars cfg) v
    (column_width cfg) (is_pointer_arithmetic cfg).
Definition set_column_width (cfg : config) (v : N) : config :=
  mk_config (file_count cfg) (is_stdin cfg) (is_counting_lines cfg) (is_counting_words cfg)
    (is_counting_bytes cfg) (is_counting_chars cfg) (is_printing_totals cfg)
    v (is_pointer_arithmetic cfg).
Definition set_is_pointer_arithmetic (cfg : config) (v : Z) : config :=
  mk_config (file_count cfg) (is_stdin cfg) (is_counting_lines cfg) (is_counting_words cfg)
    (is_counting_bytes cfg) (is_counting_chars cfg) (is_printing_totals cfg)
    (column_width cfg) v.

(** [memset(&cfg, 0, sizeof(cfg))]. *)
Definition zero_config : config := mk_config 0 0 0 0 0 0 0 0 0.

(** The strings that the function compares with or hands to
    [perror]. *)
Definition str_version : cstring :=
  [Byte.x2d; Byte.x2d; Byte.x76; Byte.x65; Byte.x72; Byte.x73; Byte.x69; Byte.x6f; Byte.x6e].
Definition str_help : cstring := [Byte.x2d; Byte.x2d; Byte.x68; Byte.x65; Byte.x6c; Byte.x70].
Definition str_c : cstring := [Byte.x2d; Byte.x63].
Definition str_m : cstring := [Byte.x2d; Byte.x6d].
Definition str_W : cstring := [Byte.x2d; Byte.x57].

(** The loop over the letters of one argument, [for (j=1; j<maxj;
    j++)]: [letters] are the bytes from [argv[i][j]] on and [next] is
    [argv[i+1]] when [i+1 < argc].  It returns the configuration and
    whether [-W] has taken [next] for its parameter, moving [i] on. *)
Fixpoint read_letters (letters : cstring) (next : option cstring) (cfg : config)
    : result (config * bool) :=
  match letters with
  | [] => Returns (cfg, false)
  | b :: letters =>
      let c := Byte.to_N b in
      if c =? 108 then (* 'l' *)
        n ← int_incr (is_counting_lines cfg);
        read_letters letters next (set_is_counting_lines cfg n)
      else if c =? 119 then (* 'w' *)
        n ← int_incr (is_counting_words cfg);
        read_letters letters next (set_is_counting_words cfg n)
      else if c =? 99 then (* 'c' *)
        if negb (is_counting_chars cfg =? 0)%Z then Exits 1 (Perror str_c)
        else
          n ← int_incr (is_counting_bytes cfg);
          read_letters letters next (set_is_counting_bytes cfg n)
      else if c =? 109 then (* 'm' *)
        if negb (is_counting_bytes cfg =? 0)%Z then Exits 1 (Perror str_m)
        else
          n ← int_incr (is_counting_chars cfg);
          read_letters letters next (set_is_counting_chars cfg n)
      else if c =? 87 then (* 'W' *)
        let parm :=
          if char_at letters 0 =? 0 then next else Some letters in
        match parm with
        | None => Exits 1 (Perror str_W)
        | Some parm =>
            if 128 <=? char_at parm 0 then Undefined
            else if negb (isdigit (char_at parm 0)) then Exits 1 (Perror str_W)
            else
              n ← atoi parm;
              Returns (set_column_width cfg (wrap32 (Z.to_N n)),
                       char_at letters 0 =? 0)
        end
      else if c =? 80 then (* 'P' *)
        n ← int_incr (is_pointer_arithmetic cfg);
        read_letters letters next (set_is_pointer_arithmetic cfg n)
      else Exits 1 (Perror [Byte.x2d; b])
  end.

(** The loop over the arguments, [for (i=1; i<argc; i++)]: [args] are
    the arguments from [argv[i]] on. *)
Fixpoint read_args (args : list cstring) (cfg : config) : result config :=
  match args with
  | [] => Returns cfg
  | arg :: rest =>
      if negb (char_at arg 0 =? 45) then
        read_args rest (set_file_count cfg (wrap64 (file_count cfg + 1)))
      else if char_at arg 1 =? 0 then
        read_args rest (set_is_stdin cfg 1)
      else if char_at arg 1 =? 45 then
        if char_at arg 2 =? 0 then
          Returns (set_file_count cfg (wrap64 (file_count cfg + N.of_nat (length rest))))
        else if same_string arg str_version then Exits 0 Version
        else if same_string arg str_help then Exits 0 Help
        else Exits 1 (Perror arg)
      else
        read_letters (tail arg) (head rest) cfg ≫= fun read : config * bool =>
        let cfg := fst read in
        if snd read then
          match rest with
          | [] => Returns cfg
          | _ :: rest => read_args rest cfg
          end
        else read_args rest cfg
  end.

(** [read_command_line]; [stat] is what [get_column_width] finds in
    the file system. *)
Definition read_command_line (stat : stat_fn) (argv : list cstring) : result config :=
  cfg ← read_args (tail argv) zero_config;
  let cfg := if file_count cfg =? 0 then set_is_stdin cfg 1 else cfg in
  let cfg :=
    if (is_counting_lines cfg =? 0)%Z && (is_counting_words cfg =? 0)%Z
       && (is_counting_bytes cfg =? 0)%Z && (is_counting_chars cfg =? 0)%Z
    then set_is_counting_bytes
           (set_is_counting_words (set_is_counting_lines cfg 1) 1) 1
    else cfg in
  cfg ←
    (if column_width cfg =? 0 then
       if 0 <? file_count cfg then
         match get_column_width stat argv (is_stdin cfg) with
         | Some width => Returns (set_column_width cfg width)
         | None => Undefined
         end
       else Returns (set_column_width cfg 1)
     else Returns cfg);
  let cfg :=
    if (1 <? file_count cfg) || (negb (file_count cfg =? 0) && negb (is_stdin cfg =? 0)%Z)
    then set_is_printing_totals cfg 1
    else cfg in
  Returns cfg.

(** What the loops over the arguments keep of a configuration: the
    counters are not negative, [-c] and [-m] are not both set, and the
    totals are not yet asked for. *)
Definition config_ok (cfg : config) : Prop :=
  (0 <= is_counting_lines cfg)%Z /\ (0 <= is_counting_words cfg)%Z
  /\ (0 <= is_counting_bytes cfg)%Z /\ (0 <= is_counting_chars cfg)%Z
  /\ (0 <= is_pointer_arithmetic cfg)%Z
  /\ (is_counting_bytes cfg = 0%Z \/ is_counting_chars cfg = 0%Z)
  /\ (is_stdin cfg = 0%Z \/ is_stdin cfg = 1%Z)
  /\ is_printing_totals cfg = 0%Z.

(** The arguments that [main] opens: those that do not begin with a
    dash. *)
Definition named_files (argv : list cstring) : list cstring :=
  List.filter (fun arg => negb (char_at arg 0 =? 45)) (tail argv).

(** Arguments among which every option is a dash followed by letters
    other than [W]: no [--], and no [-W] that could take the argument
    after it. *)
Definition plain_options (args : list cstring) : bool :=
  forallb (fun arg =>
             negb (char_at arg 0 =? 45)
             || (negb (char_at arg 1 =? 45)
                 && forallb (fun b => negb (Byte.to_N b =? 87)) (tail arg))) args.

(** ** The program *)



Section Main.

(** The surroundings of a run: the locale, the address at which
    [table_p] stands, what [stat] and [fopen(name, "rb")] find in the
    file system, the standard input, whether [freopen] succeeds on it,
    and what the stack holds where the chunk processors keep their
    tallies. *)
Variable isspace : N -> bool.
Variable iswspace : N -> bool.
Variable base : N.
Variable stat : stat_fn.
Variable fopen : cstring -> option stream.
Variable stdin : stream.
Variable freopen_ok : bool.
Variable junk : nat -> N -> N.










End Main.


(** The sum of a list of numbers. *)
Definition sum_of (l : list N) : N := foldr N.add 0 l.

(** * Properties *)

(** ** Loops *)

Lemma for_loop_inv {S : Type} (P : S -> Prop) (body : N -> S -> S) :
  (forall i s, P s -> P (body i s)) ->
  forall n i s, P s -> P (for_loop n i body s).
Proof.
  intros Hbody n. induction n as [|n IH]; intros i s Hs; simpl; auto.
Qed.

Lemma for_range_inv {S : Type} (P : S -> Prop) (body : N -> S -> S) lo hi s :
  (forall i s, P s -> P (body i s)) -> P s -> P (for_range lo hi body s).
Proof. intros Hbody Hs. unfold for_range. now apply for_loop_inv. Qed.

Lemma for_loop_ext {S : Type} (f g : N -> S -> S) :
  (forall i s, f i s = g i s) ->
  forall n i s, for_loop n i f s = for_loop n i g s.
Proof.
  intros Hfg n. induction n as [|n IH]; intros i s; simpl; [done|].
  now rewrite Hfg, IH.
Qed.

Lemma for_range_ext {S : Type} (f g : N -> S -> S) lo hi s :
  (forall i s, f i s = g i s) -> for_range lo hi f s = for_range lo hi g s.
Proof. intros Hfg. unfold for_range. now apply for_loop_ext. Qed.

Lemma for_loop_snoc {S : Type} (body : N -> S -> S) n i s :
  for_loop (Datatypes.S n) i body s
  = body (i + N.of_nat n) (for_loop n i body s).
Proof.
  revert i s. induction n as [|n IH]; intros i s.
  - simpl. now rewrite N.add_0_r.
  - change (for_loop (Datatypes.S (Datatypes.S n)) i body s)
      with (for_loop (Datatypes.S n) (i + 1) body (body i s)).
    rewrite IH. simpl. f_equal. lia.
Qed.

(** ** The loop bodies, branch by branch *)

Lemma build_basic_branches_store isspace default_state ubase c row :
  build_basic_branches isspace default_state ubase c row
  = row_store row c (basic_state isspace default_state ubase c).
Proof.
  unfold build_basic_branches, basic_state.
  repeat match goal with
         | |- context [if ?b then _ else _] => destruct b
         end; reflexivity.
Qed.

Lemma build_basic_branches_loop isspace row default_state ubase :
  build_basic isspace row default_state ubase
  = for_range 0 256 (build_basic_branches isspace default_state ubase) row.
Proof.
  unfold build_basic. apply for_range_ext. intros c r.
  symmetry. apply build_basic_branches_store.
Qed.

Lemma ascii_branches_loop isspace iswspace t :
  compile_utf8_statemachine isspace iswspace false t
  = for_range 0 256 (ascii_branches isspace) t.
Proof.
  unfold compile_utf8_statemachine. apply for_range_ext. intros c r.
  unfold ascii_branches. destruct (c =? 10); [reflexivity|].
  destruct (isspace c); reflexivity.
Qed.

Lemma store_if_branch b t s c v :
  store_if b t s c v = if b then store t s c v else t.
Proof.
  unfold store_if, store, row_store. destruct b.
  - apply list_alter_ext; [|reflexivity..]. intros row _.
    generalize (N.to_nat c) as i. induction row as [|a row IH]; intros [|i];
      simpl; try reflexivity. f_equal. apply IH.
  - transitivity (alter (fun row : list N => row) (N.to_nat s) t);
      [|apply list_alter_id; reflexivity].
    apply list_alter_ext; [|reflexivity..]. intros row _.
    apply list_alter_id. reflexivity.
Qed.

(** ** Machine integers *)

Lemma to_uchar_mod v : to_uchar v = v mod 256.
Proof. unfold to_uchar. change 0xFF with (N.ones 8). apply N.land_ones. Qed.

Lemma to_uchar_small v : v < 256 -> to_uchar v = v.
Proof. intros H. rewrite to_uchar_mod. now apply N.mod_small. Qed.

Lemma to_uchar_lt v : to_uchar v < 256.
Proof. rewrite to_uchar_mod. now apply N.mod_lt. Qed.

Lemma wrap32_small v : v < 2 ^ 32 -> wrap32 v = v.
Proof. intros H. unfold wrap32. now apply N.mod_small. Qed.

Lemma wrap64_small v : v < 2 ^ 64 -> wrap64 v = v.
Proof. intros H. unfold wrap64. now apply N.mod_small. Qed.

Lemma byte_lt (b : Byte.byte) : Byte.to_N b < 256.
Proof. pose proof (Byte.to_N_bounded b). lia. Qed.

(** ** Reads and stores *)

Lemma load_Some t s c v :
  load t s c = Some v <->
  exists row, t !! N.to_nat s = Some row /\ row !! N.to_nat c = Some v.
Proof.
  unfold load. destruct (t !! N.to_nat s) as [row|]; simpl; split.
  - intros H. eauto.
  - intros (row' & [= <-] & H). done.
  - done.
  - intros (row' & [=] & _).
Qed.

Lemma table_ok_load t s c :
  table_ok t -> s < 256 -> c < 256 ->
  exists v, load t s c = Some v /\ v < STATE_MAX.
Proof.
  intros [Hlen Hrows] Hs Hc.
  destruct (lookup_lt_is_Some_2 t (N.to_nat s)) as [row Hrow]; [lia|].
  pose proof (Forall_lookup_1 _ _ _ _ Hrows Hrow) as [Hrl Hcells].
  destruct (lookup_lt_is_Some_2 row (N.to_nat c)) as [v Hv]; [lia|].
  exists v. split.
  - apply load_Some. eauto.
  - exact (Forall_lookup_1 _ _ _ _ Hcells Hv).
Qed.

Lemma table_ok_entry t s c :
  table_ok t -> s < 256 -> c < 256 ->
  load t s c = Some (entry t s c) /\ entry t s c < STATE_MAX.
Proof.
  intros Ht Hs Hc. destruct (table_ok_load t s c Ht Hs Hc) as (v & Hv & Hlt).
  unfold entry. rewrite Hv. simpl. done.
Qed.

Lemma entry_lt t s c : table_ok t -> entry t s c < STATE_MAX.
Proof.
  intros [Hlen Hrows]. unfold entry, load.
  destruct (t !! N.to_nat s) as [row|] eqn:Hrow; simpl; [|done].
  destruct (row !! N.to_nat c) as [v|] eqn:Hv; simpl; [|done].
  pose proof (Forall_lookup_1 _ _ _ _ Hrows Hrow) as [_ Hcells].
  exact (Forall_lookup_1 _ _ _ _ Hcells Hv).
Qed.

Lemma row_store_ok row c v : to_uchar v < STATE_MAX -> row_ok row -> row_ok (row_store row c v).
Proof.
  intros Hv [Hlen Hcells]. unfold row_store. split.
  - now rewrite length_insert.
  - now apply Forall_insert.
Qed.

Lemma on_row_ok s f t :
  (forall row, row_ok row -> row_ok (f row)) -> table_ok t -> table_ok (on_row s f t).
Proof.
  intros Hf [Hlen Hrows]. unfold on_row. split.
  - now rewrite length_alter.
  - apply Forall_alter; [done|]. intros row _. apply Hf.
Qed.

Lemma store_ok t s c v : to_uchar v < STATE_MAX -> table_ok t -> table_ok (store t s c v).
Proof.
  intros Hv. apply (on_row_ok s). intros row. now apply row_store_ok.
Qed.

Lemma memcpy_row_ok t dst src : table_ok t -> table_ok (memcpy_row t dst src).
Proof.
  intros [Hlen Hrows]. unfold memcpy_row.
  destruct (t !! N.to_nat src) as [row|] eqn:Hrow; [|done]. split.
  - now rewrite length_insert.
  - apply Forall_insert; [done|]. exact (Forall_lookup_1 _ _ _ _ Hrows Hrow).
Qed.

Lemma table_init_ok : table_ok table_init.
Proof.
  split; [reflexivity|]. apply Forall_replicate. split; [reflexivity|].
  apply Forall_replicate. reflexivity.
Qed.

(** ** The builder keeps every cell below [STATE_MAX] *)

Section BuilderBounds.

Variable isspace : N -> bool.
Variable iswspace : N -> bool.

Lemma uchar_state ubase k :
  ubase <= UWORD -> k <= ILLEGAL -> to_uchar (ubase + k) < STATE_MAX.
Proof.
  change UWORD with 35. change ILLEGAL with 30. change STATE_MAX with 66.
  intros Hu Hk. rewrite to_uchar_small; lia.
Qed.

Lemma uchar_base v : v < STATE_MAX -> to_uchar v < STATE_MAX.
Proof. change STATE_MAX with 66. intros H. rewrite to_uchar_small; lia. Qed.

Lemma basic_state_lt default_state ubase c :
  default_state < STATE_MAX -> ubase <= UWORD ->
  to_uchar (basic_state isspace default_state ubase c) < STATE_MAX.
Proof.
  intros Hd Hu. unfold basic_state.
  repeat lazymatch goal with
    | |- context [if ?b then _ else _] => destruct b
    end;
    first [ apply uchar_state; [assumption | vm_compute; discriminate]
          | apply uchar_base; first [assumption | reflexivity] ].
Qed.

Lemma build_basic_ok row default_state ubase :
  default_state < STATE_MAX -> ubase <= UWORD ->
  row_ok row -> row_ok (build_basic isspace row default_state ubase).
Proof.
  intros Hd Hu. unfold build_basic. apply (for_range_inv row_ok). intros c r Hr.
  apply row_store_ok; [|assumption]. now apply basic_state_lt.
Qed.

Lemma build_WASSPACE_ok row : row_ok row -> row_ok (build_WASSPACE isspace row).
Proof.
  intros Hr. unfold build_WASSPACE.
  apply build_basic_ok; [reflexivity | vm_compute; discriminate | assumption].
Qed.

Lemma build_WASWORD_ok row : row_ok row -> row_ok (build_WASWORD isspace row).
Proof.
  intros Hr. unfold build_WASWORD.
  apply build_basic_ok; [reflexivity | vm_compute; discriminate | assumption].
Qed.

Lemma build_urow_ok ubase id next t :
  ubase <= UWORD -> next <= ILLEGAL ->
  table_ok t -> table_ok (build_urow ubase id next t).
Proof.
  intros Hu Hn Ht. unfold build_urow.
  apply (for_range_inv table_ok).
  { intros i t' Ht'. apply store_ok; [|assumption]. apply uchar_state; [assumption|reflexivity]. }
  apply (for_range_inv table_ok).
  { intros i t' Ht'. apply store_ok; [|assumption].
    destruct (next =? 0).
    - apply uchar_base. now apply entry_lt.
    - now apply uchar_state. }
  now apply memcpy_row_ok.
Qed.

Lemma store_if_ok b t s c v :
  to_uchar v < STATE_MAX -> table_ok t -> table_ok (store_if b t s c v).
Proof.
  intros Hv [Hlen Hrows]. unfold store_if. split.
  - now rewrite length_alter.
  - apply Forall_alter; [assumption|]. intros row _ [Hrl Hcells]. split.
    + now rewrite length_alter.
    + apply Forall_alter; [assumption|]. intros old _ Hold. now destruct b.
Qed.

Ltac table_ok_step :=
  lazymatch goal with
  | |- table_ok (for_range _ _ _ _) =>
      apply (for_range_inv table_ok); [intros ? ? ?|]
  | |- table_ok (store_if _ _ _ _ _) => apply store_if_ok; [reflexivity|]
  | |- table_ok (store _ _ _ _) =>
      apply store_ok; [apply uchar_state; [assumption | vm_compute; discriminate]|]
  | |- table_ok (build_urow _ _ _ _) =>
      apply build_urow_ok; [assumption | vm_compute; discriminate |]
  | |- table_ok (on_row _ (build_WASSPACE _) _) =>
      apply on_row_ok; [apply build_WASSPACE_ok|]
  | |- table_ok (on_row _ (build_WASWORD _) _) =>
      apply on_row_ok; [apply build_WASWORD_ok|]
  | |- table_ok (on_row _ _ _) =>
      apply on_row_ok; [intros ? ?; now apply build_basic_ok|]
  end.

Lemma build_unicode_ok default_state ubase t :
  default_state < STATE_MAX -> ubase <= UWORD ->
  table_ok t -> table_ok (build_unicode isspace iswspace default_state ubase t).
Proof.
  intros Hd Hu Ht. unfold build_unicode. repeat table_ok_step; assumption.
Qed.

Lemma ascii_cell_lt (b1 b2 : bool) v :
  v < 4 -> to_uchar (if b1 then NEWLINE else if b2 then WASSPACE else v) < STATE_MAX.
Proof.
  intros Hv. apply uchar_base. change STATE_MAX with 66.
  destruct b1; [reflexivity|]. destruct b2; [reflexivity|]. lia.
Qed.

Lemma compile_utf8_statemachine_ok is_multibyte t :
  table_ok t -> table_ok (compile_utf8_statemachine isspace iswspace is_multibyte t).
Proof.
  intros Ht. destruct is_multibyte.
  - unfold compile_utf8_statemachine.
    apply build_unicode_ok; [reflexivity | vm_compute; discriminate |].
    apply build_unicode_ok; [reflexivity | vm_compute; discriminate |].
    repeat table_ok_step; assumption.
  - unfold compile_utf8_statemachine.
    apply (for_range_inv table_ok); [|assumption]. intros c t' Ht'.
    repeat (apply store_ok; [apply ascii_cell_lt; reflexivity|]). assumption.
Qed.

Lemma the_table_ok is_multibyte : table_ok (the_table isspace iswspace is_multibyte).
Proof. apply compile_utf8_statemachine_ok, table_init_ok. Qed.

End BuilderBounds.

(** ** The inner loop against the reference run *)

Lemma last_cons (x d : N) l : List.last (x :: l) d = List.last l x.
Proof.
  revert x d. induction l as [|y l IH]; intros x d; [reflexivity|].
  change (List.last (x :: y :: l) d) with (List.last (y :: l) d).
  now rewrite !IH.
Qed.

Lemma final_cons st s trace : final st (s :: trace) = final s trace.
Proof. apply last_cons. Qed.

Lemma final_app st tr1 tr2 : final st (tr1 ++ tr2) = final (final st tr1) tr2.
Proof.
  revert st. induction tr1 as [|s tr1 IH]; intros st; [reflexivity|].
  change ((s :: tr1) ++ tr2) with (s :: (tr1 ++ tr2)).
  rewrite !final_cons. apply IH.
Qed.

Lemma run_app t st b1 b2 :
  run t st (b1 ++ b2) = run t st b1 ++ run t (final st (run t st b1)) b2.
Proof.
  revert st. induction b1 as [|b b1 IH]; intros st; [reflexivity|].
  simpl. rewrite final_cons. f_equal. apply IH.
Qed.

Lemma run_cons t st b buf :
  run t st (b :: buf)
  = entry t st (Byte.to_N b) :: run t (entry t st (Byte.to_N b)) buf.
Proof. reflexivity. Qed.

Lemma length_run t st buf : length (run t st buf) = length buf.
Proof. revert st. induction buf as [|b buf IH]; intros st; simpl; [done|]. now rewrite IH. Qed.

Lemma run_lt t st buf : table_ok t -> Forall (fun s => s < STATE_MAX) (run t st buf).
Proof.
  intros Ht. revert st. induction buf as [|b buf IH]; intros st; simpl; constructor.
  - now apply entry_lt.
  - apply IH.
Qed.

Lemma final_lt t st buf :
  table_ok t -> st < STATE_MAX -> final st (run t st buf) < STATE_MAX.
Proof.
  intros Ht. revert st. induction buf as [|b buf IH]; intros st Hst; simpl; [done|].
  rewrite final_cons. apply IH. now apply entry_lt.
Qed.

Lemma landings_nil s : landings s [] = 0.
Proof. reflexivity. Qed.

Lemma landings_cons s x trace :
  landings s (x :: trace) = (if decide (x = s) then 1 else 0) + landings s trace.
Proof.
  unfold landings. simpl. destruct (N.eq_dec x s) as [->|Hne].
  - rewrite decide_True by done. lia.
  - rewrite decide_False by done. lia.
Qed.

Lemma landings_app s tr1 tr2 :
  landings s (tr1 ++ tr2) = landings s tr1 + landings s tr2.
Proof. unfold landings. rewrite count_occ_app. lia. Qed.

Lemma landings_four trace :
  landings NEWLINE trace + landings WASSPACE trace
  + landings WASWORD trace + landings NEWWORD trace <= N.of_nat (length trace).
Proof.
  induction trace as [|x trace IH]; [reflexivity|].
  rewrite !landings_cons. simpl length.
  unfold NEWLINE, WASSPACE, WASWORD, NEWWORD in *.
  repeat case_decide; subst; try discriminate; lia.
Qed.

Lemma landings_le s trace : landings s trace <= N.of_nat (length trace).
Proof.
  induction trace as [|x trace IH]; [reflexivity|].
  rewrite landings_cons. simpl length. case_decide; lia.
Qed.

Lemma bump_Some wrap counts s :
  (N.to_nat s < length counts)%nat ->
  bump wrap counts s = Some (<[N.to_nat s := wrap (cell counts s + 1)]> counts).
Proof.
  intros Hs. unfold bump, cell.
  destruct (lookup_lt_is_Some_2 counts (N.to_nat s) Hs) as [n Hn].
  rewrite Hn. reflexivity.
Qed.

Lemma length_tally wrap counts trace : length (tally wrap counts trace) = length counts.
Proof.
  revert counts. induction trace as [|s trace IH]; intros counts; simpl; [done|].
  rewrite IH. apply length_insert.
Qed.

Lemma cell_tally wrap counts trace s :
  (forall a b, wrap (wrap a + b) = wrap (a + b)) ->
  (N.to_nat s < length counts)%nat ->
  wrap (cell counts s) = cell counts s ->
  cell (tally wrap counts trace) s = wrap (cell counts s + landings s trace).
Proof.
  intros Hw. revert counts. induction trace as [|x trace IH]; intros counts Hs Hc.
  - simpl. rewrite landings_nil, N.add_0_r. now symmetry.
  - simpl. rewrite landings_cons.
    assert (Hwi : forall a, wrap (wrap a) = wrap a).
    { intros a. pose proof (Hw a 0) as Ha. now rewrite !N.add_0_r in Ha. }
    case_decide as Hx.
    + subst x.
      assert (Hcell : cell (<[N.to_nat s := wrap (cell counts s + 1)]> counts) s
                      = wrap (cell counts s + 1)).
      { unfold cell at 1. rewrite list_lookup_insert_eq by done. reflexivity. }
      rewrite IH.
      * rewrite Hcell, Hw. f_equal. lia.
      * now rewrite length_insert.
      * rewrite Hcell. apply Hwi.
    + assert (Hcell : cell (<[N.to_nat x := wrap (cell counts x + 1)]> counts) s
                      = cell counts s).
      { unfold cell at 1 3. rewrite list_lookup_insert_ne; [done|]. lia. }
      rewrite IH.
      * rewrite Hcell. f_equal.
      * now rewrite length_insert.
      * now rewrite Hcell.
Qed.

Lemma walk_run t buf st counts :
  table_ok t -> st < 256 -> length counts = N.to_nat STATE_MAX ->
  walk t buf st counts
  = Some (final st (run t st buf), tally wrap32 counts (run t st buf)).
Proof.
  intros Ht. revert st counts.
  induction buf as [|b buf IH]; intros st counts Hst Hlen; [reflexivity|].
  simpl. rewrite final_cons.
  destruct (table_ok_entry t st (Byte.to_N b) Ht Hst (byte_lt b)) as [Hload Hlt].
  rewrite Hload. simpl.
  rewrite bump_Some by (rewrite Hlen; lia). simpl.
  apply IH.
  - change STATE_MAX with 66 in Hlt. lia.
  - now rewrite length_insert.
Qed.

(** The indexed loop of [parse_chunk] reads the buffer as the pointer
    loop of [parse_chunk_p] does. *)
Lemma for_loop_None {A : Type} (body : N -> option A -> option A) :
  (forall i, body i None = None) ->
  forall n i, for_loop n i body None = None.
Proof.
  intros Hbody n. induction n as [|n IH]; intros i; simpl; [done|].
  now rewrite Hbody.
Qed.

Lemma index_loop_walk t (pre suf : list Byte.byte) state counts :
  for_loop (length suf) (N.of_nat (length pre))
    (fun i acc =>
       '(state, counts) ← acc;
       c ← Byte.to_N <$> (pre ++ suf) !! N.to_nat i;
       state ← load t state c;
       counts ← bump wrap32 counts state;
       Some (state, counts)) (Some (state, counts))
  = walk t suf state counts.
Proof.
  revert pre state counts.
  induction suf as [|b suf IH]; intros pre state counts; [reflexivity|].
  simpl for_loop. simpl walk.
  rewrite Nat2N.id, list_lookup_middle by done. simpl.
  destruct (load t state (Byte.to_N b)) as [state'|]; simpl;
    [|now apply for_loop_None].
  destruct (bump wrap32 counts state') as [counts'|]; simpl;
    [|now apply for_loop_None].
  replace (pre ++ b :: suf) with ((pre ++ [b]) ++ suf) by now rewrite <- app_assoc.
  replace (N.of_nat (length pre) + 1) with (N.of_nat (length (pre ++ [b])))
    by (rewrite length_app; simpl; lia).
  apply IH.
Qed.

Lemma parse_chunk_walk t junk buf inout_state :
  parse_chunk t junk buf inout_state
  = ('(state, counts) ← walk t buf inout_state (zero_counts (alloc_counts wrap32 junk));
     Some (make_results wrap32 counts (N.of_nat (length buf)), wrap32 state)).
Proof.
  unfold parse_chunk, for_range.
  rewrite N.sub_0_r, Nat2N.id.
  now rewrite (index_loop_walk t [] buf).
Qed.

(** [parse_chunk_p] is [parse_chunk] with the buffer walked by a
    pointer: the two functions agree on every argument, whatever the
    table holds. *)
Lemma parse_chunk_p_eq t junk buf inout_state :
  parse_chunk_p t junk buf inout_state = parse_chunk t junk buf inout_state.
Proof. rewrite parse_chunk_walk. reflexivity. Qed.

(** The tallies as allocated and zeroed. *)
Lemma length_alloc_counts wrap junk :
  length (alloc_counts wrap junk) = N.to_nat STATE_MAX.
Proof. unfold alloc_counts. now rewrite length_fmap, length_seq. Qed.

Lemma length_zero_counts counts : length (zero_counts counts) = length counts.
Proof. unfold zero_counts. now rewrite !length_insert. Qed.

Lemma cell_zero_counts counts s :
  length counts = N.to_nat STATE_MAX -> s < 4 -> cell (zero_counts counts) s = 0.
Proof.
  intros Hlen Hs. unfold cell, zero_counts.
  change (N.to_nat WASWORD) with 3%nat. change (N.to_nat WASSPACE) with 0%nat.
  change (N.to_nat NEWWORD) with 2%nat. change (N.to_nat NEWLINE) with 1%nat.
  change (N.to_nat STATE_MAX) with 66%nat in Hlen.
  assert (Hcase : s = 0 \/ s = 1 \/ s = 2 \/ s = 3) by lia.
  destruct Hcase as [-> | [-> | [-> | ->]]]; simpl N.to_nat;
    repeat first
      [ rewrite list_lookup_insert_eq by (rewrite ?length_insert; lia)
      | rewrite list_lookup_insert_ne by (simpl; lia) ];
    reflexivity.
Qed.

Lemma wrap32_add a b : wrap32 (wrap32 a + b) = wrap32 (a + b).
Proof. unfold wrap32. now rewrite N.Div0.add_mod_idemp_l. Qed.

Lemma wrap64_add a b : wrap64 (wrap64 a + b) = wrap64 (a + b).
Proof. unfold wrap64. now rewrite N.Div0.add_mod_idemp_l. Qed.

Lemma mod_sum4 M a b c d :
  (((a mod M + b mod M) mod M + c mod M) mod M + d mod M) mod M
  = (a + b + c + d) mod M.
Proof.
  rewrite N.Div0.add_mod_idemp_l, N.Div0.add_mod_idemp_r.
  rewrite <- (N.add_assoc _ (c mod M) d), N.Div0.add_mod_idemp_l.
  rewrite (N.add_comm (c mod M) d), N.add_assoc, N.Div0.add_mod_idemp_r.
  rewrite <- (N.add_assoc _ (b mod M) d), <- (N.add_assoc _ (b mod M + d) c).
  rewrite N.Div0.add_mod_idemp_l.
  rewrite <- (N.add_assoc (b mod M) d c), N.add_assoc.
  rewrite (N.add_comm a (b mod M)), <- (N.add_assoc (b mod M) a).
  rewrite N.Div0.add_mod_idemp_l. f_equal. lia.
Qed.

Lemma wrap32_sum4 a b c d :
  wrap32 (wrap32 (wrap32 (wrap32 a + wrap32 b) + wrap32 c) + wrap32 d)
  = wrap32 (a + b + c + d).
Proof. apply mod_sum4. Qed.

Lemma wrap64_sum4 a b c d :
  wrap64 (wrap64 (wrap64 (wrap64 a + wrap64 b) + wrap64 c) + wrap64 d)
  = wrap64 (a + b + c + d).
Proof. apply mod_sum4. Qed.

Lemma make_results_tally wrap junk trace len :
  (forall a b, wrap (wrap a + b) = wrap (a + b)) ->
  (forall a b c d,
     wrap (wrap (wrap (wrap a + wrap b) + wrap c) + wrap d) = wrap (a + b + c + d)) ->
  wrap 0 = 0 ->
  make_results wrap (tally wrap (zero_counts (alloc_counts wrap junk)) trace) len
  = results_of wrap trace len.
Proof.
  intros Hw Hsum H0.
  assert (Hlen : length (alloc_counts wrap junk) = N.to_nat STATE_MAX)
    by apply length_alloc_counts.
  assert (Hcell : forall s, s < 4 ->
    cell (tally wrap (zero_counts (alloc_counts wrap junk)) trace) s
    = wrap (landings s trace)).
  { intros s Hs. rewrite cell_tally.
    - now rewrite cell_zero_counts.
    - exact Hw.
    - rewrite length_zero_counts, Hlen. change (N.to_nat STATE_MAX) with 66%nat. lia.
    - now rewrite cell_zero_counts. }
  unfold make_results, results_of.
  rewrite !Hcell by reflexivity.
  now rewrite Hsum.
Qed.

Lemma parse_chunk_run t junk buf st :
  table_ok t -> st < 256 ->
  parse_chunk t junk buf st
  = Some (results_of wrap32 (run t st buf) (N.of_nat (length buf)),
          wrap32 (final st (run t st buf))).
Proof.
  intros Ht Hst. rewrite parse_chunk_walk.
  rewrite walk_run; [|assumption..|].
  - simpl. rewrite make_results_tally;
      [reflexivity | apply wrap32_add | apply wrap32_sum4 | reflexivity].
  - now rewrite length_zero_counts, length_alloc_counts.
Qed.

(** ** Cells after a store *)

Lemma entry_store t s c v s' c' :
  table_ok t -> s < 256 -> c < 256 ->
  entry (store t s c v) s' c'
  = if (s' =? s) && (c' =? c) then to_uchar v else entry t s' c'.
Proof.
  intros [Hlen Hrows] Hs Hc. unfold entry, load, store.
  destruct (N.eqb_spec s' s) as [->|Hne]; simpl.
  - destruct (lookup_lt_is_Some_2 t (N.to_nat s)) as [row Hrow]; [lia|].
    pose proof (Forall_lookup_1 _ _ _ _ Hrows Hrow) as [Hrl _].
    rewrite list_lookup_alter_eq, Hrow. simpl. unfold row_store.
    destruct (N.eqb_spec c' c) as [->|Hnc].
    + rewrite list_lookup_insert_eq by lia. reflexivity.
    + rewrite list_lookup_insert_ne by lia. reflexivity.
  - rewrite list_lookup_alter_ne by lia. reflexivity.
Qed.

Lemma row_loop_lookup (f : N -> N) n i (row : list N) k :
  (N.to_nat i + n <= length row)%nat ->
  for_loop n i (fun c row => row_store row c (f c)) row !! N.to_nat k
  = if (i <=? k) && (k <? i + N.of_nat n) then Some (to_uchar (f k))
    else row !! N.to_nat k.
Proof.
  revert i row. induction n as [|n IH]; intros i row Hlen.
  - simpl for_loop. change (N.of_nat 0) with 0. rewrite N.add_0_r.
    destruct (N.leb_spec i k), (N.ltb_spec k i); simpl; try reflexivity; lia.
  - simpl for_loop. rewrite IH.
    2:{ unfold row_store. rewrite length_insert. lia. }
    unfold row_store.
    destruct (N.leb_spec (i + 1) k), (N.ltb_spec k (i + 1 + N.of_nat n)),
      (N.leb_spec i k), (N.ltb_spec k (i + N.of_nat (Datatypes.S n)));
      simpl; try reflexivity; try lia.
    + rewrite list_lookup_insert_ne by lia. reflexivity.
    + assert (k = i) as -> by lia. rewrite list_lookup_insert_eq by lia. reflexivity.
    + rewrite list_lookup_insert_ne by lia. reflexivity.
Qed.

(** Reading a statement about a range of bytes off a boolean check. *)
Lemma forallb_range (f : N -> bool) (lo n : nat) :
  forallb f (N.of_nat <$> seq lo n) = true ->
  forall c, N.of_nat lo <= c < N.of_nat (lo + n) -> f c = true.
Proof.
  intros Hall c Hc. rewrite forallb_forall in Hall. apply Hall.
  apply list_elem_of_In, list_elem_of_fmap. exists (N.to_nat c). split; [lia|].
  apply elem_of_seq. lia.
Qed.

Lemma land_0x80_ascii c : c < 128 -> N.land c 0x80 = 0.
Proof.
  intros Hc.
  pose proof (forallb_range (fun c => N.land c 0x80 =? 0) 0 128 eq_refl c) as H.
  apply N.eqb_eq, H. simpl. lia.
Qed.

(** ** What the built tables hold *)

Section TableFacts.

Variable isspace : N -> bool.
Variable iswspace : N -> bool.

Lemma ascii_next_lt s c : ascii_next isspace s c < 4.
Proof.
  unfold ascii_next.
  destruct (c =? 10); [reflexivity|]. destruct (isspace c); [reflexivity|].
  destruct ((s =? WASSPACE) || (s =? NEWLINE)); reflexivity.
Qed.

Lemma to_uchar_ascii_cell (b1 b2 : bool) v :
  v < 4 -> to_uchar (if b1 then NEWLINE else if b2 then WASSPACE else v)
           = if b1 then NEWLINE else if b2 then WASSPACE else v.
Proof.
  intros Hv. apply to_uchar_small.
  destruct b1; [reflexivity|]. destruct b2; [reflexivity|]. lia.
Qed.

Lemma ascii_body_ok c t : table_ok t -> table_ok (ascii_body isspace c t).
Proof.
  intros Ht. unfold ascii_body.
  repeat (apply store_ok; [apply ascii_cell_lt; reflexivity|]). assumption.
Qed.

Lemma entry_ascii_body i t s c :
  table_ok t -> i < 256 -> s < 4 ->
  entry (ascii_body isspace i t) s c = if c =? i then ascii_next isspace s i else entry t s c.
Proof.
  intros Ht Hi Hs. unfold ascii_body. cbv zeta.
  rewrite !entry_store;
    try (repeat (apply store_ok; [apply ascii_cell_lt; reflexivity|]); assumption);
    try assumption; try reflexivity.
  rewrite !to_uchar_ascii_cell by reflexivity.
  unfold ascii_next.
  assert (Hcase : s = 0 \/ s = 1 \/ s = 2 \/ s = 3) by lia.
  destruct (c =? i); [|now rewrite !andb_false_r].
  destruct Hcase as [-> | [-> | [-> | ->]]]; reflexivity.
Qed.

Lemma entry_ascii_loop n i t s c :
  table_ok t -> (N.to_nat i + n <= 256)%nat -> s < 4 ->
  entry (for_loop n i (ascii_body isspace) t) s c
  = if (i <=? c) && (c <? i + N.of_nat n) then ascii_next isspace s c else entry t s c.
Proof.
  revert i t. induction n as [|n IH]; intros i t Ht Hn Hs.
  - simpl for_loop. change (N.of_nat 0) with 0. rewrite N.add_0_r.
    destruct (N.leb_spec i c), (N.ltb_spec c i); simpl; try reflexivity; lia.
  - simpl for_loop. rewrite IH; [|now apply ascii_body_ok|lia|assumption].
    rewrite entry_ascii_body by (try assumption; lia).
    destruct (N.leb_spec (i + 1) c), (N.ltb_spec c (i + 1 + N.of_nat n)),
      (N.leb_spec i c), (N.ltb_spec c (i + N.of_nat (Datatypes.S n))),
      (N.eqb_spec c i); simpl; subst; try reflexivity; lia.
Qed.

(** The table of the ASCII mode is the four-state automaton on its
    first four rows. *)
Lemma entry_ascii_table s c :
  s < 4 -> c < 256 ->
  entry (the_table isspace iswspace false) s c = ascii_next isspace s c.
Proof.
  intros Hs Hc.
  change (the_table isspace iswspace false)
    with (for_loop (N.to_nat (256 - 0)) 0 (ascii_body isspace) table_init).
  rewrite entry_ascii_loop; [|apply table_init_ok|vm_compute; lia|assumption].
  destruct (N.leb_spec 0 c), (N.ltb_spec c (0 + N.of_nat (N.to_nat (256 - 0))));
    simpl; try reflexivity; try lia.
Qed.

End TableFacts.

(** ** The table of the multibyte mode *)

Lemma cells_all_spec t f slo sn blo bn :
  cells_all t f (bytes_from slo sn) (bytes_from blo bn) = true ->
  forall s c, N.of_nat slo <= s < N.of_nat (slo + sn) ->
              N.of_nat blo <= c < N.of_nat (blo + bn) ->
              f s c (entry t s c) = true.
Proof.
  intros Hall s c Hs Hc. unfold cells_all, bytes_from in Hall.
  pose proof (forallb_range _ _ _ Hall s Hs) as Hrow. simpl in Hrow.
  exact (forallb_range _ _ _ Hrow c Hc).
Qed.

Section MultibyteFacts.

Variable isspace : N -> bool.
Variable iswspace : N -> bool.

Let T := the_table isspace iswspace true.

Lemma row_WASSPACE :
  T !! N.to_nat WASSPACE = Some (build_basic isspace (replicate 256 0) NEWWORD USPACE).
Proof. vm_compute. reflexivity. Qed.

Lemma row_NEWLINE :
  T !! N.to_nat NEWLINE = Some (build_basic isspace (replicate 256 0) NEWWORD USPACE).
Proof. vm_compute. reflexivity. Qed.

Lemma row_NEWWORD :
  T !! N.to_nat NEWWORD = Some (build_basic isspace (replicate 256 0) WASWORD UWORD).
Proof. vm_compute. reflexivity. Qed.

Lemma row_WASWORD :
  T !! N.to_nat WASWORD = Some (build_basic isspace (replicate 256 0) WASWORD UWORD).
Proof. vm_compute. reflexivity. Qed.

Lemma row_USPACE_ILLEGAL :
  T !! N.to_nat (USPACE + ILLEGAL)
  = Some (build_basic isspace (replicate 256 0) NEWWORD USPACE).
Proof. vm_compute. reflexivity. Qed.

Lemma row_UWORD_ILLEGAL :
  T !! N.to_nat (UWORD + ILLEGAL)
  = Some (build_basic isspace (replicate 256 0) WASWORD UWORD).
Proof. vm_compute. reflexivity. Qed.

Lemma build_basic_lookup row default_state ubase c :
  length row = 256%nat -> c < 256 ->
  build_basic isspace row default_state ubase !! N.to_nat c
  = Some (to_uchar (basic_state isspace default_state ubase c)).
Proof.
  intros Hlen Hc. unfold build_basic, for_range.
  rewrite (row_loop_lookup (basic_state isspace default_state ubase)).
  - destruct (N.leb_spec 0 c), (N.ltb_spec c (0 + N.of_nat (N.to_nat (256 - 0))));
      simpl; try reflexivity; try lia.
  - rewrite Hlen. vm_compute. lia.
Qed.

Lemma basic_state_ascii default_state ubase c :
  c < 128 ->
  basic_state isspace default_state ubase c
  = if c =? 10 then NEWLINE else if isspace c then WASSPACE else default_state.
Proof.
  intros Hc. unfold basic_state. now rewrite land_0x80_ascii.
Qed.

(** On the bytes of ASCII the four base rows are the four-state
    automaton of the ASCII mode. *)
Lemma entry_multibyte_ascii s c :
  s < 4 -> c < 128 -> entry T s c = ascii_next isspace s c.
Proof.
  intros Hs Hc.
  assert (Hcase : s = WASSPACE \/ s = NEWLINE \/ s = NEWWORD \/ s = WASWORD)
    by (unfold WASSPACE, NEWLINE, NEWWORD, WASWORD; lia).
  unfold entry, load.
  destruct Hcase as [-> | [-> | [-> | ->]]];
    rewrite ?row_WASSPACE, ?row_NEWLINE, ?row_NEWWORD, ?row_WASWORD; simpl;
    rewrite build_basic_lookup by (try reflexivity; lia); simpl;
    rewrite basic_state_ascii by assumption; unfold ascii_next;
    destruct (c =? 10); try reflexivity; destruct (isspace c); reflexivity.
Qed.

(** A byte outside ASCII takes a base state into a state of a
    sequence, or into [ILLEGAL]. *)
Lemma entry_multibyte_high s c :
  s < 4 -> 128 <= c < 256 -> 4 <= entry T s c.
Proof.
  intros Hs Hc.
  assert (Hall : cells_all T (fun _ _ v => 4 <=? v) (bytes_from 0 4) (bytes_from 128 128) = true)
    by (vm_compute; reflexivity).
  apply N.leb_le. apply (cells_all_spec _ _ _ _ _ _ Hall); simpl; lia.
Qed.

End MultibyteFacts.

(** ** The chunk processor on the built tables *)

Lemma char_landings_le trace : char_landings trace <= N.of_nat (length trace).
Proof. apply landings_four. Qed.

Lemma char_landings_app tr1 tr2 :
  char_landings (tr1 ++ tr2) = char_landings tr1 + char_landings tr2.
Proof. unfold char_landings. rewrite !landings_app. lia. Qed.

Lemma char_landings_cons x trace :
  char_landings (x :: trace) = (if x <? 4 then 1 else 0) + char_landings trace.
Proof.
  unfold char_landings. rewrite !landings_cons.
  unfold NEWLINE, WASSPACE, WASWORD, NEWWORD.
  destruct (N.ltb_spec x 4); repeat case_decide; subst; try lia.
Qed.

Lemma char_landings_full trace :
  char_landings trace = N.of_nat (length trace) <-> Forall (fun s => s < 4) trace.
Proof.
  induction trace as [|x trace IH].
  - split; [constructor|reflexivity].
  - rewrite char_landings_cons. simpl length.
    pose proof (char_landings_le trace) as Hle.
    destruct (N.ltb_spec x 4) as [Hx|Hx]; split.
    + intros H. constructor; [assumption|]. apply IH. lia.
    + intros H. apply Forall_cons in H as [_ H]. apply IH in H. lia.
    + intros H. lia.
    + intros H. apply Forall_cons in H as [H _]. lia.
Qed.

Lemma results_of_small trace len :
  N.of_nat (length trace) < 2 ^ 32 ->
  results_of wrap32 trace len
  = {| line_count := landings NEWLINE trace;
       word_count := landings NEWWORD trace;
       char_count := char_landings trace;
       byte_count := len |}.
Proof.
  intros Hlen. unfold results_of.
  pose proof (landings_le NEWLINE trace). pose proof (landings_le NEWWORD trace).
  pose proof (char_landings_le trace). unfold char_landings in *.
  rewrite !wrap32_small by lia. reflexivity.
Qed.

Lemma wrap32_state s : s < STATE_MAX -> wrap32 s = s.
Proof. change STATE_MAX with 66. intros H. apply wrap32_small. lia. Qed.

Section ChunkFacts.

Variable isspace : N -> bool.
Variable iswspace : N -> bool.
Variable is_multibyte : bool.

Let T := the_table isspace iswspace is_multibyte.

(** From a state of the automaton the chunk processor never leaves the
    arrays, and its results are those of the reference run. *)
Lemma parse_chunk_table junk buf st :
  st < STATE_MAX ->
  parse_chunk T junk buf st
  = Some (results_of wrap32 (run T st buf) (N.of_nat (length buf)),
          final st (run T st buf)).
Proof.
  intros Hst.
  rewrite parse_chunk_run; [|apply the_table_ok|change STATE_MAX with 66 in Hst; lia].
  rewrite wrap32_state; [reflexivity|]. apply final_lt; [apply the_table_ok|assumption].
Qed.

End ChunkFacts.

(** ** Buffers too long for the 32-bit tallies *)

Lemma length_newlines n : N.of_nat (length (newlines n)) = n.
Proof. unfold newlines. rewrite length_replicate. apply N2Nat.id. Qed.

Lemma newlines_add n m : newlines (n + m) = newlines n ++ newlines m.
Proof. unfold newlines. now rewrite N2Nat.inj_add, replicate_add. Qed.

Lemma landings_replicate s k : landings s (replicate k s) = N.of_nat k.
Proof.
  induction k as [|k IH]; [reflexivity|].
  change (replicate (Datatypes.S k) s) with (s :: replicate k s).
  rewrite landings_cons, IH, decide_True by reflexivity. lia.
Qed.

Lemma final_replicate st s k : (0 < k)%nat -> final st (replicate k s) = s.
Proof.
  intros Hk. revert st. induction k as [|k IH]; intros st; [lia|].
  change (replicate (Datatypes.S k) s) with (s :: replicate k s).
  rewrite final_cons. destruct k as [|k]; [reflexivity|]. apply IH. lia.
Qed.

Section Newlines.

Variable isspace : N -> bool.
Variable iswspace : N -> bool.
Variable is_multibyte : bool.

Let T := the_table isspace iswspace is_multibyte.

Lemma entry_newline s : s < 4 -> entry T s 10 = NEWLINE.
Proof.
  intros Hs. subst T. destruct is_multibyte.
  - rewrite entry_multibyte_ascii by (try assumption; reflexivity). reflexivity.
  - rewrite entry_ascii_table by (try assumption; reflexivity). reflexivity.
Qed.

Lemma run_replicate_newline s k :
  s < 4 -> run T s (replicate k Byte.x0a) = replicate k NEWLINE.
Proof.
  revert s. induction k as [|k IH]; intros s Hs; [reflexivity|].
  change (replicate (Datatypes.S k) Byte.x0a) with (Byte.x0a :: replicate k Byte.x0a).
  change (run T s (Byte.x0a :: replicate k Byte.x0a))
    with (entry T s 10 :: run T (entry T s 10) (replicate k Byte.x0a)).
  rewrite entry_newline by assumption. rewrite IH by reflexivity. reflexivity.
Qed.

Lemma run_newlines s n : s < 4 -> run T s (newlines n) = replicate (N.to_nat n) NEWLINE.
Proof. intros Hs. unfold newlines. now apply run_replicate_newline. Qed.

Lemma landings_run_newlines s n : s < 4 -> landings NEWLINE (run T s (newlines n)) = n.
Proof.
  intros Hs. rewrite run_newlines by assumption.
  rewrite landings_replicate. apply N2Nat.id.
Qed.

Lemma final_run_newlines s n :
  s < 4 -> 0 < n -> final s (run T s (newlines n)) = NEWLINE.
Proof.
  intros Hs Hn. rewrite run_newlines by assumption. apply final_replicate. lia.
Qed.

End Newlines.

Lemma line_count_results_of wrap trace len :
  line_count (results_of wrap trace len) = wrap (landings NEWLINE trace).
Proof. reflexivity. Qed.

Lemma word_count_results_of wrap trace len :
  word_count (results_of wrap trace len) = wrap (landings NEWWORD trace).
Proof. reflexivity. Qed.

Lemma char_count_results_of wrap trace len :
  char_count (results_of wrap trace len) = wrap (char_landings trace).
Proof. reflexivity. Qed.

Lemma byte_count_results_of wrap trace len :
  byte_count (results_of wrap trace len) = len.
Proof. reflexivity. Qed.

(** * The claims *)

(** ** Empty buffer *)

(** C9.  For every inbound state (a value of the C type [unsigned]) and
    either table mode, [parse_chunk] on an empty buffer returns four
    zero counters and stores the inbound state back unchanged. *)
Theorem empty_buffer isspace iswspace is_multibyte junk st :
  st < 2 ^ 32 ->
  parse_chunk (the_table isspace iswspace is_multibyte) junk [] st
  = Some (zero_results, st).
Proof.
  intros Hst. rewrite parse_chunk_walk.
  change (Some (make_results wrap32
                  (tally wrap32 (zero_counts (alloc_counts wrap32 junk)) []) 0,
                wrap32 st) = Some (zero_results, st)).
  rewrite make_results_tally; [|apply wrap32_add|apply wrap32_sum4|reflexivity].
  rewrite wrap32_small by assumption. reflexivity.
Qed.

Lemma empty_buffer_witness :
  7 < 2 ^ 32 /\
  parse_chunk (the_table c_isspace c_iswspace true) (fun _ => 9) [] 7
  = Some (zero_results, 7).
Proof.
  split; [reflexivity|].
  apply (empty_buffer c_isspace c_iswspace true (fun _ => 9) 7). reflexivity.
Defined.

(** ** Results from the tallies *)

(** C2, amended.  For every buffer and every inbound state below
    [STATE_MAX], in either mode: [byte_count] is the length of the
    buffer, and [line_count], [word_count] and [char_count] are, modulo
    2^32, the number of transitions that land in [NEWLINE], the number
    that land in [NEWWORD], and the number that land in one of
    [NEWLINE], [WASSPACE], [WASWORD], [NEWWORD]; for a buffer shorter
    than 2^32 bytes they are these numbers themselves. *)
Theorem results_from_tallies isspace iswspace is_multibyte junk buf st :
  st < STATE_MAX ->
  exists r,
    parse_chunk (the_table isspace iswspace is_multibyte) junk buf st
    = Some (r, final st (run (the_table isspace iswspace is_multibyte) st buf))
    /\ byte_count r = N.of_nat (length buf)
    /\ line_count r
       = landings NEWLINE (run (the_table isspace iswspace is_multibyte) st buf) mod 2 ^ 32
    /\ word_count r
       = landings NEWWORD (run (the_table isspace iswspace is_multibyte) st buf) mod 2 ^ 32
    /\ char_count r
       = (landings NEWLINE (run (the_table isspace iswspace is_multibyte) st buf)
          + landings WASSPACE (run (the_table isspace iswspace is_multibyte) st buf)
          + landings WASWORD (run (the_table isspace iswspace is_multibyte) st buf)
          + landings NEWWORD (run (the_table isspace iswspace is_multibyte) st buf))
         mod 2 ^ 32
    /\ (N.of_nat (length buf) < 2 ^ 32 ->
        r = {| line_count :=
                 landings NEWLINE (run (the_table isspace iswspace is_multibyte) st buf);
               word_count :=
                 landings NEWWORD (run (the_table isspace iswspace is_multibyte) st buf);
               char_count :=
                 landings NEWLINE (run (the_table isspace iswspace is_multibyte) st buf)
                 + landings WASSPACE (run (the_table isspace iswspace is_multibyte) st buf)
                 + landings WASWORD (run (the_table isspace iswspace is_multibyte) st buf)
                 + landings NEWWORD (run (the_table isspace iswspace is_multibyte) st buf);
               byte_count := N.of_nat (length buf) |}).
Proof.
  intros Hst. eexists. split; [now apply parse_chunk_table|].
  repeat (split; [reflexivity|]).
  intros Hlen. rewrite results_of_small by now rewrite length_run. reflexivity.
Qed.

Lemma results_from_tallies_witness :
  NEWWORD < STATE_MAX /\
  exists r,
    parse_chunk (the_table c_isspace c_iswspace true) (fun _ => 5)
      [Byte.x61; Byte.x0a; Byte.xc3] NEWWORD
    = Some (r, USPACE + DUO2_xx)
    /\ byte_count r = 3 /\ line_count r = 1 /\ word_count r = 0 /\ char_count r = 2.
Proof.
  assert (H1 : NEWWORD < STATE_MAX) by reflexivity.
  split; [exact H1|].
  destruct (results_from_tallies c_isspace c_iswspace true (fun _ => 5)
              [Byte.x61; Byte.x0a; Byte.xc3] NEWWORD H1)
    as (r & Hrun & Hb & Hl & Hw & Hc & _).
  exists r. split; [exact Hrun|]. split; [exact Hb|]. split; [exact Hl|].
  split; [exact Hw|exact Hc].
Defined.

(** C2 as stated fails on a buffer of 2^32 newlines: the tallies are
    [unsigned], so [line_count] comes out 0 while 2^32 transitions land
    in [NEWLINE]. *)
Lemma results_from_tallies_wrap :
  exists r st',
    parse_chunk (the_table c_isspace c_iswspace false) (fun _ => 0)
      (newlines (2 ^ 32)) WASSPACE = Some (r, st')
    /\ line_count r = 0
    /\ landings NEWLINE
         (run (the_table c_isspace c_iswspace false) WASSPACE (newlines (2 ^ 32)))
       = 2 ^ 32.
Proof.
  eexists _, _. split; [apply parse_chunk_table; reflexivity|]. split.
  - rewrite line_count_results_of, landings_run_newlines by reflexivity. reflexivity.
  - apply landings_run_newlines. reflexivity.
Qed.

(** ** Chunking *)

Lemma add_results_small tr1 tr2 len1 len2 :
  N.of_nat (length tr1) + N.of_nat (length tr2) < 2 ^ 32 ->
  len1 + len2 < 2 ^ 32 ->
  add_results (results_of wrap32 tr1 len1) (results_of wrap32 tr2 len2)
  = results_of wrap32 (tr1 ++ tr2) (len1 + len2).
Proof.
  intros Htr Hlen.
  rewrite !results_of_small by (rewrite ?length_app, ?Nat2N.inj_add; lia).
  unfold add_results. cbn [line_count word_count char_count byte_count].
  pose proof (landings_le NEWLINE tr1). pose proof (landings_le NEWLINE tr2).
  pose proof (landings_le NEWWORD tr1). pose proof (landings_le NEWWORD tr2).
  pose proof (char_landings_le tr1). pose proof (char_landings_le tr2).
  assert (H64 : 2 ^ 32 < 2 ^ 64) by reflexivity.
  rewrite !wrap64_small by lia.
  now rewrite !landings_app, char_landings_app.
Qed.

(** C1, amended.  For every input shorter than 2^32 bytes, split into
    two buffers at any byte position (inside a multi-byte sequence too),
    and the initial state: [parse_chunk] on the first buffer, then on the
    second with the state threaded through, yields by field-wise addition
    the results of one call on the whole input, and the same final
    state. *)
Theorem chunking_invariance isspace iswspace is_multibyte junk junk1 junk2 b1 b2 :
  N.of_nat (length (b1 ++ b2)) < 2 ^ 32 ->
  exists r1 s1 r2 s2,
    parse_chunk (the_table isspace iswspace is_multibyte) junk1 b1 WASSPACE
    = Some (r1, s1)
    /\ parse_chunk (the_table isspace iswspace is_multibyte) junk2 b2 s1
       = Some (r2, s2)
    /\ parse_chunk (the_table isspace iswspace is_multibyte) junk (b1 ++ b2) WASSPACE
       = Some (add_results r1 r2, s2).
Proof.
  intros Hlen. rewrite length_app, Nat2N.inj_add in Hlen.
  set (T := the_table isspace iswspace is_multibyte).
  assert (Hs1 : final WASSPACE (run T WASSPACE b1) < STATE_MAX)
    by (apply final_lt; [apply the_table_ok|reflexivity]).
  eexists _, _, _, _. split; [apply parse_chunk_table; reflexivity|].
  split; [apply parse_chunk_table; exact Hs1|].
  subst T. rewrite parse_chunk_table by reflexivity.
  rewrite add_results_small by (rewrite ?length_run; lia).
  rewrite run_app, final_app, length_app, Nat2N.inj_add. reflexivity.
Qed.

Lemma chunking_invariance_witness :
  N.of_nat (length ([Byte.x61; Byte.xe2; Byte.x82] ++ [Byte.xac; Byte.x0a])) < 2 ^ 32 /\
  exists r1 s1 r2 s2,
    parse_chunk (the_table c_isspace c_iswspace true) (fun _ => 1)
      [Byte.x61; Byte.xe2; Byte.x82] WASSPACE = Some (r1, s1)
    /\ parse_chunk (the_table c_isspace c_iswspace true) (fun _ => 2)
         [Byte.xac; Byte.x0a] s1 = Some (r2, s2)
    /\ parse_chunk (the_table c_isspace c_iswspace true) (fun _ => 0)
         ([Byte.x61; Byte.xe2; Byte.x82] ++ [Byte.xac; Byte.x0a]) WASSPACE
       = Some (add_results r1 r2, s2).
Proof.
  split; [reflexivity|].
  apply (chunking_invariance c_isspace c_iswspace true). reflexivity.
Defined.

(** C1 as stated fails on 2^32 newlines split in the middle: each half
    counts 2^31 lines, the single call counts 0. *)
Lemma chunking_invariance_wraps :
  exists r1 s1 r2 s2 r s,
    parse_chunk (the_table c_isspace c_iswspace false) (fun _ => 0)
      (newlines (2 ^ 31)) WASSPACE = Some (r1, s1)
    /\ parse_chunk (the_table c_isspace c_iswspace false) (fun _ => 0)
         (newlines (2 ^ 31)) s1 = Some (r2, s2)
    /\ parse_chunk (the_table c_isspace c_iswspace false) (fun _ => 0)
         (newlines (2 ^ 31) ++ newlines (2 ^ 31)) WASSPACE = Some (r, s)
    /\ line_count (add_results r1 r2) = 2 ^ 32
    /\ line_count r = 0.
Proof.
  assert (Hs1 : final WASSPACE (run (the_table c_isspace c_iswspace false) WASSPACE
                                  (newlines (2 ^ 31))) = NEWLINE)
    by (apply final_run_newlines; reflexivity).
  eexists _, _, _, _, _, _. split; [apply parse_chunk_table; reflexivity|].
  split; [apply parse_chunk_table; rewrite Hs1; reflexivity|].
  split; [apply parse_chunk_table; reflexivity|]. split.
  - unfold add_results. cbn [line_count].
    rewrite !line_count_results_of, Hs1, !landings_run_newlines by reflexivity.
    reflexivity.
  - rewrite line_count_results_of, <- newlines_add, landings_run_newlines by reflexivity.
    reflexivity.
Qed.

(** ** Characters and bytes *)

Section Characters.

Variable isspace : N -> bool.
Variable iswspace : N -> bool.

Lemma run_base is_multibyte s buf :
  s < 4 ->
  is_multibyte = false \/ forallb is_ascii buf = true ->
  Forall (fun s => s < 4) (run (the_table isspace iswspace is_multibyte) s buf).
Proof.
  intros Hs Hmode. revert s Hs.
  induction buf as [|b buf IH]; intros s Hs; [constructor|].
  assert (Hstep : entry (the_table isspace iswspace is_multibyte) s (Byte.to_N b) < 4).
  { destruct Hmode as [->|Hascii].
    - rewrite entry_ascii_table by (try assumption; apply byte_lt). apply ascii_next_lt.
    - simpl in Hascii. apply andb_prop in Hascii as [Hb _].
      apply N.ltb_lt in Hb. destruct is_multibyte.
      + rewrite entry_multibyte_ascii by assumption. apply ascii_next_lt.
      + rewrite entry_ascii_table by (try assumption; apply byte_lt). apply ascii_next_lt. }
  rewrite run_cons. constructor; [assumption|]. apply IH; [|assumption].
  destruct Hmode as [->|Hascii]; [now left|right].
  simpl in Hascii. now apply andb_prop in Hascii as [_ Hrest].
Qed.

Lemma run_leaves_base s buf :
  s < 4 -> forallb is_ascii buf = false ->
  ~ Forall (fun s => s < 4) (run (the_table isspace iswspace true) s buf).
Proof.
  revert s. induction buf as [|b buf IH]; intros s Hs Hnot Hall; [discriminate|].
  rewrite run_cons in Hall. apply Forall_cons in Hall as [Hhead Htail].
  simpl in Hnot. unfold is_ascii at 1 in Hnot.
  destruct (N.ltb_spec (Byte.to_N b) 128) as [Hb|Hb]; simpl in Hnot.
  - exact (IH _ Hhead Hnot Htail).
  - pose proof (entry_multibyte_high isspace iswspace s (Byte.to_N b) Hs
                  (conj Hb (byte_lt b))). lia.
Qed.

Lemma char_count_le_byte_count trace len :
  N.of_nat (length trace) = len ->
  char_count (results_of wrap32 trace len) <= byte_count (results_of wrap32 trace len).
Proof.
  intros <-. rewrite char_count_results_of, byte_count_results_of.
  pose proof (char_landings_le trace). unfold wrap32.
  pose proof (N.Div0.mod_le (char_landings trace) (2 ^ 32)). lia.
Qed.

End Characters.

(** C6, amended.  For every input processed from the initial state,
    [char_count] is at most [byte_count]; when the input is shorter than
    2^32 bytes the two are equal if and only if the table is the one of
    the ASCII mode or every byte of the input is ASCII (below 0x80). *)
Theorem char_count_vs_byte_count isspace iswspace is_multibyte junk buf :
  exists r st',
    parse_chunk (the_table isspace iswspace is_multibyte) junk buf WASSPACE
    = Some (r, st')
    /\ char_count r <= byte_count r
    /\ (N.of_nat (length buf) < 2 ^ 32 ->
        (char_count r = byte_count r
         <-> is_multibyte = false \/ forallb is_ascii buf = true)).
Proof.
  eexists _, _. split; [apply parse_chunk_table; reflexivity|]. split.
  - apply char_count_le_byte_count. now rewrite length_run.
  - intros Hlen. rewrite results_of_small by now rewrite length_run.
    cbn [char_count byte_count].
    rewrite <- (length_run (the_table isspace iswspace is_multibyte) WASSPACE buf).
    rewrite char_landings_full. split.
    + intros Hall. destruct is_multibyte; [right|now left].
      destruct (forallb is_ascii buf) eqn:Hascii; [reflexivity|].
      exfalso. exact (run_leaves_base isspace iswspace WASSPACE buf eq_refl Hascii Hall).
    + intros Hmode. apply run_base; [reflexivity|assumption].
Qed.

Lemma char_count_vs_byte_count_witness :
  exists r st',
    parse_chunk (the_table c_isspace c_iswspace true) (fun _ => 3)
      [Byte.x61; Byte.xc3; Byte.xa9] WASSPACE = Some (r, st')
    /\ char_count r <= byte_count r
    /\ (N.of_nat (length [Byte.x61; Byte.xc3; Byte.xa9]) < 2 ^ 32 ->
        (char_count r = byte_count r
         <-> true = false \/ forallb is_ascii [Byte.x61; Byte.xc3; Byte.xa9] = true)).
Proof.
  apply (char_count_vs_byte_count c_isspace c_iswspace true (fun _ => 3)
           [Byte.x61; Byte.xc3; Byte.xa9]).
Defined.

(** C6 as stated fails in both modes.  In the ASCII mode the two bytes
    of U+00E9 count as two characters, so the counts are equal although
    the input is a multi-byte sequence; in the multibyte mode the lone
    byte 0xFF is no character, so the counts differ although the input
    holds no multi-byte sequence. *)
Lemma char_count_equality_fails :
  (parse_chunk (the_table c_isspace c_iswspace false) (fun _ => 0)
     [Byte.xc3; Byte.xa9] WASSPACE
   = Some ({| line_count := 0; word_count := 1; char_count := 2; byte_count := 2 |},
           WASWORD)
   /\ contains_multibyte (Byte.to_N <$> [Byte.xc3; Byte.xa9]) = true)
  /\ (parse_chunk (the_table c_isspace c_iswspace true) (fun _ => 0)
        [Byte.xff] WASSPACE
      = Some ({| line_count := 0; word_count := 0; char_count := 0; byte_count := 1 |},
              USPACE + ILLEGAL)
      /\ contains_multibyte (Byte.to_N <$> [Byte.xff]) = false).
Proof. repeat split; vm_compute; reflexivity. Qed.

(** ** Words of ASCII text *)

Section Words.

Variable isspace : N -> bool.
Variable iswspace : N -> bool.

Let T := the_table isspace iswspace false.

Lemma entry_word_byte s b :
  s < 4 -> word_byte isspace b = true ->
  entry T s (Byte.to_N b) = if (s =? WASSPACE) || (s =? NEWLINE) then NEWWORD else WASWORD.
Proof.
  intros Hs Hb. unfold word_byte in Hb.
  apply andb_prop in Hb as [Hb Hsp]. apply andb_prop in Hb as [_ Hnl].
  subst T. rewrite entry_ascii_table by (try assumption; apply byte_lt).
  unfold ascii_next.
  destruct (Byte.to_N b =? 10); [discriminate|].
  destruct (isspace (Byte.to_N b)); [discriminate|]. reflexivity.
Qed.

Lemma entry_space_byte s b :
  s < 4 -> space_byte isspace b = true -> entry T s (Byte.to_N b) = WASSPACE.
Proof.
  intros Hs Hb. unfold space_byte in Hb.
  apply andb_prop in Hb as [Hb Hsp]. apply andb_prop in Hb as [_ Hnl].
  subst T. rewrite entry_ascii_table by (try assumption; apply byte_lt).
  unfold ascii_next.
  destruct (Byte.to_N b =? 10); [discriminate|]. now rewrite Hsp.
Qed.

(** Inside a word: no new word, no line. *)
Lemma run_in_word s w :
  s = NEWWORD \/ s = WASWORD -> forallb (word_byte isspace) w = true ->
  landings NEWWORD (run T s w) = 0
  /\ landings NEWLINE (run T s w) = 0
  /\ (final s (run T s w) = NEWWORD \/ final s (run T s w) = WASWORD).
Proof.
  revert s. induction w as [|b w IH]; intros s Hs Hw.
  - repeat split; try reflexivity. exact Hs.
  - simpl in Hw. apply andb_prop in Hw as [Hb Hw].
    rewrite run_cons, final_cons, !landings_cons.
    rewrite entry_word_byte by (try assumption; destruct Hs; subst; reflexivity).
    replace ((s =? WASSPACE) || (s =? NEWLINE)) with false
      by (destruct Hs; subst; reflexivity).
    destruct (IH WASWORD (or_intror eq_refl) Hw) as (H1 & H2 & H3).
    rewrite H1, H2. repeat split; try reflexivity. exact H3.
Qed.

(** A word after a space: one new word. *)
Lemma run_word s w :
  s = WASSPACE \/ s = NEWLINE -> is_word isspace w = true ->
  landings NEWWORD (run T s w) = 1
  /\ landings NEWLINE (run T s w) = 0
  /\ (final s (run T s w) = NEWWORD \/ final s (run T s w) = WASWORD).
Proof.
  intros Hs Hw. destruct w as [|b w]; [discriminate|].
  simpl in Hw. apply andb_prop in Hw as [Hb Hw].
  rewrite run_cons, final_cons, !landings_cons.
  rewrite entry_word_byte by (try assumption; destruct Hs; subst; reflexivity).
  replace ((s =? WASSPACE) || (s =? NEWLINE)) with true
    by (destruct Hs; subst; reflexivity).
  destruct (run_in_word NEWWORD w (or_introl eq_refl) Hw) as (H1 & H2 & H3).
  rewrite H1, H2. repeat split; try reflexivity. exact H3.
Qed.

Lemma run_sentence s w rest :
  s = WASSPACE \/ s = NEWLINE -> is_word isspace w = true -> rest_ok isspace rest = true ->
  landings NEWWORD (run T s (sentence w rest)) = N.of_nat (Datatypes.S (length rest))
  /\ landings NEWLINE (run T s (sentence w rest)) = 0.
Proof.
  revert s w. induction rest as [|[sp w'] rest IH]; intros s w Hs Hw Hrest.
  - destruct (run_word s w Hs Hw) as (H1 & H2 & _).
    change (sentence w []) with w. now rewrite H1, H2.
  - simpl in Hrest. apply andb_prop in Hrest as [Hhead Hrest].
    apply andb_prop in Hhead as [Hsp Hw'].
    destruct (run_word s w Hs Hw) as (H1 & H2 & H3).
    change (sentence w ((sp, w') :: rest)) with (w ++ sp :: sentence w' rest).
    rewrite run_app, run_cons, !landings_app, !landings_cons, H1, H2.
    rewrite entry_space_byte by (try assumption; destruct H3 as [-> | ->]; reflexivity).
    destruct (IH WASSPACE w' (or_introl eq_refl) Hw' Hrest) as [H4 H5].
    rewrite H4, H5. split; [|reflexivity].
    rewrite decide_False by discriminate. simpl length. lia.
Qed.

(** The results on such a text, the tally of words modulo 2^32. *)
Lemma parse_chunk_sentence junk w rest :
  is_word isspace w = true -> rest_ok isspace rest = true ->
  exists r st',
    parse_chunk T junk (sentence w rest) WASSPACE = Some (r, st')
    /\ line_count r = 0
    /\ word_count r = wrap32 (N.of_nat (Datatypes.S (length rest))).
Proof.
  intros Hw Hrest.
  destruct (run_sentence WASSPACE w rest (or_introl eq_refl) Hw Hrest) as [H1 H2].
  eexists _, _. split; [apply parse_chunk_table; reflexivity|].
  rewrite line_count_results_of, word_count_results_of. subst T.
  rewrite H1, H2. split; reflexivity.
Qed.

End Words.

(** C7, amended.  For every ASCII-only input without a newline that
    consists of k maximal runs of non-space bytes separated by single
    space bytes, the ASCII-mode table from the initial state yields
    [line_count] 0 and [word_count] k modulo 2^32: k itself whenever
    k < 2^32. *)
Theorem ascii_words isspace iswspace junk w rest :
  is_word isspace w = true -> rest_ok isspace rest = true ->
  exists r st',
    parse_chunk (the_table isspace iswspace false) junk (sentence w rest) WASSPACE
    = Some (r, st')
    /\ line_count r = 0
    /\ word_count r = wrap32 (N.of_nat (Datatypes.S (length rest)))
    /\ (N.of_nat (Datatypes.S (length rest)) < 2 ^ 32 ->
        word_count r = N.of_nat (Datatypes.S (length rest))).
Proof.
  intros Hw Hrest.
  destruct (parse_chunk_sentence isspace iswspace junk w rest Hw Hrest)
    as (r & st' & Hr & Hl & Hwc).
  exists r, st'. repeat split; try assumption.
  intros Hk. now rewrite Hwc, wrap32_small.
Qed.

Lemma ascii_words_witness :
  is_word c_isspace [Byte.x68; Byte.x69] = true /\
  rest_ok c_isspace [(Byte.x20, [Byte.x79; Byte.x6f; Byte.x75]); (Byte.x09, [Byte.x21])]
  = true /\
  exists r st',
    parse_chunk (the_table c_isspace c_iswspace false) (fun _ => 4)
      (sentence [Byte.x68; Byte.x69]
         [(Byte.x20, [Byte.x79; Byte.x6f; Byte.x75]); (Byte.x09, [Byte.x21])])
      WASSPACE = Some (r, st')
    /\ line_count r = 0
    /\ word_count r = wrap32 3
    /\ (3 < 2 ^ 32 -> word_count r = 3).
Proof.
  split; [reflexivity|]. split; [reflexivity|].
  apply (ascii_words c_isspace c_iswspace (fun _ => 4) [Byte.x68; Byte.x69]
           [(Byte.x20, [Byte.x79; Byte.x6f; Byte.x75]); (Byte.x09, [Byte.x21])]);
    reflexivity.
Defined.

Lemma forallb_replicate {A : Type} (f : A -> bool) x n :
  f x = true -> forallb f (replicate n x) = true.
Proof. intros Hx. induction n as [|n IH]; [reflexivity|]. simpl. now rewrite Hx. Qed.

(** C7 as stated fails on 2^32 one-letter words: the tally of new
    words is [unsigned] and comes out 0. *)
Lemma ascii_words_wrap :
  is_word c_isspace [Byte.x61] = true /\
  rest_ok c_isspace (replicate (N.to_nat (2 ^ 32 - 1)) (Byte.x20, [Byte.x61])) = true /\
  N.of_nat (Datatypes.S (length (replicate (N.to_nat (2 ^ 32 - 1)) (Byte.x20, [Byte.x61]))))
  = 2 ^ 32 /\
  exists r st',
    parse_chunk (the_table c_isspace c_iswspace false) (fun _ => 0)
      (sentence [Byte.x61] (replicate (N.to_nat (2 ^ 32 - 1)) (Byte.x20, [Byte.x61])))
      WASSPACE = Some (r, st')
    /\ word_count r = 0.
Proof.
  assert (Hrest : rest_ok c_isspace
            (replicate (N.to_nat (2 ^ 32 - 1)) (Byte.x20, [Byte.x61])) = true)
    by (apply forallb_replicate; reflexivity).
  assert (Hk : N.of_nat (Datatypes.S (length
            (replicate (N.to_nat (2 ^ 32 - 1)) (Byte.x20, [Byte.x61])))) = 2 ^ 32)
    by (rewrite length_replicate, Nat2N.inj_succ, N2Nat.id; reflexivity).
  split; [reflexivity|]. split; [exact Hrest|]. split; [exact Hk|].
  destruct (parse_chunk_sentence c_isspace c_iswspace (fun _ => 0) [Byte.x61] _
              eq_refl Hrest) as (r & st' & Hr & _ & Hwc).
  exists r, st'. split; [exact Hr|]. rewrite Hwc, Hk. reflexivity.
Qed.

(** ** The domain of the table *)

(** C10, amended.  [STATE_MAX] is 66.  Every entry of the table built
    by [compile_utf8_statemachine], in either mode, is a state below
    [STATE_MAX]; so from the initial state [parse_chunk] never reads or
    writes outside [table] and [counts], and every state it goes through
    is below [STATE_MAX]. *)
Theorem table_entries_in_domain isspace iswspace is_multibyte :
  STATE_MAX = 66
  /\ (forall s c, s < 256 -> c < 256 ->
        exists v, load (the_table isspace iswspace is_multibyte) s c = Some v
                  /\ v < STATE_MAX)
  /\ (forall junk buf,
        exists r st',
          parse_chunk (the_table isspace iswspace is_multibyte) junk buf WASSPACE
          = Some (r, st')
          /\ st' < STATE_MAX
          /\ Forall (fun s => s < STATE_MAX)
               (run (the_table isspace iswspace is_multibyte) WASSPACE buf)).
Proof.
  split; [reflexivity|]. split.
  - intros s c Hs Hc. apply table_ok_load; [apply the_table_ok|assumption..].
  - intros junk buf. eexists _, _.
    split; [apply parse_chunk_table; reflexivity|]. split.
    + apply final_lt; [apply the_table_ok|reflexivity].
    + apply run_lt, the_table_ok.
Qed.

Lemma table_entries_in_domain_witness :
  WASWORD < 256 /\ 0xC0 < 256 /\
  exists v, load (the_table c_isspace c_iswspace true) WASWORD 0xC0 = Some v
            /\ v < STATE_MAX.
Proof.
  split; [reflexivity|]. split; [reflexivity|].
  apply (proj1 (proj2 (table_entries_in_domain c_isspace c_iswspace true))
           WASWORD 0xC0); reflexivity.
Defined.

(** C10 as stated gives [STATE_MAX] as 64: it is 66, and the table of
    the multibyte mode holds the state 65. *)
Lemma state_max_is_not_64 :
  STATE_MAX <> 64
  /\ load (the_table c_isspace c_iswspace true) WASWORD 0xC0 = Some 65
  /\ ~ 65 < 64.
Proof. repeat split; vm_compute; discriminate. Qed.

(** ** The Euro sign *)

Section Euro.

Variable isspace : N -> bool.
Variable iswspace : N -> bool.

Let T := the_table isspace iswspace true.

Lemma entry_E2 : entry T WASSPACE 0xE2 = USPACE + TRI2_E2.
Proof. vm_compute. reflexivity. Qed.

Lemma entry_E2_82 : entry T (USPACE + TRI2_E2) 0x82 = USPACE + TRI3_E2_xx.
Proof. vm_compute. reflexivity. Qed.

Lemma entry_E2_82_AC :
  entry T (USPACE + TRI3_E2_xx) 0xAC
  = to_uchar (to_uchar (if isspace 0 then WASSPACE else NEWWORD)).
Proof. vm_compute. reflexivity. Qed.

Lemma run_euro :
  isspace 0 = false ->
  run T WASSPACE [Byte.xe2; Byte.x82; Byte.xac]
  = [USPACE + TRI2_E2; USPACE + TRI3_E2_xx; NEWWORD].
Proof.
  intros H0. rewrite !run_cons.
  change (Byte.to_N Byte.xe2) with 0xE2. change (Byte.to_N Byte.x82) with 0x82.
  change (Byte.to_N Byte.xac) with 0xAC.
  rewrite entry_E2, entry_E2_82, entry_E2_82_AC, H0. reflexivity.
Qed.

End Euro.

(** C8.  In a locale where the NUL character is no space, the buffer
    0xE2 0x82 0xAC alone, from the initial state and with the table of
    the multibyte mode, yields [line_count] 0, [word_count] 1,
    [char_count] 1 and [byte_count] 3. *)
Theorem euro_sign isspace iswspace junk :
  isspace 0 = false ->
  parse_chunk (the_table isspace iswspace true) junk
    [Byte.xe2; Byte.x82; Byte.xac] WASSPACE
  = Some ({| line_count := 0; word_count := 1; char_count := 1; byte_count := 3 |},
          NEWWORD).
Proof.
  intros H0. rewrite parse_chunk_table by reflexivity.
  rewrite run_euro by assumption. reflexivity.
Qed.

Lemma euro_sign_witness :
  c_isspace 0 = false /\
  parse_chunk (the_table c_isspace u_iswspace true) (fun _ => 8)
    [Byte.xe2; Byte.x82; Byte.xac] WASSPACE
  = Some ({| line_count := 0; word_count := 1; char_count := 1; byte_count := 3 |},
          NEWWORD).
Proof.
  split; [reflexivity|].
  apply (euro_sign c_isspace u_iswspace (fun _ => 8)). reflexivity.
Defined.

(** ** Lead bytes and their first continuation byte *)

Section LeadBytes.

Variable isspace : N -> bool.
Variable iswspace : N -> bool.

Let T := the_table isspace iswspace true.

Lemma lead_checks_hold : Forall (fun b => b = true) (lead_checks T).
Proof.
  assert (H : forallb (fun b => b) (lead_checks T) = true) by (vm_compute; reflexivity).
  rewrite forallb_forall in H. apply Forall_forall. intros b Hb.
  apply H. now apply list_elem_of_In.
Qed.

(** Brings the check number [k] into the context. *)
Tactic Notation "lead_check" integer(k) ident(H) :=
  pose proof lead_checks_hold as H; unfold lead_checks in H;
  do k (apply Forall_cons in H as [_ H]); apply Forall_cons in H as [H _].

Lemma load_checked (f : N -> N -> N -> bool) slo sn blo bn s c :
  cells_all T f (bytes_from slo sn) (bytes_from blo bn) = true ->
  (slo + sn <= 256)%nat -> (blo + bn <= 256)%nat ->
  N.of_nat slo <= s < N.of_nat (slo + sn) ->
  N.of_nat blo <= c < N.of_nat (blo + bn) ->
  exists v, load T s c = Some v /\ f s c v = true.
Proof.
  intros Hall Hsn Hbn Hs Hc. exists (entry T s c). split.
  - apply table_ok_entry; [apply the_table_ok|lia..].
  - exact (cells_all_spec _ _ _ _ _ _ Hall s c Hs Hc).
Qed.

(** From every state, the bytes 0xC0 and 0xC1 lead to [ILLEGAL]. *)
Lemma load_C0_C1 s c :
  s < STATE_MAX -> 0xC0 <= c <= 0xC1 -> load T s c = Some (context_of s + ILLEGAL).
Proof.
  intros Hs Hc. change STATE_MAX with 66 in Hs.
  lead_check 0 H.
  destruct (load_checked _ 0 66 0xC0 2 s c H)
    as (v & Hv & Hf); [lia | lia | simpl; lia | simpl; lia |].
  apply N.eqb_eq in Hf. now subst v.
Qed.

(** From every state, the bytes 0xF5 to 0xFF lead to [ILLEGAL]. *)
Lemma load_F5_FF s c :
  s < STATE_MAX -> 0xF5 <= c <= 0xFF -> load T s c = Some (context_of s + ILLEGAL).
Proof.
  intros Hs Hc. change STATE_MAX with 66 in Hs.
  lead_check 1 H.
  destruct (load_checked _ 0 66 0xF5 11 s c H)
    as (v & Hv & Hf); [lia | lia | simpl; lia | simpl; lia |].
  apply N.eqb_eq in Hf. now subst v.
Qed.

Lemma load_check_narrowed ubase id next lo hi c :
  check_narrowed T ubase id next lo hi = true ->
  ubase + id < 256 -> 0x80 <= c <= 0xBF ->
  load T (ubase + id) c = Some (narrowed ubase next lo hi c).
Proof.
  intros Hcheck Hid Hc.
  destruct (load_checked (fun _ c v => v =? narrowed ubase next lo hi c)
              (N.to_nat (ubase + id)) 1 0x80 64 (ubase + id) c Hcheck)
    as (v & Hv & Hf); [lia | lia | lia | simpl; lia |].
  apply N.eqb_eq in Hf. now subst v.
Qed.

Lemma load_narrowed ubase id next lo hi c :
  ubase = USPACE \/ ubase = UWORD ->
  (id = TRI2_E0 /\ next = TRI3_E0_xx /\ lo = 0xA0 /\ hi = 0xBF)
  \/ (id = TRI2_ED /\ next = TRI3_Ed_xx /\ lo = 0x80 /\ hi = 0x9F)
  \/ (id = QUAD2_F0 /\ next = QUAD3_F0_xx /\ lo = 0x90 /\ hi = 0xBF)
  \/ (id = QUAD2_F4 /\ next = QUAD3_F4_xx /\ lo = 0x80 /\ hi = 0x8F) ->
  0x80 <= c <= 0xBF ->
  load T (ubase + id) c = Some (narrowed ubase next lo hi c).
Proof.
  intros Hu Hid Hc.
  destruct Hu as [-> | ->];
    destruct Hid as [(-> & -> & -> & ->) | [(-> & -> & -> & ->)
                    | [(-> & -> & -> & ->) | (-> & -> & -> & ->)]]];
    [ lead_check 2 H | lead_check 3 H | lead_check 4 H | lead_check 5 H
    | lead_check 6 H | lead_check 7 H | lead_check 8 H | lead_check 9 H ];
    (apply load_check_narrowed; [exact H | reflexivity | assumption]).
Qed.

Lemma load_check_lead (c : nat) id s :
  check_lead T c id = true -> (c < 256)%nat -> takes_lead s = true ->
  load T s (N.of_nat c) = Some (context_of s + id).
Proof.
  intros Hcheck Hc Hs.
  assert (Hs66 : s < 66).
  { unfold takes_lead in Hs. apply orb_prop in Hs as [Hs | Hs];
      [apply orb_prop in Hs as [Hs | Hs]|].
    - apply N.ltb_lt in Hs. lia.
    - apply N.eqb_eq in Hs. subst s. reflexivity.
    - apply N.eqb_eq in Hs. subst s. reflexivity. }
  destruct (load_checked (fun s _ v => negb (takes_lead s) || (v =? context_of s + id))
              0 66 c 1 s (N.of_nat c) Hcheck)
    as (v & Hv & Hf); [lia | lia | simpl; lia | lia |].
  rewrite Hs in Hf. simpl in Hf. apply N.eqb_eq in Hf. now subst v.
Qed.

Lemma load_lead s :
  takes_lead s = true ->
  load T s 0xE0 = Some (context_of s + TRI2_E0)
  /\ load T s 0xED = Some (context_of s + TRI2_ED)
  /\ load T s 0xF0 = Some (context_of s + QUAD2_F0)
  /\ load T s 0xF4 = Some (context_of s + QUAD2_F4).
Proof.
  intros Hs. repeat split.
  - lead_check 10 H. apply (load_check_lead 0xE0); [exact H | lia | assumption].
  - lead_check 11 H. apply (load_check_lead 0xED); [exact H | lia | assumption].
  - lead_check 12 H. apply (load_check_lead 0xF0); [exact H | lia | assumption].
  - lead_check 13 H. apply (load_check_lead 0xF4); [exact H | lia | assumption].
Qed.

(** From [ILLEGAL] a continuation byte leads back to [ILLEGAL]. *)
Lemma load_ILLEGAL_continuation ubase c :
  ubase = USPACE \/ ubase = UWORD -> 0x80 <= c <= 0xBF ->
  load T (ubase + ILLEGAL) c = Some (ubase + ILLEGAL).
Proof.
  intros Hu Hc. destruct Hu as [-> | ->].
  - lead_check 14 H.
    destruct (load_checked (fun s _ v => v =? s) (N.to_nat (USPACE + ILLEGAL)) 1 0x80 64
                (USPACE + ILLEGAL) c H)
      as (v & Hv & Hf); [vm_compute; lia | lia
                        | vm_compute; split; [discriminate|reflexivity]
                        | simpl; lia |].
    apply N.eqb_eq in Hf. now subst v.
  - lead_check 15 H.
    destruct (load_checked (fun s _ v => v =? s) (N.to_nat (UWORD + ILLEGAL)) 1 0x80 64
                (UWORD + ILLEGAL) c H)
      as (v & Hv & Hf); [vm_compute; lia | lia
                        | vm_compute; split; [discriminate|reflexivity]
                        | simpl; lia |].
    apply N.eqb_eq in Hf. now subst v.
Qed.

End LeadBytes.

(** ** Completed sequences *)

Lemma fmap_eq_elem {A B : Type} (f g : A -> B) (l : list A) :
  f <$> l = g <$> l -> forall x, x ∈ l -> f x = g x.
Proof.
  induction l as [|y l IH]; intros Heq x Hx.
  - now apply elem_of_nil in Hx.
  - simpl in Heq. injection Heq as Hy Hl.
    apply elem_of_cons in Hx as [-> | Hx]; [assumption|]. now apply IH.
Qed.

Lemma elem_of_bytes_from lo n c :
  N.of_nat lo <= c < N.of_nat (lo + n) -> c ∈ bytes_from lo n.
Proof.
  intros Hc. unfold bytes_from. apply list_elem_of_fmap.
  exists (N.to_nat c). split; [lia|]. apply elem_of_seq. lia.
Qed.

Lemma continuation_cells_spec t slo sn (spec : N -> N -> N) :
  continuation_cells t slo sn
  = (fun s => spec s <$> bytes_from 0x80 64) <$> bytes_from slo sn ->
  forall s c, N.of_nat slo <= s < N.of_nat (slo + sn) -> 0x80 <= c <= 0xBF ->
              entry t s c = spec s c.
Proof.
  intros Heq s c Hs Hc. unfold continuation_cells in Heq.
  pose proof (fmap_eq_elem _ _ _ Heq s (elem_of_bytes_from _ _ _ Hs)) as Hrow.
  cbv beta in Hrow.
  apply (fmap_eq_elem _ _ _ Hrow c). apply elem_of_bytes_from. simpl. lia.
Qed.

Section Completed.

Variable isspace : N -> bool.
Variable iswspace : N -> bool.

Let T := the_table isspace iswspace true.

Lemma completed_lt ubase id c : completed isspace iswspace ubase id c < 4.
Proof.
  unfold completed.
  assert (Hd : to_uchar (to_uchar (if isspace 0 then WASSPACE
                 else if ubase =? USPACE then NEWWORD else WASWORD)) < 4).
  { destruct (isspace 0); [reflexivity|]. destruct (ubase =? USPACE); reflexivity. }
  destruct (unicode_space_of id c) as [cp|]; [|exact Hd].
  destruct (iswspace cp); [reflexivity|exact Hd].
Qed.

Lemma completed_rows :
  continuation_cells T 4 2
  = (fun s => completed_at isspace iswspace s <$> bytes_from 0x80 64) <$> bytes_from 4 2
  /\ continuation_cells T 13 12
     = (fun s => completed_at isspace iswspace s <$> bytes_from 0x80 64) <$> bytes_from 13 12
  /\ continuation_cells T 31 3
     = (fun s => completed_at isspace iswspace s <$> bytes_from 0x80 64) <$> bytes_from 31 3
  /\ continuation_cells T 35 2
     = (fun s => completed_at isspace iswspace s <$> bytes_from 0x80 64) <$> bytes_from 35 2
  /\ continuation_cells T 44 12
     = (fun s => completed_at isspace iswspace s <$> bytes_from 0x80 64) <$> bytes_from 44 12
  /\ continuation_cells T 62 3
     = (fun s => completed_at isspace iswspace s <$> bytes_from 0x80 64) <$> bytes_from 62 3.
Proof. repeat apply conj; vm_compute; reflexivity. Qed.

Lemma load_completed ubase id c :
  ubase = USPACE \/ ubase = UWORD -> completing id = true -> 0x80 <= c <= 0xBF ->
  load T (ubase + id) c = Some (completed isspace iswspace ubase id c).
Proof.
  intros Hu Hid Hc.
  assert (Hid' : id <= 1 \/ 9 <= id <= 20 \/ 27 <= id <= 29).
  { unfold completing in Hid.
    change DUO2_C2 with 1 in Hid. change TRI3_E0_xx with 9 in Hid.
    change TRI3_xx_xx with 20 in Hid. change QUAD4_xx_xx_xx with 27 in Hid.
    change QUAD4_F4_xx_xx with 29 in Hid.
    destruct (N.leb_spec id 1), (N.leb_spec 9 id), (N.leb_spec id 20),
             (N.leb_spec 27 id), (N.leb_spec id 29); simpl in Hid;
      try discriminate; lia. }
  assert (Hctx : context_of (ubase + id) = ubase /\ ubase + id < 256).
  { unfold context_of. change NEWWORD with 2. change UWORD with 35. change USPACE with 4.
    destruct Hu as [-> | ->]; change UWORD with 35; change USPACE with 4;
      destruct (N.ltb_spec (4 + id) 2), (N.leb_spec 4 (4 + id)), (N.ltb_spec (4 + id) 35),
               (N.ltb_spec (35 + id) 2), (N.leb_spec 4 (35 + id)), (N.ltb_spec (35 + id) 35);
      simpl; split; lia. }
  destruct Hctx as [Hctx Hlt].
  pose proof (table_ok_entry T (ubase + id) c (the_table_ok _ _ _) Hlt ltac:(lia))
    as [Hload _].
  rewrite Hload. apply (f_equal Some).
  replace (completed isspace iswspace ubase id c)
    with (completed_at isspace iswspace (ubase + id) c)
    by (unfold completed_at; rewrite Hctx;
        apply (f_equal (fun i => completed isspace iswspace ubase i c)); lia).
  destruct completed_rows as (H1 & H2 & H3 & H4 & H5 & H6).
  change UWORD with 35 in Hu. change USPACE with 4 in Hu.
  destruct Hu as [-> | ->]; destruct Hid' as [Hid' | [Hid' | Hid']].
  - apply (continuation_cells_spec _ _ _ _ H1); simpl; lia.
  - apply (continuation_cells_spec _ _ _ _ H2); simpl; lia.
  - apply (continuation_cells_spec _ _ _ _ H3); simpl; lia.
  - apply (continuation_cells_spec _ _ _ _ H4); simpl; lia.
  - apply (continuation_cells_spec _ _ _ _ H5); simpl; lia.
  - apply (continuation_cells_spec _ _ _ _ H6); simpl; lia.
Qed.

End Completed.

(** ** Lead bytes that are always illegal and lead bytes that narrow *)

(** C4.  In the table of the multibyte mode, in each context: the bytes
    0xC0, 0xC1 and 0xF5 to 0xFF lead to the [ILLEGAL] state of the
    context; the lead bytes 0xE0, 0xED, 0xF0 and 0xF4 lead to a state of
    their own, from which the continuation bytes 0xA0-0xBF (after 0xE0),
    0x80-0x9F (after 0xED), 0x90-0xBF (after 0xF0) and 0x80-0x8F (after
    0xF4) go on with the sequence and every other byte of 0x80-0xBF leads
    to [ILLEGAL]. *)
Theorem lead_byte_restrictions isspace iswspace :
  (forall s c,
     s < STATE_MAX -> 0xC0 <= c <= 0xC1 \/ 0xF5 <= c <= 0xFF ->
     load (the_table isspace iswspace true) s c = Some (context_of s + ILLEGAL))
  /\ (forall s,
        takes_lead s = true ->
        load (the_table isspace iswspace true) s 0xE0 = Some (context_of s + TRI2_E0)
        /\ load (the_table isspace iswspace true) s 0xED = Some (context_of s + TRI2_ED)
        /\ load (the_table isspace iswspace true) s 0xF0 = Some (context_of s + QUAD2_F0)
        /\ load (the_table isspace iswspace true) s 0xF4 = Some (context_of s + QUAD2_F4))
  /\ (forall ubase c,
        ubase = USPACE \/ ubase = UWORD -> 0x80 <= c <= 0xBF ->
        load (the_table isspace iswspace true) (ubase + TRI2_E0) c
        = Some (if (0xA0 <=? c) && (c <=? 0xBF) then ubase + TRI3_E0_xx
                else ubase + ILLEGAL)
        /\ load (the_table isspace iswspace true) (ubase + TRI2_ED) c
           = Some (if (0x80 <=? c) && (c <=? 0x9F) then ubase + TRI3_Ed_xx
                   else ubase + ILLEGAL)
        /\ load (the_table isspace iswspace true) (ubase + QUAD2_F0) c
           = Some (if (0x90 <=? c) && (c <=? 0xBF) then ubase + QUAD3_F0_xx
                   else ubase + ILLEGAL)
        /\ load (the_table isspace iswspace true) (ubase + QUAD2_F4) c
           = Some (if (0x80 <=? c) && (c <=? 0x8F) then ubase + QUAD3_F4_xx
                   else ubase + ILLEGAL)).
Proof.
  split; [|split].
  - intros s c Hs [Hc | Hc]; [now apply load_C0_C1 | now apply load_F5_FF].
  - intros s Hs. now apply load_lead.
  - intros ubase c Hu Hc. repeat apply conj.
    + apply (load_narrowed isspace iswspace ubase TRI2_E0 TRI3_E0_xx 0xA0 0xBF c Hu);
        [tauto | assumption].
    + apply (load_narrowed isspace iswspace ubase TRI2_ED TRI3_Ed_xx 0x80 0x9F c Hu);
        [tauto | assumption].
    + apply (load_narrowed isspace iswspace ubase QUAD2_F0 QUAD3_F0_xx 0x90 0xBF c Hu);
        [tauto | assumption].
    + apply (load_narrowed isspace iswspace ubase QUAD2_F4 QUAD3_F4_xx 0x80 0x8F c Hu);
        [tauto | assumption].
Qed.

Lemma lead_byte_restrictions_witness :
  (NEWWORD < STATE_MAX /\ (0xC0 <= 0xC1 <= 0xC1 \/ 0xF5 <= 0xC1 <= 0xFF)
   /\ load (the_table c_isspace c_iswspace true) NEWWORD 0xC1 = Some (UWORD + ILLEGAL))
  /\ (takes_lead NEWLINE = true
      /\ load (the_table c_isspace c_iswspace true) NEWLINE 0xED = Some (USPACE + TRI2_ED))
  /\ ((USPACE = USPACE \/ USPACE = UWORD) /\ 0x80 <= 0xA0 <= 0xBF
      /\ load (the_table c_isspace c_iswspace true) (USPACE + TRI2_ED) 0xA0
         = Some (USPACE + ILLEGAL)).
Proof.
  pose proof (lead_byte_restrictions c_isspace c_iswspace) as (H1 & H2 & H3).
  assert (Hs : NEWWORD < STATE_MAX) by reflexivity.
  assert (Hc : 0xC0 <= 0xC1 <= 0xC1 \/ 0xF5 <= 0xC1 <= 0xFF)
    by (left; split; discriminate).
  assert (Hl : takes_lead NEWLINE = true) by reflexivity.
  assert (Hu : USPACE = USPACE \/ USPACE = UWORD) by now left.
  assert (Hb : 0x80 <= 0xA0 <= 0xBF) by (split; discriminate).
  split; [|split].
  - split; [exact Hs|]. split; [exact Hc|]. exact (H1 NEWWORD 0xC1 Hs Hc).
  - split; [exact Hl|]. exact (proj1 (proj2 (H2 NEWLINE Hl))).
  - split; [exact Hu|]. split; [exact Hb|]. exact (proj1 (proj2 (H3 USPACE 0xA0 Hu Hb))).
Defined.

(** ** The table of pointers *)

Lemma for_loop_inv_index {S : Type} (P : N -> S -> Prop) (body : N -> S -> S) :
  forall n i s,
    P i s ->
    (forall k s, i <= k < i + N.of_nat n -> P k s -> P (k + 1) (body k s)) ->
    P (i + N.of_nat n) (for_loop n i body s).
Proof.
  induction n as [|n IH]; intros i s Hs Hbody.
  - simpl. change (N.of_nat 0) with 0. now rewrite N.add_0_r.
  - simpl for_loop. replace (i + N.of_nat (Datatypes.S n)) with (i + 1 + N.of_nat n) by lia.
    apply IH.
    + apply Hbody; [lia|assumption].
    + intros k s' Hk. apply Hbody. lia.
Qed.

Lemma PSTATE_row_ptr base s : PSTATE base (row_ptr base s) = Some s.
Proof.
  unfold PSTATE, row_ptr. change PTR_SIZE with 8.
  destruct (N.leb_spec base (base + s * 256 * 8)) as [_|Hlt]; [|lia].
  apply (f_equal Some). rewrite N.add_comm, N.add_sub, <- N.mul_assoc.
  apply N.div_mul. discriminate.
Qed.

Lemma pload_alter tp i j p i' j' :
  ptable_shape tp -> i < 256 -> j < 256 ->
  pload (alter (fun row => <[N.to_nat j := p]> row) (N.to_nat i) tp) i' j'
  = if (i' =? i) && (j' =? j) then Some p else pload tp i' j'.
Proof.
  intros [Hlen Hrows] Hi Hj. unfold pload.
  destruct (N.eqb_spec i' i) as [->|Hne]; simpl.
  - destruct (lookup_lt_is_Some_2 tp (N.to_nat i)) as [row Hrow]; [lia|].
    pose proof (Forall_lookup_1 _ _ _ _ Hrows Hrow) as Hrl. cbv beta in Hrl.
    rewrite list_lookup_alter_eq, Hrow. simpl.
    destruct (N.eqb_spec j' j) as [->|Hnj].
    + rewrite list_lookup_insert_eq by lia. reflexivity.
    + rewrite list_lookup_insert_ne by lia. reflexivity.
  - rewrite list_lookup_alter_ne by lia. reflexivity.
Qed.

Lemma ptable_shape_alter tp i j p :
  ptable_shape tp ->
  ptable_shape (alter (fun row => <[N.to_nat j := p]> row) (N.to_nat i) tp).
Proof.
  intros [Hlen Hrows]. split.
  - now rewrite length_alter.
  - apply Forall_alter; [assumption|]. intros row _ Hrow. now rewrite length_insert.
Qed.

Lemma compile_pointers_cell_upto base t i j acc :
  i < 256 -> j < 256 ->
  pointers_upto base t i j acc ->
  pointers_upto base t i (j + 1) (compile_pointers_cell base t i j acc).
Proof.
  intros Hi Hj (tp & -> & Hshape & Hdone).
  set (p := row_ptr base (entry t i j)).
  set (tp' := alter (fun row => <[N.to_nat j := p]> row) (N.to_nat i) tp).
  assert (Hcell : compile_pointers_cell base t i j (Some tp) = Some tp').
  { unfold compile_pointers_cell. simpl mbind.
    change (base + entry t i j * 256 * PTR_SIZE) with p. fold tp'.
    change (tp' !! N.to_nat i ≫= (.!! N.to_nat j)) with (pload tp' i j).
    unfold tp'. rewrite pload_alter by assumption.
    rewrite !N.eqb_refl. simpl. unfold p. rewrite PSTATE_row_ptr. simpl.
    now rewrite N.eqb_refl. }
  rewrite Hcell. exists tp'. split; [reflexivity|]. split.
  - now apply ptable_shape_alter.
  - intros i' j' Hij Hj'. unfold tp'. rewrite pload_alter by assumption.
    destruct (N.eqb_spec i' i) as [->|Hne]; simpl.
    + destruct (N.eqb_spec j' j) as [->|Hnj]; [reflexivity|].
      apply Hdone; [right; split; [reflexivity|lia]|assumption].
    + apply Hdone; [left; lia|assumption].
Qed.

Lemma compile_pointers_row_upto base t i acc :
  i < 256 ->
  pointers_upto base t i 0 acc ->
  pointers_upto base t (i + 1) 0
    (for_range 0 256 (fun j acc => compile_pointers_cell base t i j acc) acc).
Proof.
  intros Hi Hacc.
  pose proof (for_loop_inv_index (pointers_upto base t i)
                (fun j acc => compile_pointers_cell base t i j acc)
                (N.to_nat (256 - 0)) 0 acc Hacc) as Hloop.
  destruct Hloop as (tp & Heq & Hshape & Hdone).
  { intros k s Hk. apply compile_pointers_cell_upto; [assumption|].
    change (N.of_nat (N.to_nat (256 - 0))) with 256 in Hk. lia. }
  exists tp. split; [exact Heq|]. split; [exact Hshape|].
  intros i' j' Hij Hj'. apply Hdone; [|assumption].
  change (0 + N.of_nat (N.to_nat (256 - 0))) with 256. lia.
Qed.

Lemma table_p_init_shape : ptable_shape table_p_init.
Proof. split; [reflexivity|]. apply Forall_replicate. reflexivity. Qed.

(** [compile_pointers] passes every [assert] and leaves in the first
    [STATE_MAX] rows of [table_p] the addresses of the rows that [table]
    names. *)
Lemma compile_pointers_spec base t :
  exists tp,
    compile_pointers base t table_p_init = Some tp
    /\ forall s c, s < STATE_MAX -> c < 256 ->
         pload tp s c = Some (row_ptr base (entry t s c)).
Proof.
  pose proof (for_loop_inv_index (fun i acc => pointers_upto base t i 0 acc)
                (fun i acc =>
                   for_range 0 256 (fun j acc => compile_pointers_cell base t i j acc) acc)
                (N.to_nat (STATE_MAX - 0)) 0 (Some table_p_init)) as Hloop.
  destruct Hloop as (tp & Heq & _ & Hdone).
  - exists table_p_init. split; [reflexivity|]. split; [apply table_p_init_shape|].
    intros i' j' [Hi | [_ Hj]]; lia.
  - intros k s Hk. apply compile_pointers_row_upto.
    change (N.of_nat (N.to_nat (STATE_MAX - 0))) with 66 in Hk. lia.
  - exists tp. split; [exact Heq|]. intros s c Hs Hc. apply Hdone; [|assumption].
    left. exact Hs.
Qed.

Lemma deref_row_ptr base tp s c :
  c < 256 -> deref base tp (row_ptr base s) c = pload tp s c.
Proof.
  intros Hc. unfold deref, row_ptr. change PTR_SIZE with 8. cbv zeta.
  replace (base + s * 256 * 8 + c * 8 - base) with ((s * 256 + c) * 8) by lia.
  destruct (N.leb_spec base (base + s * 256 * 8 + c * 8)) as [_|Hlt]; [|lia].
  rewrite N.Div0.mod_mul, N.div_mul by discriminate. simpl.
  rewrite N.div_add_l by discriminate. rewrite (N.div_small c 256) by assumption.
  rewrite N.add_0_r, N.add_comm, N.Div0.mod_add, (N.mod_small c 256) by assumption.
  reflexivity.
Qed.

Lemma walk_pp_run base t tp buf s counts :
  table_ok t ->
  (forall s c, s < STATE_MAX -> c < 256 ->
     pload tp s c = Some (row_ptr base (entry t s c))) ->
  s < STATE_MAX -> length counts = N.to_nat STATE_MAX ->
  walk_pp base tp buf (row_ptr base s) counts
  = Some (row_ptr base (final s (run t s buf)), tally wrap64 counts (run t s buf)).
Proof.
  intros Ht Htp. revert s counts.
  induction buf as [|b buf IH]; intros s counts Hs Hlen; [reflexivity|].
  simpl walk_pp. rewrite run_cons, final_cons.
  rewrite deref_row_ptr by apply byte_lt.
  rewrite Htp by (try assumption; apply byte_lt). simpl.
  rewrite PSTATE_row_ptr. simpl.
  pose proof (entry_lt t s (Byte.to_N b) Ht) as Hlt.
  rewrite bump_Some by (rewrite Hlen; lia). simpl.
  apply IH; [assumption|]. now rewrite length_insert.
Qed.

Lemma parse_chunk_pp_run base t tp junk buf st :
  table_ok t ->
  (forall s c, s < STATE_MAX -> c < 256 ->
     pload tp s c = Some (row_ptr base (entry t s c))) ->
  st < STATE_MAX ->
  parse_chunk_pp base tp junk buf st
  = Some (results_of wrap64 (run t st buf) (N.of_nat (length buf)),
          final st (run t st buf)).
Proof.
  intros Ht Htp Hst. unfold parse_chunk_pp.
  assert (Hptr : base + wrap32 (st * 256) * PTR_SIZE = row_ptr base st).
  { unfold row_ptr. rewrite wrap32_small; [reflexivity|].
    change STATE_MAX with 66 in Hst. lia. }
  rewrite Hptr, (walk_pp_run base t tp buf st) by
    (try assumption; now rewrite length_zero_counts, length_alloc_counts).
  simpl. rewrite PSTATE_row_ptr. simpl.
  rewrite make_results_tally; [|apply wrap64_add|apply wrap64_sum4|reflexivity].
  rewrite wrap32_state by now apply final_lt. reflexivity.
Qed.

Lemma results_of_wrap64_small trace len :
  N.of_nat (length trace) < 2 ^ 32 ->
  results_of wrap64 trace len = results_of wrap32 trace len.
Proof.
  intros Hlen. rewrite results_of_small by assumption. unfold results_of.
  pose proof (landings_le NEWLINE trace). pose proof (landings_le NEWWORD trace).
  pose proof (char_landings_le trace). unfold char_landings in *.
  assert (H64 : 2 ^ 32 < 2 ^ 64) by reflexivity.
  rewrite !wrap64_small by lia. reflexivity.
Qed.

(** C3, amended.  For every buffer shorter than 2^32 bytes, every
    inbound state below [STATE_MAX] and either mode: [compile_pointers]
    succeeds, and [parse_chunk_p] and [parse_chunk_pp] return the results
    and the outbound state of [parse_chunk]. *)
Theorem pointer_variants_agree isspace iswspace is_multibyte base
    junk junk_p junk_pp buf st :
  st < STATE_MAX ->
  N.of_nat (length buf) < 2 ^ 32 ->
  exists tp r st',
    compile_pointers base (the_table isspace iswspace is_multibyte) table_p_init = Some tp
    /\ parse_chunk (the_table isspace iswspace is_multibyte) junk buf st = Some (r, st')
    /\ parse_chunk_p (the_table isspace iswspace is_multibyte) junk_p buf st
       = Some (r, st')
    /\ parse_chunk_pp base tp junk_pp buf st = Some (r, st').
Proof.
  intros Hst Hlen.
  destruct (compile_pointers_spec base (the_table isspace iswspace is_multibyte))
    as (tp & Htp & Hcells).
  exists tp. eexists _, _. split; [exact Htp|].
  split; [apply parse_chunk_table; assumption|].
  split; [rewrite parse_chunk_p_eq; apply parse_chunk_table; assumption|].
  rewrite (parse_chunk_pp_run base (the_table isspace iswspace is_multibyte))
    by (try assumption; apply the_table_ok).
  rewrite results_of_wrap64_small by now rewrite length_run. reflexivity.
Qed.

Lemma pointer_variants_agree_witness :
  USPACE + TRI2_E2 < STATE_MAX /\
  N.of_nat (length [Byte.x82; Byte.xac; Byte.x20; Byte.x41]) < 2 ^ 32 /\
  exists tp r st',
    compile_pointers 4096 (the_table c_isspace c_iswspace true) table_p_init = Some tp
    /\ parse_chunk (the_table c_isspace c_iswspace true) (fun _ => 1)
         [Byte.x82; Byte.xac; Byte.x20; Byte.x41] (USPACE + TRI2_E2) = Some (r, st')
    /\ parse_chunk_p (the_table c_isspace c_iswspace true) (fun _ => 2)
         [Byte.x82; Byte.xac; Byte.x20; Byte.x41] (USPACE + TRI2_E2) = Some (r, st')
    /\ parse_chunk_pp 4096 tp (fun _ => 3)
         [Byte.x82; Byte.xac; Byte.x20; Byte.x41] (USPACE + TRI2_E2) = Some (r, st').
Proof.
  assert (Hst : USPACE + TRI2_E2 < STATE_MAX) by reflexivity.
  assert (Hlen : N.of_nat (length [Byte.x82; Byte.xac; Byte.x20; Byte.x41]) < 2 ^ 32)
    by reflexivity.
  split; [exact Hst|]. split; [exact Hlen|].
  exact (pointer_variants_agree c_isspace c_iswspace true 4096
           (fun _ => 1) (fun _ => 2) (fun _ => 3)
           [Byte.x82; Byte.xac; Byte.x20; Byte.x41] (USPACE + TRI2_E2) Hst Hlen).
Defined.

(** C3 as stated fails on 2^32 newlines: the tallies of [parse_chunk]
    are [unsigned] and those of [parse_chunk_pp] are [unsigned long], so
    the first returns [line_count] 0 and the second 2^32. *)
Lemma pointer_variants_differ :
  exists tp r st' r_pp st_pp,
    compile_pointers 4096 (the_table c_isspace c_iswspace false) table_p_init = Some tp
    /\ parse_chunk (the_table c_isspace c_iswspace false) (fun _ => 0)
         (newlines (2 ^ 32)) WASSPACE = Some (r, st')
    /\ parse_chunk_pp 4096 tp (fun _ => 0) (newlines (2 ^ 32)) WASSPACE
       = Some (r_pp, st_pp)
    /\ line_count r = 0
    /\ line_count r_pp = 2 ^ 32.
Proof.
  destruct (compile_pointers_spec 4096 (the_table c_isspace c_iswspace false))
    as (tp & Htp & Hcells).
  exists tp. eexists _, _, _, _. split; [exact Htp|].
  split; [apply parse_chunk_table; reflexivity|].
  split; [apply (parse_chunk_pp_run 4096 (the_table c_isspace c_iswspace false));
          [apply the_table_ok | exact Hcells | reflexivity]|].
  rewrite !line_count_results_of, !landings_run_newlines by reflexivity.
  split; reflexivity.
Qed.

(** * The table of the multibyte mode as a function *)

Lemma table_cells_spec t slo sn blo bn (spec : N -> N -> N) :
  table_cells t slo sn blo bn
  = (fun s => spec s <$> bytes_from blo bn) <$> bytes_from slo sn ->
  forall s c, N.of_nat slo <= s < N.of_nat (slo + sn) ->
              N.of_nat blo <= c < N.of_nat (blo + bn) ->
              entry t s c = spec s c.
Proof.
  intros Heq s c Hs Hc. unfold table_cells in Heq.
  pose proof (fmap_eq_elem _ _ _ Heq s (elem_of_bytes_from _ _ _ Hs)) as Hrow.
  cbv beta in Hrow.
  apply (fmap_eq_elem _ _ _ Hrow c). now apply elem_of_bytes_from.
Qed.

Lemma context_of_cases s :
  s < STATE_MAX ->
  (context_of s = USPACE /\ (s < 2 \/ 4 <= s < 35))
  \/ (context_of s = UWORD /\ (2 <= s < 4 \/ 35 <= s < 66)).
Proof.
  intros Hs. change STATE_MAX with 66 in Hs. unfold context_of.
  change NEWWORD with 2. change USPACE with 4. change UWORD with 35.
  destruct (N.ltb_spec s 2), (N.leb_spec 4 s), (N.ltb_spec s 35); simpl; lia.
Qed.

Lemma takes_lead_cases s :
  takes_lead s = true <-> s < 4 \/ s = USPACE + ILLEGAL \/ s = UWORD + ILLEGAL.
Proof.
  unfold takes_lead. rewrite !orb_true_iff, N.ltb_lt, !N.eqb_eq. tauto.
Qed.

Lemma completing_cont_id id c :
  id <= ILLEGAL -> (completing id = true <-> cont_id id c = None).
Proof.
  intros Hid. change ILLEGAL with 30 in Hid.
  assert (Hcase : id = 0 \/ id = 1 \/ id = 2 \/ id = 3 \/ id = 4 \/ id = 5 \/ id = 6
                  \/ id = 7 \/ id = 8 \/ id = 9 \/ id = 10 \/ id = 11 \/ id = 12
                  \/ id = 13 \/ id = 14 \/ id = 15 \/ id = 16 \/ id = 17 \/ id = 18
                  \/ id = 19 \/ id = 20 \/ id = 21 \/ id = 22 \/ id = 23 \/ id = 24
                  \/ id = 25 \/ id = 26 \/ id = 27 \/ id = 28 \/ id = 29 \/ id = 30)
    by lia.
  repeat (destruct Hcase as [-> | Hcase];
          [vm_compute; split; (discriminate || reflexivity)|]).
  subst id. vm_compute. split; discriminate.
Qed.

Lemma state_id_le s : s < STATE_MAX -> ~ s < 4 -> s - context_of s <= ILLEGAL.
Proof.
  intros Hs Hbase. destruct (context_of_cases s Hs) as [[-> ?] | [-> ?]];
    change USPACE with 4; change UWORD with 35; change ILLEGAL with 30; lia.
Qed.

Lemma state_id_add s : s < STATE_MAX -> ~ s < 4 -> context_of s + (s - context_of s) = s.
Proof.
  intros Hs Hbase. destruct (context_of_cases s Hs) as [[-> ?] | [-> ?]];
    change USPACE with 4; change UWORD with 35; lia.
Qed.

Lemma takes_lead_base s : s < 4 -> takes_lead s = true.
Proof. intros Hs. apply takes_lead_cases. now left. Qed.

(** Away from the last byte of a sequence the transition does not
    depend on the locale. *)
Lemma utf8_next_high isspace iswspace isspace' iswspace' s c :
  s < STATE_MAX -> 0x80 <= c ->
  negb (takes_lead s) && (c <? 0xC0) && completing (s - context_of s) = false ->
  utf8_next isspace iswspace s c = utf8_next isspace' iswspace' s c.
Proof.
  intros Hs Hc Hcase. unfold utf8_next. cbv zeta.
  destruct (N.ltb_spec c 0x80); [lia|].
  destruct (takes_lead s) eqn:Hlead; [reflexivity|].
  destruct (N.leb_spec 0xC0 c); [reflexivity|].
  destruct (N.ltb_spec c 0xC0); [|lia]. cbn [negb andb] in Hcase.
  destruct (cont_id (s - context_of s) c) eqn:Hcont; [reflexivity|].
  assert (Hbase : ~ s < 4)
    by (intros ?; enough (takes_lead s = true) by congruence; now apply takes_lead_base).
  apply (completing_cont_id _ c (state_id_le s Hs Hbase)) in Hcont. congruence.
Qed.

Lemma utf8_next_char_end isspace iswspace s c :
  s < STATE_MAX -> 0x80 <= c ->
  negb (takes_lead s) && (c <? 0xC0) && completing (s - context_of s) = true ->
  utf8_next isspace iswspace s c
  = char_end isspace iswspace (context_of s) (s - context_of s) c
  /\ takes_lead s = false /\ c < 0xC0 /\ completing (s - context_of s) = true.
Proof.
  intros Hs Hc Hcase. apply andb_prop in Hcase as [Hcase Hcompl].
  apply andb_prop in Hcase as [Hlead Hc0].
  apply negb_true_iff in Hlead. apply N.ltb_lt in Hc0.
  repeat apply conj; try assumption.
  unfold utf8_next. cbv zeta. rewrite Hlead.
  destruct (N.ltb_spec c 0x80); [lia|]. destruct (N.leb_spec 0xC0 c); [lia|].
  assert (Hbase : ~ s < 4)
    by (intros ?; enough (takes_lead s = true) by congruence; now apply takes_lead_base).
  apply (completing_cont_id _ c (state_id_le s Hs Hbase)) in Hcompl.
  now rewrite Hcompl.
Qed.

Lemma check_cell (b : bool) (v w : N) : b = false -> b || (v =? w) = true -> v = w.
Proof. intros -> H. now apply N.eqb_eq in H. Qed.

Section AutomatonFacts.

Variable isspace : N -> bool.
Variable iswspace : N -> bool.

Let T := the_table isspace iswspace true.

Lemma ascii_columns :
  table_cells T 0 66 0 128
  = (fun s => (fun c => to_uchar (basic_state isspace (default_of (context_of s))
                                    (context_of s) c)) <$> bytes_from 0 128)
      <$> bytes_from 0 66.
Proof. vm_compute. reflexivity. Qed.

Lemma entry_ascii_column s c :
  s < STATE_MAX -> c < 0x80 -> entry T s c = ascii_step isspace (context_of s) c.
Proof.
  intros Hs Hc. change STATE_MAX with 66 in Hs.
  rewrite (table_cells_spec _ _ _ _ _ _ ascii_columns) by (simpl; lia).
  rewrite basic_state_ascii by assumption. unfold ascii_step.
  destruct (context_of_cases s Hs) as [[-> _] | [-> _]];
    destruct (c =? 10); try reflexivity; destruct (isspace c); reflexivity.
Qed.

(** The cells that hold no value of the locale: every byte from 0x80
    on, but for the last byte of a sequence. *)
Lemma high_columns :
  cells_all T
    (fun s c v =>
       (negb (takes_lead s) && (c <? 0xC0) && completing (s - context_of s))
       || (v =? utf8_next (fun _ => false) (fun _ => false) s c))
    (bytes_from 0 66) (bytes_from 128 128) = true.
Proof. vm_compute. reflexivity. Qed.

Lemma entry_high_column s c :
  s < STATE_MAX -> 0x80 <= c < 256 ->
  (negb (takes_lead s) && (c <? 0xC0) && completing (s - context_of s))
  || (entry T s c =? utf8_next (fun _ => false) (fun _ => false) s c) = true.
Proof.
  intros Hs Hc.
  apply (cells_all_spec _ _ _ _ _ _ high_columns s c).
  - change STATE_MAX with 66 in Hs. change (N.of_nat 0) with 0.
    change (N.of_nat (0 + 66)) with 66. lia.
  - change (N.of_nat 128) with 128. change (N.of_nat (128 + 128)) with 256. lia.
Qed.

Lemma char_end_completed ubase id c :
  completed isspace iswspace ubase id c = char_end isspace iswspace ubase id c.
Proof.
  unfold completed, char_end, default_of.
  destruct (unicode_space_of id c) as [cp|]; [destruct (iswspace cp); [reflexivity|]|];
    destruct (isspace 0); try reflexivity; destruct (ubase =? USPACE); reflexivity.
Qed.

Lemma entry_char_end s c :
  s < STATE_MAX -> ~ s < 4 -> completing (s - context_of s) = true -> 0x80 <= c <= 0xBF ->
  entry T s c = char_end isspace iswspace (context_of s) (s - context_of s) c.
Proof.
  intros Hs Hbase Hcompl Hc. rewrite <- char_end_completed.
  assert (Hload : load T (context_of s + (s - context_of s)) c
                  = Some (completed isspace iswspace (context_of s)
                            (s - context_of s) c)).
  { apply load_completed; [|assumption|lia].
    destruct (context_of_cases s Hs) as [[-> _] | [-> _]]; [now left|now right]. }
  rewrite state_id_add in Hload by assumption.
  unfold entry. rewrite Hload. reflexivity.
Qed.

Lemma entry_utf8_next s c :
  s < STATE_MAX -> c < 256 -> entry T s c = utf8_next isspace iswspace s c.
Proof.
  intros Hs Hc.
  destruct (N.ltb_spec c 0x80) as [Hlo | Hhi].
  - rewrite entry_ascii_column by assumption. unfold utf8_next. cbv zeta.
    destruct (N.ltb_spec c 0x80); [reflexivity|lia].
  - pose proof (entry_high_column s c Hs (conj Hhi Hc)) as Hcell.
    destruct (negb (takes_lead s) && (c <? 0xC0) && completing (s - context_of s))
      eqn:Hcase.
    + destruct (utf8_next_char_end isspace iswspace s c Hs Hhi Hcase)
        as (-> & Hlead & Hc0 & Hcompl).
      apply entry_char_end; [assumption| |assumption|lia].
      intros ?. enough (takes_lead s = true) by congruence. now apply takes_lead_base.
    + rewrite (utf8_next_high isspace iswspace (fun _ => false) (fun _ => false))
        by assumption.
      exact (check_cell _ _ _ eq_refl Hcell).
Qed.

End AutomatonFacts.

(** X1.  In the multibyte mode and every locale, every cell of the
    first [STATE_MAX] rows of the table holds the transition
    [utf8_next]: a byte of ASCII leads to [NEWLINE], to [WASSPACE] or
    to the word state of the context; a lead byte opens a sequence from
    a base state or from [ILLEGAL] and is illegal inside a sequence; a
    continuation byte is illegal outside a sequence, moves on inside
    one, and as its last byte leads back to a base state. *)
Theorem multibyte_table_function isspace iswspace s c :
  s < STATE_MAX -> c < 256 ->
  load (the_table isspace iswspace true) s c = Some (utf8_next isspace iswspace s c).
Proof.
  intros Hs Hc.
  pose proof (table_ok_entry (the_table isspace iswspace true) s c
                (the_table_ok isspace iswspace true)
                ltac:(change STATE_MAX with 66 in Hs; lia) Hc) as [Hload _].
  rewrite Hload. apply (f_equal Some). now apply entry_utf8_next.
Qed.

Lemma multibyte_table_function_witness :
  USPACE + TRI3_E3_80 < STATE_MAX /\ 0x80 < 256 /\
  load (the_table c_isspace u_iswspace true) (USPACE + TRI3_E3_80) 0x80
  = Some (utf8_next c_isspace u_iswspace (USPACE + TRI3_E3_80) 0x80).
Proof.
  assert (H1 : USPACE + TRI3_E3_80 < STATE_MAX) by reflexivity.
  assert (H2 : 0x80 < 256) by reflexivity.
  split; [exact H1|]. split; [exact H2|].
  exact (multibyte_table_function c_isspace u_iswspace (USPACE + TRI3_E3_80) 0x80 H1 H2).
Defined.

(** ** The illegal state and the states inside a sequence *)

Lemma sequence_state ubase id :
  ubase = USPACE \/ ubase = UWORD -> id < ILLEGAL ->
  ubase + id < STATE_MAX /\ context_of (ubase + id) = ubase
  /\ takes_lead (ubase + id) = false.
Proof.
  intros Hu Hid. change ILLEGAL with 30 in Hid. unfold context_of, takes_lead.
  change STATE_MAX with 66. change NEWWORD with 2. change ILLEGAL with 30.
  destruct Hu as [-> | ->]; change UWORD with 35; change USPACE with 4;
    (split; [lia|]);
    [destruct (N.ltb_spec (4 + id) 2), (N.leb_spec 4 (4 + id)), (N.ltb_spec (4 + id) 35),
              (N.ltb_spec (4 + id) 4), (N.eqb_spec (4 + id) (4 + 30)),
              (N.eqb_spec (4 + id) (35 + 30))
    |destruct (N.ltb_spec (35 + id) 2), (N.leb_spec 4 (35 + id)),
              (N.ltb_spec (35 + id) 35), (N.ltb_spec (35 + id) 4),
              (N.eqb_spec (35 + id) (4 + 30)), (N.eqb_spec (35 + id) (35 + 30))];
    cbn [orb andb]; split; (reflexivity || lia).
Qed.

Lemma completing_lt id : completing id = true -> id < ILLEGAL.
Proof.
  unfold completing. change DUO2_C2 with 1. change TRI3_xx_xx with 20.
  change QUAD4_F4_xx_xx with 29. change ILLEGAL with 30.
  destruct (N.leb_spec id 1), (N.leb_spec id 20), (N.leb_spec id 29);
    rewrite ?andb_false_r; cbn [orb]; (discriminate || lia).
Qed.

Section Sequences.

Variable isspace : N -> bool.
Variable iswspace : N -> bool.

Let T := the_table isspace iswspace true.

Lemma load_utf8_next s c :
  s < STATE_MAX -> c < 256 -> load T s c = Some (utf8_next isspace iswspace s c).
Proof.
  intros Hs Hc.
  pose proof (table_ok_entry T s c (the_table_ok isspace iswspace true)
                ltac:(change STATE_MAX with 66 in Hs; lia) Hc) as [Hload _].
  rewrite Hload. apply (f_equal Some). now apply entry_utf8_next.
Qed.

(** Inside a sequence a byte of ASCII is taken as in the base state of
    the context. *)
Lemma load_sequence_ascii id c :
  id < ILLEGAL -> c < 0x80 ->
  load T (USPACE + id) c = load T WASSPACE c
  /\ load T (UWORD + id) c = load T WASWORD c.
Proof.
  intros Hid Hc.
  destruct (sequence_state USPACE id (or_introl eq_refl) Hid) as (Hs1 & Hc1 & _).
  destruct (sequence_state UWORD id (or_intror eq_refl) Hid) as (Hs2 & Hc2 & _).
  rewrite !load_utf8_next by (assumption || reflexivity || lia).
  unfold utf8_next. cbv zeta. rewrite Hc1, Hc2.
  destruct (N.ltb_spec c 0x80); [|lia]. split; reflexivity.
Qed.

(** Inside a sequence a lead byte, and every other byte from 0xC0 on,
    is illegal. *)
Lemma load_sequence_lead ubase id c :
  ubase = USPACE \/ ubase = UWORD -> id < ILLEGAL -> 0xC0 <= c <= 0xFF ->
  load T (ubase + id) c = Some (ubase + ILLEGAL).
Proof.
  intros Hu Hid Hc.
  destruct (sequence_state ubase id Hu Hid) as (Hs & Hctx & Hlead).
  rewrite load_utf8_next by (assumption || lia).
  unfold utf8_next. cbv zeta. rewrite Hctx, Hlead.
  destruct (N.ltb_spec c 0x80); [lia|]. destruct (N.leb_spec 0xC0 c); [reflexivity|lia].
Qed.

End Sequences.

(** C5, amended.  In the table of the multibyte mode: from the
    [ILLEGAL] state of either context every continuation byte leads
    back to that state; on the bytes of ASCII and on the lead bytes the
    [ILLEGAL] state is mapped as the base state of its context; a state
    inside a sequence, and so each state that waits for the last
    continuation byte, is mapped as the base state of its context on
    the bytes of ASCII only: every byte from 0xC0 on, the lead bytes
    among them, leads from it to the [ILLEGAL] state of the context;
    the last continuation byte of a sequence leads to one of the four
    base states; and the base states map the bytes of ASCII as the
    four-state automaton of the ASCII mode does. *)
Theorem illegal_never_recovers isspace iswspace :
  (forall ubase c,
     ubase = USPACE \/ ubase = UWORD -> 0x80 <= c <= 0xBF ->
     load (the_table isspace iswspace true) (ubase + ILLEGAL) c
     = Some (ubase + ILLEGAL))
  /\ (forall c,
        c < 0x80 \/ 0xC0 <= c <= 0xFF ->
        load (the_table isspace iswspace true) (USPACE + ILLEGAL) c
        = load (the_table isspace iswspace true) WASSPACE c
        /\ load (the_table isspace iswspace true) (UWORD + ILLEGAL) c
           = load (the_table isspace iswspace true) WASWORD c)
  /\ (forall id, completing id = true -> id < ILLEGAL)
  /\ (forall id c,
        id < ILLEGAL -> c < 0x80 ->
        load (the_table isspace iswspace true) (USPACE + id) c
        = load (the_table isspace iswspace true) WASSPACE c
        /\ load (the_table isspace iswspace true) (UWORD + id) c
           = load (the_table isspace iswspace true) WASWORD c)
  /\ (forall ubase id c,
        ubase = USPACE \/ ubase = UWORD -> id < ILLEGAL -> 0xC0 <= c <= 0xFF ->
        load (the_table isspace iswspace true) (ubase + id) c = Some (ubase + ILLEGAL))
  /\ (forall ubase id c,
        ubase = USPACE \/ ubase = UWORD -> completing id = true -> 0x80 <= c <= 0xBF ->
        exists s, load (the_table isspace iswspace true) (ubase + id) c = Some s
                  /\ s < 4)
  /\ (forall s c,
        s < 4 -> c < 0x80 ->
        load (the_table isspace iswspace true) s c = Some (ascii_next isspace s c)
        /\ load (the_table isspace iswspace true) s c
           = load (the_table isspace iswspace false) s c).
Proof.
  split; [|split; [|split; [|split; [|split; [|split]]]]].
  - intros ubase c Hu Hc. now apply load_ILLEGAL_continuation.
  - intros c Hc. unfold load.
    rewrite row_USPACE_ILLEGAL, row_UWORD_ILLEGAL, row_WASSPACE, row_WASWORD.
    split; reflexivity.
  - exact completing_lt.
  - intros id c Hid Hc. now apply load_sequence_ascii.
  - intros ubase id c Hu Hid Hc. now apply load_sequence_lead.
  - intros ubase id c Hu Hid Hc. exists (completed isspace iswspace ubase id c).
    split; [now apply load_completed | apply completed_lt].
  - intros s c Hs Hc.
    pose proof (table_ok_entry (the_table isspace iswspace true) s c
                  (the_table_ok _ _ _) ltac:(lia) ltac:(lia)) as [Hmb _].
    pose proof (table_ok_entry (the_table isspace iswspace false) s c
                  (the_table_ok _ _ _) ltac:(lia) ltac:(lia)) as [Hascii _].
    rewrite Hmb, Hascii, entry_multibyte_ascii, entry_ascii_table by (assumption || lia).
    split; reflexivity.
Qed.

Lemma illegal_never_recovers_witness :
  ((UWORD = USPACE \/ UWORD = UWORD) /\ 0x80 <= 0x80 <= 0xBF
   /\ load (the_table c_isspace c_iswspace true) (UWORD + ILLEGAL) 0x80
      = Some (UWORD + ILLEGAL))
  /\ ((0x41 < 0x80 \/ 0xC0 <= 0x41 <= 0xFF)
      /\ load (the_table c_isspace c_iswspace true) (USPACE + ILLEGAL) 0x41
         = load (the_table c_isspace c_iswspace true) WASSPACE 0x41)
  /\ (completing TRI3_E1_9a = true /\ TRI3_E1_9a < ILLEGAL /\ 0x41 < 0x80
      /\ 0xC0 <= 0xE2 <= 0xFF
      /\ load (the_table c_isspace c_iswspace true) (USPACE + TRI3_E1_9a) 0x41
         = load (the_table c_isspace c_iswspace true) WASSPACE 0x41
      /\ load (the_table c_isspace c_iswspace true) (USPACE + TRI3_E1_9a) 0xE2
         = Some (USPACE + ILLEGAL)
      /\ exists s, load (the_table c_isspace c_iswspace true) (USPACE + TRI3_E1_9a) 0x80
                   = Some s /\ s < 4)
  /\ (NEWWORD < 4 /\ 0x20 < 0x80
      /\ load (the_table c_isspace c_iswspace true) NEWWORD 0x20
         = Some (ascii_next c_isspace NEWWORD 0x20)).
Proof.
  pose proof (illegal_never_recovers c_isspace c_iswspace)
    as (H1 & H2 & H3 & H4 & H5 & H6 & H7).
  assert (Hu : UWORD = USPACE \/ UWORD = UWORD) by now right.
  assert (Hc : 0x80 <= 0x80 <= 0xBF) by (split; discriminate).
  assert (Ha : 0x41 < 0x80 \/ 0xC0 <= 0x41 <= 0xFF) by now left.
  assert (Hid : completing TRI3_E1_9a = true) by reflexivity.
  assert (Hlt : TRI3_E1_9a < ILLEGAL) by exact (H3 TRI3_E1_9a Hid).
  assert (Hlo : 0x41 < 0x80) by reflexivity.
  assert (Hhi : 0xC0 <= 0xE2 <= 0xFF) by (split; discriminate).
  assert (Hs : NEWWORD < 4) by reflexivity.
  assert (Hb : 0x20 < 0x80) by reflexivity.
  split; [|split; [|split]].
  - split; [exact Hu|]. split; [exact Hc|]. exact (H1 UWORD 0x80 Hu Hc).
  - split; [exact Ha|]. exact (proj1 (H2 0x41 Ha)).
  - split; [exact Hid|]. split; [exact Hlt|]. split; [exact Hlo|]. split; [exact Hhi|].
    split; [exact (proj1 (H4 TRI3_E1_9a 0x41 Hlt Hlo))|].
    split; [exact (H5 USPACE TRI3_E1_9a 0xE2 (or_introl eq_refl) Hlt Hhi)|].
    exact (H6 USPACE TRI3_E1_9a 0x80 (or_introl eq_refl) Hid Hc).
  - split; [exact Hs|]. split; [exact Hb|]. exact (proj1 (H7 NEWWORD 0x20 Hs Hb)).
Defined.

(** C5 as stated fails on the lead bytes: the state that waits for the
    second byte of a two-byte sequence takes the lead byte 0xE2 to the
    [ILLEGAL] state, while the base state of its context opens a
    three-byte sequence on it. *)
Lemma lead_byte_inside_sequence :
  completing DUO2_xx = true
  /\ load (the_table c_isspace c_iswspace true) (USPACE + DUO2_xx) 0xE2
     = Some (USPACE + ILLEGAL)
  /\ load (the_table c_isspace c_iswspace true) WASSPACE 0xE2 = Some (USPACE + TRI2_E2)
  /\ USPACE + ILLEGAL <> USPACE + TRI2_E2.
Proof. repeat split; vm_compute; (reflexivity || discriminate). Qed.

(** * Lines and words *)

Lemma count_bytes_le p buf : count_bytes p buf <= N.of_nat (length buf).
Proof.
  induction buf as [|b buf IH]; [reflexivity|].
  simpl count_bytes. simpl length. destruct (p (Byte.to_N b)); lia.
Qed.

Lemma entered_lt is_multibyte st : entered is_multibyte st -> st < STATE_MAX.
Proof. unfold entered. change STATE_MAX with 66. destruct is_multibyte; lia. Qed.

Lemma final_base st trace :
  st < 4 -> Forall (fun s => s < 4) trace -> final st trace < 4.
Proof.
  intros Hst Htrace. revert st Hst.
  induction Htrace as [|s trace Hs _ IH]; intros st Hst; [exact Hst|].
  rewrite final_cons. now apply IH.
Qed.

(** Two tables that agree with [next] on the base states and the bytes
    of ASCII run alike on a buffer of ASCII bytes. *)
Lemma run_agree (t1 t2 : Table) (next : N -> N -> N) s buf :
  (forall s c, next s c < 4) ->
  (forall s c, s < 4 -> c < 128 -> entry t1 s c = next s c /\ entry t2 s c = next s c) ->
  s < 4 -> forallb is_ascii buf = true ->
  run t1 s buf = run t2 s buf.
Proof.
  intros Hnext Hagree. revert s.
  induction buf as [|b buf IH]; intros s Hs Hascii; [reflexivity|].
  apply andb_prop in Hascii as [Hb Hrest]. apply N.ltb_lt in Hb.
  destruct (Hagree s (Byte.to_N b) Hs Hb) as [He1 He2].
  rewrite !run_cons, He1, He2. f_equal. now apply IH.
Qed.

Section LinesAndWords.

Variable isspace : N -> bool.
Variable iswspace : N -> bool.

Lemma ascii_next_newline s c : ascii_next isspace s c = NEWLINE <-> c = 10.
Proof.
  unfold ascii_next. destruct (N.eqb_spec c 10) as [-> | Hc]; [tauto|].
  destruct (isspace c); [split; [discriminate|tauto]|].
  destruct ((s =? WASSPACE) || (s =? NEWLINE)); split; (discriminate || tauto).
Qed.

Lemma char_end_lt ubase id c : char_end isspace iswspace ubase id c < 4.
Proof. rewrite <- char_end_completed. apply completed_lt. Qed.

Lemma char_end_newline ubase id c : char_end isspace iswspace ubase id c <> NEWLINE.
Proof.
  unfold char_end, default_of.
  destruct (unicode_space_of id c) as [cp|]; [destruct (iswspace cp); [discriminate|]|];
    destruct (isspace 0); try discriminate; destruct (ubase =? USPACE); discriminate.
Qed.

Lemma utf8_next_newline s c :
  s < STATE_MAX -> utf8_next isspace iswspace s c = NEWLINE <-> c = 10.
Proof.
  intros Hs. unfold utf8_next. cbv zeta.
  assert (Hctx : 4 <= context_of s)
    by (destruct (context_of_cases s Hs) as [[-> _] | [-> _]]; vm_compute; discriminate).
  change NEWLINE with 1.
  destruct (N.ltb_spec c 0x80) as [Hlo | Hhi].
  - unfold ascii_step, default_of. destruct (N.eqb_spec c 10) as [-> | Hc]; [tauto|].
    destruct (isspace c); [split; [discriminate|tauto]|].
    destruct (context_of s =? USPACE); split; (discriminate || tauto).
  - assert (Hne : c <> 10) by lia.
    destruct (takes_lead s); [destruct (c <? 0xC0); split; intros; lia|].
    destruct (0xC0 <=? c); [split; intros; lia|].
    destruct (cont_id (s - context_of s) c); [split; intros; lia|].
    split; [|tauto]. intros H. now apply char_end_newline in H.
Qed.

Lemma entry_entered is_multibyte st c :
  entered is_multibyte st -> c < 256 ->
  entered is_multibyte (entry (the_table isspace iswspace is_multibyte) st c)
  /\ (entry (the_table isspace iswspace is_multibyte) st c = NEWLINE <-> c = 10).
Proof.
  intros Hst Hc. destruct is_multibyte; unfold entered in *.
  - split; [apply entry_lt, the_table_ok|].
    rewrite entry_utf8_next by assumption. now apply utf8_next_newline.
  - rewrite entry_ascii_table by assumption.
    split; [apply ascii_next_lt|apply ascii_next_newline].
Qed.

Lemma landings_newline is_multibyte st buf :
  entered is_multibyte st ->
  landings NEWLINE (run (the_table isspace iswspace is_multibyte) st buf)
  = count_bytes is_newline buf.
Proof.
  revert st. induction buf as [|b buf IH]; intros st Hst; [reflexivity|].
  destruct (entry_entered is_multibyte st (Byte.to_N b) Hst (byte_lt b)) as [Hnext Hnl].
  rewrite run_cons, landings_cons, (IH _ Hnext). simpl count_bytes.
  change (is_newline (Byte.to_N b)) with (Byte.to_N b =? 10). f_equal.
  destruct (N.eqb_spec (Byte.to_N b) 10) as [Hb | Hb]; case_decide; try reflexivity; tauto.
Qed.

Lemma landings_newword s buf :
  s < 4 ->
  landings NEWWORD (run (the_table isspace iswspace false) s buf)
  = word_starts isspace (s <? NEWWORD) buf.
Proof.
  revert s. induction buf as [|b buf IH]; intros s Hs; [reflexivity|].
  rewrite run_cons, landings_cons.
  rewrite entry_ascii_table by (try assumption; apply byte_lt).
  rewrite IH by apply ascii_next_lt. simpl word_starts. unfold separates.
  assert (Hcase : s = 0 \/ s = 1 \/ s = 2 \/ s = 3) by lia.
  unfold ascii_next. change NEWWORD with 2. change WASSPACE with 0.
  change NEWLINE with 1. change WASWORD with 3.
  destruct (Byte.to_N b =? 10); [rewrite decide_False by discriminate;
    cbn [orb negb]; now rewrite andb_false_r|].
  destruct (isspace (Byte.to_N b)); [rewrite decide_False by discriminate;
    cbn [orb negb]; now rewrite andb_false_r|].
  cbn [orb negb]. rewrite andb_true_r.
  destruct Hcase as [-> | [-> | [-> | ->]]]; cbn [N.eqb Pos.eqb orb];
    [rewrite decide_True by reflexivity|rewrite decide_True by reflexivity
    |rewrite decide_False by discriminate|rewrite decide_False by discriminate];
    reflexivity.
Qed.

Lemma entry_ascii_input s c :
  s < 4 -> c < 128 ->
  entry (the_table isspace iswspace true) s c = ascii_next isspace s c
  /\ entry (the_table isspace iswspace false) s c = ascii_next isspace s c.
Proof.
  intros Hs Hc. split.
  - rewrite entry_multibyte_ascii by assumption. reflexivity.
  - rewrite entry_ascii_table by (try assumption; lia). reflexivity.
Qed.

Lemma run_ascii_input s buf :
  s < 4 -> forallb is_ascii buf = true ->
  run (the_table isspace iswspace true) s buf
  = run (the_table isspace iswspace false) s buf.
Proof.
  intros Hs Hascii.
  apply (run_agree (the_table isspace iswspace true) (the_table isspace iswspace false)
           (ascii_next isspace) s buf); try assumption.
  - apply ascii_next_lt.
  - intros s' c Hs' Hc. now apply entry_ascii_input.
Qed.

End LinesAndWords.

(** X2.  In either mode and every locale, for a buffer shorter than
    2^32 bytes entered in a state of the automaton, [line_count] is the
    number of newline bytes of the buffer, wherever they stand: inside
    or outside well-formed UTF-8. *)
Theorem line_count_newlines isspace iswspace is_multibyte junk buf st :
  entered is_multibyte st ->
  N.of_nat (length buf) < 2 ^ 32 ->
  exists r st',
    parse_chunk (the_table isspace iswspace is_multibyte) junk buf st = Some (r, st')
    /\ line_count r = count_bytes is_newline buf.
Proof.
  intros Hst Hlen. eexists _, _. split.
  - apply parse_chunk_table. now apply entered_lt in Hst.
  - rewrite results_of_small by now rewrite length_run.
    cbn [line_count]. now apply landings_newline.
Qed.

Lemma line_count_newlines_witness :
  entered true (USPACE + TRI2_E2) /\
  N.of_nat (length [Byte.x0a; Byte.x82; Byte.x0a; Byte.x61]) < 2 ^ 32 /\
  exists r st',
    parse_chunk (the_table c_isspace c_iswspace true) (fun _ => 3)
      [Byte.x0a; Byte.x82; Byte.x0a; Byte.x61] (USPACE + TRI2_E2) = Some (r, st')
    /\ line_count r = 2.
Proof.
  assert (H1 : entered true (USPACE + TRI2_E2)) by reflexivity.
  assert (H2 : N.of_nat (length [Byte.x0a; Byte.x82; Byte.x0a; Byte.x61]) < 2 ^ 32)
    by reflexivity.
  split; [exact H1|]. split; [exact H2|].
  exact (line_count_newlines c_isspace c_iswspace true (fun _ => 3)
           [Byte.x0a; Byte.x82; Byte.x0a; Byte.x61] (USPACE + TRI2_E2) H1 H2).
Defined.

(** X3.  With the table of the single-byte mode, for a buffer shorter
    than 2^32 bytes entered in a base state, [word_count] is the number
    of bytes that begin a word: bytes that are neither a newline nor a
    space of the locale and that follow such a byte, or open the buffer
    when it is entered in [WASSPACE] or [NEWLINE]. *)
Theorem word_count_word_starts isspace iswspace junk buf st :
  st < 4 ->
  N.of_nat (length buf) < 2 ^ 32 ->
  exists r st',
    parse_chunk (the_table isspace iswspace false) junk buf st = Some (r, st')
    /\ word_count r = word_starts isspace (st <? NEWWORD) buf.
Proof.
  intros Hst Hlen. eexists _, _. split.
  - apply parse_chunk_table. change STATE_MAX with 66. lia.
  - rewrite results_of_small by now rewrite length_run.
    cbn [word_count]. now apply landings_newword.
Qed.

Lemma word_count_word_starts_witness :
  WASWORD < 4 /\
  N.of_nat (length [Byte.x61; Byte.x20; Byte.x0a; Byte.x62; Byte.x09; Byte.xe9]) < 2 ^ 32 /\
  exists r st',
    parse_chunk (the_table c_isspace c_iswspace false) (fun _ => 0)
      [Byte.x61; Byte.x20; Byte.x0a; Byte.x62; Byte.x09; Byte.xe9] WASWORD = Some (r, st')
    /\ word_count r = 2.
Proof.
  assert (H1 : WASWORD < 4) by reflexivity.
  assert (H2 : N.of_nat (length [Byte.x61; Byte.x20; Byte.x0a; Byte.x62; Byte.x09;
                                 Byte.xe9]) < 2 ^ 32) by reflexivity.
  split; [exact H1|]. split; [exact H2|].
  exact (word_count_word_starts c_isspace c_iswspace (fun _ => 0)
           [Byte.x61; Byte.x20; Byte.x0a; Byte.x62; Byte.x09; Byte.xe9] WASWORD H1 H2).
Defined.

(** X4.  On a buffer of ASCII bytes entered in a base state the two
    modes agree: the chunk processor returns the same results and the
    same outbound state with the table of the multibyte mode as with the
    table of the single-byte mode, whatever the stack held. *)
Theorem ascii_input_same_in_both_modes isspace iswspace junk junk' buf st :
  st < 4 -> forallb is_ascii buf = true ->
  parse_chunk (the_table isspace iswspace true) junk buf st
  = parse_chunk (the_table isspace iswspace false) junk' buf st
  /\ exists r st',
       parse_chunk (the_table isspace iswspace true) junk buf st = Some (r, st')
       /\ st' < 4.
Proof.
  intros Hst Hascii.
  assert (Hst' : st < STATE_MAX) by (change STATE_MAX with 66; lia).
  rewrite !parse_chunk_table by assumption.
  rewrite run_ascii_input by assumption. split; [reflexivity|].
  eexists _, _. split; [reflexivity|].
  pose proof (run_base isspace iswspace false st buf Hst (or_introl eq_refl)) as Hrun.
  apply (final_base st (run (the_table isspace iswspace false) st buf) Hst Hrun).
Qed.

Lemma ascii_input_same_in_both_modes_witness :
  WASSPACE < 4 /\
  forallb is_ascii [Byte.x61; Byte.x20; Byte.x62; Byte.x0a] = true /\
  parse_chunk (the_table c_isspace c_iswspace true) (fun _ => 1)
    [Byte.x61; Byte.x20; Byte.x62; Byte.x0a] WASSPACE
  = parse_chunk (the_table c_isspace c_iswspace false) (fun _ => 2)
      [Byte.x61; Byte.x20; Byte.x62; Byte.x0a] WASSPACE
  /\ exists r st',
       parse_chunk (the_table c_isspace c_iswspace true) (fun _ => 1)
         [Byte.x61; Byte.x20; Byte.x62; Byte.x0a] WASSPACE = Some (r, st')
       /\ st' < 4.
Proof.
  assert (H1 : WASSPACE < 4) by reflexivity.
  assert (H2 : forallb is_ascii [Byte.x61; Byte.x20; Byte.x62; Byte.x0a] = true)
    by reflexivity.
  split; [exact H1|]. split; [exact H2|].
  exact (ascii_input_same_in_both_modes c_isspace c_iswspace (fun _ => 1) (fun _ => 2)
           [Byte.x61; Byte.x20; Byte.x62; Byte.x0a] WASSPACE H1 H2).
Defined.

(** * Well-formed UTF-8 in the multibyte mode *)

Lemma forallb_bytes_from (f : N -> bool) lo n :
  forallb f (bytes_from lo n) = true ->
  forall c, N.of_nat lo <= c < N.of_nat (lo + n) -> f c = true.
Proof. intros Hall c Hc. exact (forallb_range f lo n Hall c Hc). Qed.

(** The states that the bytes of a well-formed character go through,
    checked on every sequence of two bytes, on every sequence of three
    and on the first three of every sequence of four. *)
Lemma two_byte_paths :
  forallb (fun b1 => forallb (fun b2 =>
    (lead_id b1 <=? DUO2_C2)
    && match unicode_space_of (lead_id b1) b2 with
       | Some cp =>
           space_candidate (N.lor (N.shiftl (N.land b1 0x1F) 6) (N.land b2 0x3F))
           && (cp =? N.lor (N.shiftl (N.land b1 0x1F) 6) (N.land b2 0x3F))
       | None =>
           negb (space_candidate (N.lor (N.shiftl (N.land b1 0x1F) 6) (N.land b2 0x3F)))
       end)
    (bytes_from 0x80 64)) (bytes_from 0xC2 30) = true.
Proof. vm_compute. reflexivity. Qed.

Lemma three_byte_paths :
  forallb (fun b1 => forallb (fun b2 => forallb (fun b3 =>
    implb ((b1 =? 0xE0) && in_range 0xA0 0xBF b2
           || in_range 0xE1 0xEC b1 && is_cont b2
           || (b1 =? 0xED) && in_range 0x80 0x9F b2
           || in_range 0xEE 0xEF b1 && is_cont b2)
      ((TRI2_E0 <=? lead_id b1) && (lead_id b1 <=? TRI2_xx)
       && match cont_id (lead_id b1) b2 with
          | Some id2 =>
              (TRI3_E0_xx <=? id2) && (id2 <=? TRI3_xx_xx)
              && match unicode_space_of id2 b3 with
                 | Some cp =>
                     space_candidate
                       (N.lor (N.shiftl (N.land b1 0x0F) 12)
                          (N.lor (N.shiftl (N.land b2 0x3F) 6) (N.land b3 0x3F)))
                     && (cp =? N.lor (N.shiftl (N.land b1 0x0F) 12)
                                 (N.lor (N.shiftl (N.land b2 0x3F) 6) (N.land b3 0x3F)))
                 | None =>
                     negb (space_candidate
                             (N.lor (N.shiftl (N.land b1 0x0F) 12)
                                (N.lor (N.shiftl (N.land b2 0x3F) 6) (N.land b3 0x3F))))
                 end
          | None => false
          end))
    (bytes_from 0x80 64)) (bytes_from 0x80 64)) (bytes_from 0xE0 16) = true.
Proof. vm_compute. reflexivity. Qed.

Lemma four_byte_paths :
  forallb (fun b1 => forallb (fun b2 => forallb (fun b3 =>
    implb ((b1 =? 0xF0) && in_range 0x90 0xBF b2
           || in_range 0xF1 0xF3 b1 && is_cont b2
           || (b1 =? 0xF4) && in_range 0x80 0x8F b2)
      ((QUAD2_xx <=? lead_id b1) && (lead_id b1 <=? QUAD2_F4)
       && (0x10000 <=? N.lor (N.shiftl (N.land b1 0x07) 18) (N.shiftl (N.land b2 0x3F) 12))
       && match cont_id (lead_id b1) b2 with
          | Some id2 =>
              (QUAD3_xx_xx <=? id2) && (id2 <=? QUAD3_F4_xx)
              && match cont_id id2 b3 with
                 | Some id3 => (QUAD4_xx_xx_xx <=? id3) && (id3 <=? QUAD4_F4_xx_xx)
                 | None => false
                 end
          | None => false
          end))
    (bytes_from 0x80 64)) (bytes_from 0x80 64)) (bytes_from 0xF0 5) = true.
Proof. vm_compute. reflexivity. Qed.

Lemma lor_ge_l a b : a <= N.lor a b.
Proof.
  assert (H : N.lor a b = a + N.ldiff b a).
  { rewrite N.add_nocarry_lxor.
    - apply N.bits_inj. intros n.
      rewrite N.lor_spec, N.lxor_spec, N.ldiff_spec.
      destruct (N.testbit a n), (N.testbit b n); reflexivity.
    - apply N.bits_inj. intros n.
      rewrite N.land_spec, N.ldiff_spec, N.bits_0.
      destruct (N.testbit a n), (N.testbit b n); reflexivity. }
  lia.
Qed.

Lemma space_candidate_above cp : 0x3000 < cp -> space_candidate cp = false.
Proof.
  intros Hcp. unfold space_candidate, in_range.
  repeat match goal with
         | |- context [?x =? ?y] => destruct (N.eqb_spec x y); [lia|]
         end.
  destruct (N.leb_spec cp 0x200B); [lia|]. now rewrite andb_false_r.
Qed.

Lemma unicode_space_of_last id c :
  QUAD4_xx_xx_xx <= id -> unicode_space_of id c = None.
Proof.
  change QUAD4_xx_xx_xx with 27. intros Hid. unfold unicode_space_of.
  change DUO2_C2 with 1. change TRI3_E1_9a with 11. change TRI3_E2_80 with 12.
  change TRI3_E2_81 with 13. change TRI3_E3_80 with 15.
  repeat match goal with
         | |- context [id =? ?y] => destruct (N.eqb_spec id y); [lia|]
         end.
  reflexivity.
Qed.

Lemma in_range_spec lo hi b : in_range lo hi b = true <-> lo <= b <= hi.
Proof. unfold in_range. rewrite andb_true_iff, !N.leb_le. tauto. Qed.

Lemma is_cont_spec b : is_cont b = true <-> 0x80 <= b <= 0xBF.
Proof. apply in_range_spec. Qed.

Lemma cont_id_last id c :
  id <= 1 \/ 9 <= id <= 20 \/ 27 <= id <= 29 -> cont_id id c = None.
Proof.
  intros Hid. apply completing_cont_id; [change ILLEGAL with 30; lia|].
  unfold completing.
  change DUO2_C2 with 1. change TRI3_E0_xx with 9. change TRI3_xx_xx with 20.
  change QUAD4_xx_xx_xx with 27. change QUAD4_F4_xx_xx with 29.
  destruct (N.leb_spec id 1), (N.leb_spec 9 id), (N.leb_spec id 20),
           (N.leb_spec 27 id), (N.leb_spec id 29); simpl; try reflexivity; lia.
Qed.

Section Utf8Run.

Variable isspace : N -> bool.
Variable iswspace : N -> bool.
Variable t : Table.

Hypothesis Ht :
  forall s c, s < STATE_MAX -> c < 256 -> entry t s c = utf8_next isspace iswspace s c.

Lemma step_ascii s c :
  s < 4 -> c < 0x80 -> entry t s c = ascii_step isspace (context_of s) c.
Proof.
  intros Hs Hc. rewrite Ht by (change STATE_MAX with 66; lia).
  unfold utf8_next. cbv zeta. destruct (N.ltb_spec c 0x80); [reflexivity|lia].
Qed.

Lemma step_lead s c :
  s < 4 -> 0xC0 <= c < 256 -> entry t s c = context_of s + lead_id c.
Proof.
  intros Hs Hc. rewrite Ht by (change STATE_MAX with 66; lia).
  unfold utf8_next. cbv zeta. rewrite (takes_lead_base s Hs).
  destruct (N.ltb_spec c 0x80); [lia|]. destruct (N.ltb_spec c 0xC0); [lia|reflexivity].
Qed.

Lemma context_of_base s : s < 4 -> context_of s = USPACE \/ context_of s = UWORD.
Proof.
  intros Hs. destruct (context_of_cases s) as [[-> _] | [-> _]]; [|now left|now right].
  change STATE_MAX with 66. lia.
Qed.

Lemma step_cont ubase id c :
  ubase = USPACE \/ ubase = UWORD -> id < ILLEGAL -> 0x80 <= c <= 0xBF ->
  entry t (ubase + id) c
  = match cont_id id c with
    | Some id' => ubase + id'
    | None => char_end isspace iswspace ubase id c
    end.
Proof.
  intros Hu Hid Hc. change ILLEGAL with 30 in Hid.
  assert (Hs : ubase + id < STATE_MAX)
    by (change STATE_MAX with 66; destruct Hu as [-> | ->];
        change USPACE with 4; change UWORD with 35; lia).
  rewrite Ht by (try assumption; lia). unfold utf8_next. cbv zeta.
  assert (Hctx : context_of (ubase + id) = ubase).
  { destruct (context_of_cases _ Hs) as [[-> Hr] | [-> Hr]];
      destruct Hu as [-> | ->]; try reflexivity;
      change USPACE with 4 in *; change UWORD with 35 in *; lia. }
  assert (Hlead : takes_lead (ubase + id) = false).
  { destruct (takes_lead (ubase + id)) eqn:H; [|reflexivity].
    apply takes_lead_cases in H.
    destruct Hu as [-> | ->]; change USPACE with 4 in *; change UWORD with 35 in *;
      change ILLEGAL with 30 in *; lia. }
  rewrite Hctx, Hlead. replace (ubase + id - ubase) with id by lia.
  destruct (N.ltb_spec c 0x80); [lia|]. destruct (N.leb_spec 0xC0 c); [lia|reflexivity].
Qed.

Lemma char_end_state ubase id c cp :
  match unicode_space_of id c with
  | Some cp' => space_candidate cp && (cp' =? cp)
  | None => negb (space_candidate cp)
  end = true ->
  char_end isspace iswspace ubase id c
  = if isspace 0 then WASSPACE
    else if space_candidate cp && iswspace cp then WASSPACE
    else default_of ubase.
Proof.
  intros H. unfold char_end.
  destruct (unicode_space_of id c) as [cp'|].
  - apply andb_prop in H as [-> H]. apply N.eqb_eq in H as ->. cbn [andb].
    destruct (isspace 0), (iswspace cp); reflexivity.
  - apply negb_true_iff in H as ->. cbn [andb]. destruct (isspace 0); reflexivity.
Qed.

(** The states of an unfinished sequence are no base states. *)
Lemma mid_state ubase id :
  ubase = USPACE \/ ubase = UWORD -> 4 <= ubase + id.
Proof. intros [-> | ->]; change USPACE with 4; change UWORD with 35; lia. Qed.

Lemma char_run s ch :
  s < 4 -> utf8_char ch = true ->
  exists mid,
    run t s ch = mid ++ [char_state isspace iswspace s ch]
    /\ Forall (fun x => 4 <= x) mid.
Proof.
  intros Hs Hch. pose proof (context_of_base s Hs) as Hu.
  destruct ch as [|a1 [|a2 [|a3 [|a4 [|a5 ch]]]]]; try discriminate.
  - (* one byte *)
    exists []. split; [|constructor]. unfold utf8_char in Hch. cbn in Hch.
    apply N.ltb_lt in Hch. rewrite run_cons. cbn [run app char_state].
    now rewrite step_ascii.
  - (* two bytes *)
    unfold utf8_char in Hch. cbn in Hch. apply andb_prop in Hch as [H1 H2].
    apply in_range_spec in H1. apply is_cont_spec in H2.
    pose proof (forallb_bytes_from _ _ _ two_byte_paths (Byte.to_N a1)
                  ltac:(cbn; lia)) as Hp. cbv beta in Hp.
    pose proof (forallb_bytes_from _ _ _ Hp (Byte.to_N a2) ltac:(cbn; lia)) as Hp2.
    cbv beta in Hp2. clear Hp. apply andb_prop in Hp2 as [Hid Hsp].
    apply N.leb_le in Hid. change DUO2_C2 with 1 in Hid.
    exists [context_of s + lead_id (Byte.to_N a1)]. split.
    + rewrite !run_cons. cbn [run app].
      rewrite step_lead by (try assumption; lia).
      rewrite step_cont by (try assumption; change ILLEGAL with 30; lia).
      rewrite cont_id_last by lia.
      rewrite (char_end_state _ _ _ _ Hsp). reflexivity.
    + repeat constructor. now apply mid_state.
  - (* three bytes *)
    unfold utf8_char in Hch. cbn in Hch. apply andb_prop in Hch as [H12 H3].
    apply is_cont_spec in H3.
    assert (Hr : 0xE0 <= Byte.to_N a1 <= 0xEF /\ 0x80 <= Byte.to_N a2 <= 0xBF).
    { unfold is_cont in H12.
      rewrite !orb_true_iff, !andb_true_iff, !in_range_spec, !N.eqb_eq in H12. lia. }
    pose proof (forallb_bytes_from _ _ _ three_byte_paths (Byte.to_N a1)
                  ltac:(cbn; lia)) as Hp. cbv beta in Hp.
    pose proof (forallb_bytes_from _ _ _ Hp (Byte.to_N a2) ltac:(cbn; lia)) as Hp2.
    cbv beta in Hp2. clear Hp.
    pose proof (forallb_bytes_from _ _ _ Hp2 (Byte.to_N a3) ltac:(cbn; lia)) as Hp3.
    cbv beta in Hp3. clear Hp2. rewrite H12 in Hp3. cbn [implb] in Hp3.
    apply andb_prop in Hp3 as [Hid Hp3]. apply andb_prop in Hid as [Hid1 Hid2].
    apply N.leb_le in Hid1, Hid2.
    change TRI2_E0 with 2 in Hid1. change TRI2_xx with 8 in Hid2.
    destruct (cont_id (lead_id (Byte.to_N a1)) (Byte.to_N a2)) as [id2|] eqn:Hc2;
      [|discriminate].
    apply andb_prop in Hp3 as [Hid' Hsp]. apply andb_prop in Hid' as [Hid3 Hid4].
    apply N.leb_le in Hid3, Hid4.
    change TRI3_E0_xx with 9 in Hid3. change TRI3_xx_xx with 20 in Hid4.
    exists [context_of s + lead_id (Byte.to_N a1); context_of s + id2]. split.
    + rewrite !run_cons. cbn [run app].
      rewrite step_lead by (try assumption; lia).
      rewrite step_cont by (try assumption; change ILLEGAL with 30; lia).
      rewrite Hc2.
      rewrite step_cont by (try assumption; change ILLEGAL with 30; lia).
      rewrite cont_id_last by lia.
      rewrite (char_end_state _ _ _ _ Hsp). reflexivity.
    + repeat constructor; now apply mid_state.
  - (* four bytes *)
    unfold utf8_char in Hch. cbn in Hch. apply andb_prop in Hch as [Hch H4].
    apply andb_prop in Hch as [H12 H3].
    apply is_cont_spec in H3. apply is_cont_spec in H4.
    assert (Hr : 0xF0 <= Byte.to_N a1 <= 0xF4 /\ 0x80 <= Byte.to_N a2 <= 0xBF).
    { unfold is_cont in H12.
      rewrite !orb_true_iff, !andb_true_iff, !in_range_spec, !N.eqb_eq in H12. lia. }
    pose proof (forallb_bytes_from _ _ _ four_byte_paths (Byte.to_N a1)
                  ltac:(cbn; lia)) as Hp. cbv beta in Hp.
    pose proof (forallb_bytes_from _ _ _ Hp (Byte.to_N a2) ltac:(cbn; lia)) as Hp2.
    cbv beta in Hp2. clear Hp.
    pose proof (forallb_bytes_from _ _ _ Hp2 (Byte.to_N a3) ltac:(cbn; lia)) as Hp3.
    cbv beta in Hp3. clear Hp2. rewrite H12 in Hp3. cbn [implb] in Hp3.
    apply andb_prop in Hp3 as [Hid Hp3]. apply andb_prop in Hid as [Hid Hcp].
    apply andb_prop in Hid as [Hid1 Hid2].
    apply N.leb_le in Hid1, Hid2, Hcp.
    change QUAD2_xx with 21 in Hid1. change QUAD2_F4 with 23 in Hid2.
    destruct (cont_id (lead_id (Byte.to_N a1)) (Byte.to_N a2)) as [id2|] eqn:Hc2;
      [|discriminate].
    apply andb_prop in Hp3 as [Hid' Hp3]. apply andb_prop in Hid' as [Hid3 Hid4].
    apply N.leb_le in Hid3, Hid4.
    change QUAD3_xx_xx with 24 in Hid3. change QUAD3_F4_xx with 26 in Hid4.
    destruct (cont_id id2 (Byte.to_N a3)) as [id3|] eqn:Hc3; [|discriminate].
    apply andb_prop in Hp3 as [Hid5 Hid6]. apply N.leb_le in Hid5, Hid6.
    change QUAD4_xx_xx_xx with 27 in Hid5. change QUAD4_F4_xx_xx with 29 in Hid6.
    exists [context_of s + lead_id (Byte.to_N a1); context_of s + id2;
            context_of s + id3]. split.
    + rewrite !run_cons. cbn [run app].
      rewrite step_lead by (try assumption; lia).
      rewrite step_cont by (try assumption; change ILLEGAL with 30; lia).
      rewrite Hc2.
      rewrite step_cont by (try assumption; change ILLEGAL with 30; lia).
      rewrite Hc3.
      rewrite step_cont by (try assumption; change ILLEGAL with 30; lia).
      rewrite cont_id_last by lia.
      unfold char_end, char_state.
      rewrite unicode_space_of_last by (change QUAD4_xx_xx_xx with 27; lia).
      rewrite space_candidate_above; [reflexivity|].
      unfold code_point. cbn [fmap list_fmap].
      rewrite N.lor_assoc.
      pose proof (lor_ge_l
        (N.lor (N.shiftl (N.land (Byte.to_N a1) 7) 18)
               (N.shiftl (N.land (Byte.to_N a2) 63) 12))
        (N.lor (N.shiftl (N.land (Byte.to_N a3) 63) 6) (N.land (Byte.to_N a4) 63))).
      lia.
    + repeat constructor; now apply mid_state.
Qed.

Lemma char_state_lt s ch : char_state isspace iswspace s ch < 4.
Proof.
  unfold char_state, ascii_step, default_of.
  destruct ch as [|b [|b' ch]];
    repeat match goal with
           | |- context [if ?b then _ else _] => destruct b
           end; reflexivity.
Qed.

Lemma landings_mid x mid : x < 4 -> Forall (fun y => 4 <= y) mid -> landings x mid = 0.
Proof.
  intros Hx Hmid. induction Hmid as [|y mid Hy _ IH]; [reflexivity|].
  rewrite landings_cons, IH. rewrite decide_False by lia. reflexivity.
Qed.

Lemma landings_char x s ch :
  x < 4 -> s < 4 -> utf8_char ch = true ->
  landings x (run t s ch)
  = (if decide (char_state isspace iswspace s ch = x) then 1 else 0)
  /\ final s (run t s ch) = char_state isspace iswspace s ch.
Proof.
  intros Hx Hs Hch. destruct (char_run s ch Hs Hch) as (mid & -> & Hmid). split.
  - rewrite landings_app, landings_mid, landings_cons, landings_nil by assumption. lia.
  - rewrite final_app. reflexivity.
Qed.

Lemma char_landings_text s text :
  s < 4 -> forallb utf8_char text = true ->
  char_landings (run t s (concat text)) = N.of_nat (length text)
  /\ final s (run t s (concat text)) < 4.
Proof.
  revert s. induction text as [|ch text IH]; intros s Hs Htext; [split; [reflexivity|exact Hs]|].
  apply andb_prop in Htext as [Hch Htext].
  cbn [concat]. rewrite run_app, char_landings_app, final_app.
  pose proof (char_state_lt s ch) as Hlt.
  destruct (landings_char NEWLINE s ch ltac:(reflexivity) Hs Hch) as [H1 Hfin].
  destruct (landings_char WASSPACE s ch ltac:(reflexivity) Hs Hch) as [H2 _].
  destruct (landings_char WASWORD s ch ltac:(reflexivity) Hs Hch) as [H3 _].
  destruct (landings_char NEWWORD s ch ltac:(reflexivity) Hs Hch) as [H4 _].
  rewrite Hfin. destruct (IH _ Hlt Htext) as [IH1 IH2]. rewrite IH1. split; [|exact IH2].
  unfold char_landings. rewrite H1, H2, H3, H4.
  change NEWLINE with 1. change WASSPACE with 0. change WASWORD with 3.
  change NEWWORD with 2. cbn [length]. repeat case_decide; lia.
Qed.

Hypothesis Hnul : isspace 0 = false.

Lemma char_state_after s ch :
  s < 4 ->
  (char_state isspace iswspace s ch <? NEWWORD) = char_separates isspace iswspace ch
  /\ (char_state isspace iswspace s ch = NEWWORD
      <-> (s <? NEWWORD) && negb (char_separates isspace iswspace ch) = true).
Proof.
  intros Hs.
  assert (Hd : default_of (context_of s) = if s <? NEWWORD then NEWWORD else WASWORD).
  { unfold default_of, context_of. change NEWWORD with 2. change USPACE with 4.
    change UWORD with 35.
    destruct (N.ltb_spec s 2), (N.leb_spec 4 s), (N.ltb_spec s 35); simpl;
      try reflexivity; lia. }
  change NEWWORD with 2 in *. change NEWLINE with 1. change WASSPACE with 0.
  change WASWORD with 3 in *.
  destruct ch as [|b [|b' ch]]; unfold char_state, char_separates, ascii_step, separates;
    rewrite ?Hnul, Hd.
  - destruct (space_candidate (code_point []) && iswspace (code_point []));
      destruct (s <? 2); split; try reflexivity; split; (discriminate || reflexivity).
  - destruct (Byte.to_N b =? 10); [|destruct (isspace (Byte.to_N b))];
      destruct (s <? 2); split; try reflexivity; split; (discriminate || reflexivity).
  - destruct (space_candidate (code_point (b :: b' :: ch))
              && iswspace (code_point (b :: b' :: ch)));
      destruct (s <? 2); split; try reflexivity; split; (discriminate || reflexivity).
Qed.

Lemma landings_newword_text s text :
  s < 4 -> forallb utf8_char text = true ->
  landings NEWWORD (run t s (concat text))
  = char_word_starts isspace iswspace (s <? NEWWORD) text.
Proof.
  revert s. induction text as [|ch text IH]; intros s Hs Htext; [reflexivity|].
  apply andb_prop in Htext as [Hch Htext].
  cbn [concat char_word_starts]. rewrite run_app, landings_app.
  destruct (landings_char NEWWORD s ch ltac:(reflexivity) Hs Hch) as [H1 Hfin].
  rewrite H1, Hfin, IH by (try assumption; apply char_state_lt).
  destruct (char_state_after s ch Hs) as [-> Hiff]. f_equal.
  destruct ((s <? NEWWORD) && negb (char_separates isspace iswspace ch));
    case_decide; try reflexivity.
  - exfalso. tauto.
  - apply Hiff in H. discriminate.
Qed.

End Utf8Run.

(** X5.  In the multibyte mode and every locale, for a text of
    well-formed UTF-8 characters shorter than 2^32 bytes and entered in
    a base state, [char_count] is the number of characters of the text,
    and the outbound state is a base state again. *)
Theorem char_count_code_points isspace iswspace junk text st :
  st < 4 -> forallb utf8_char text = true ->
  N.of_nat (length (concat text)) < 2 ^ 32 ->
  exists r st',
    parse_chunk (the_table isspace iswspace true) junk (concat text) st = Some (r, st')
    /\ char_count r = N.of_nat (length text)
    /\ st' < 4.
Proof.
  intros Hst Htext Hlen. eexists _, _. split.
  - apply parse_chunk_table. change STATE_MAX with 66. lia.
  - rewrite results_of_small by now rewrite length_run. cbn [char_count].
    apply (char_landings_text isspace iswspace _ (entry_utf8_next isspace iswspace));
      assumption.
Qed.

Lemma char_count_code_points_witness :
  NEWWORD < 4 /\
  forallb utf8_char
    [[Byte.x61]; [Byte.xc3; Byte.xa9]; [Byte.xe2; Byte.x82; Byte.xac];
     [Byte.xf0; Byte.x9f; Byte.x98; Byte.x80]; [Byte.x0a]] = true /\
  N.of_nat (length (concat
    [[Byte.x61]; [Byte.xc3; Byte.xa9]; [Byte.xe2; Byte.x82; Byte.xac];
     [Byte.xf0; Byte.x9f; Byte.x98; Byte.x80]; [Byte.x0a]])) < 2 ^ 32 /\
  exists r st',
    parse_chunk (the_table c_isspace c_iswspace true) (fun _ => 7)
      (concat [[Byte.x61]; [Byte.xc3; Byte.xa9]; [Byte.xe2; Byte.x82; Byte.xac];
               [Byte.xf0; Byte.x9f; Byte.x98; Byte.x80]; [Byte.x0a]]) NEWWORD
    = Some (r, st')
    /\ char_count r = 5
    /\ st' < 4.
Proof.
  assert (H1 : NEWWORD < 4) by reflexivity.
  assert (H2 : forallb utf8_char
    [[Byte.x61]; [Byte.xc3; Byte.xa9]; [Byte.xe2; Byte.x82; Byte.xac];
     [Byte.xf0; Byte.x9f; Byte.x98; Byte.x80]; [Byte.x0a]] = true) by reflexivity.
  assert (H3 : N.of_nat (length (concat
    [[Byte.x61]; [Byte.xc3; Byte.xa9]; [Byte.xe2; Byte.x82; Byte.xac];
     [Byte.xf0; Byte.x9f; Byte.x98; Byte.x80]; [Byte.x0a]])) < 2 ^ 32) by reflexivity.
  split; [exact H1|]. split; [exact H2|]. split; [exact H3|].
  exact (char_count_code_points c_isspace c_iswspace (fun _ => 7) _ NEWWORD H1 H2 H3).
Defined.

(** X6.  In the multibyte mode, in a locale where the NUL character is
    no space, for a text of well-formed UTF-8 characters shorter than
    2^32 bytes and entered in a base state, [word_count] is the number
    of characters that begin a word: characters that do not separate and
    follow one that does, where a character separates when it is a
    newline, a space of the locale in ASCII, or one of the code points
    beyond ASCII that [build_unicode] asks about and that [iswspace]
    takes for a space. *)
Theorem word_count_characters isspace iswspace junk text st :
  isspace 0 = false ->
  st < 4 -> forallb utf8_char text = true ->
  N.of_nat (length (concat text)) < 2 ^ 32 ->
  exists r st',
    parse_chunk (the_table isspace iswspace true) junk (concat text) st = Some (r, st')
    /\ word_count r = char_word_starts isspace iswspace (st <? NEWWORD) text.
Proof.
  intros Hnul Hst Htext Hlen. eexists _, _. split.
  - apply parse_chunk_table. change STATE_MAX with 66. lia.
  - rewrite results_of_small by now rewrite length_run. cbn [word_count].
    apply (landings_newword_text isspace iswspace _ (entry_utf8_next isspace iswspace));
      assumption.
Qed.

Lemma word_count_characters_witness :
  c_isspace 0 = false /\
  WASSPACE < 4 /\
  forallb utf8_char
    [[Byte.x61]; [Byte.xe3; Byte.x80; Byte.x80]; [Byte.xc3; Byte.xa9]; [Byte.x62];
     [Byte.xe2; Byte.x80; Byte.x8b]; [Byte.x63]] = true /\
  N.of_nat (length (concat
    [[Byte.x61]; [Byte.xe3; Byte.x80; Byte.x80]; [Byte.xc3; Byte.xa9]; [Byte.x62];
     [Byte.xe2; Byte.x80; Byte.x8b]; [Byte.x63]])) < 2 ^ 32 /\
  exists r st',
    parse_chunk (the_table c_isspace u_iswspace true) (fun _ => 0)
      (concat [[Byte.x61]; [Byte.xe3; Byte.x80; Byte.x80]; [Byte.xc3; Byte.xa9];
               [Byte.x62]; [Byte.xe2; Byte.x80; Byte.x8b]; [Byte.x63]]) WASSPACE
    = Some (r, st')
    /\ word_count r = 2.
Proof.
  assert (H0 : c_isspace 0 = false) by reflexivity.
  assert (H1 : WASSPACE < 4) by reflexivity.
  assert (H2 : forallb utf8_char
    [[Byte.x61]; [Byte.xe3; Byte.x80; Byte.x80]; [Byte.xc3; Byte.xa9]; [Byte.x62];
     [Byte.xe2; Byte.x80; Byte.x8b]; [Byte.x63]] = true) by reflexivity.
  assert (H3 : N.of_nat (length (concat
    [[Byte.x61]; [Byte.xe3; Byte.x80; Byte.x80]; [Byte.xc3; Byte.xa9]; [Byte.x62];
     [Byte.xe2; Byte.x80; Byte.x8b]; [Byte.x63]])) < 2 ^ 32) by reflexivity.
  split; [exact H0|]. split; [exact H1|]. split; [exact H2|]. split; [exact H3|].
  exact (word_count_characters c_isspace u_iswspace (fun _ => 0) _ WASSPACE H0 H1 H2 H3).
Defined.

(** ** Ill-formed bytes *)

Lemma ascii_step_lt isspace ubase c : ascii_step isspace ubase c < 4.
Proof.
  unfold ascii_step, default_of. destruct (c =? 10); [reflexivity|].
  destruct (isspace c); [reflexivity|]. destruct (ubase =? USPACE); reflexivity.
Qed.

(** X21.  In the multibyte mode the automaton finds its way back at the
    next byte of ASCII: whatever bytes come first, well formed or not,
    and whatever state the buffer is entered in, after a byte of ASCII
    every character of a well-formed text that follows is counted, and
    counted once, and the buffer ends in a base state. *)
Theorem resynchronises_at_ascii isspace iswspace junk buf b text st :
  st < STATE_MAX -> Byte.to_N b < 0x80 -> forallb utf8_char text = true ->
  N.of_nat (length ((buf ++ [b]) ++ concat text)) < 2 ^ 32 ->
  exists r1 s1 r st',
    parse_chunk (the_table isspace iswspace true) junk (buf ++ [b]) st = Some (r1, s1)
    /\ parse_chunk (the_table isspace iswspace true) junk ((buf ++ [b]) ++ concat text) st
       = Some (r, st')
    /\ char_count r = char_count r1 + N.of_nat (length text)
    /\ st' < 4.
Proof.
  intros Hst Hb Htext Hlen.
  eexists _, _, _, _. split; [now apply parse_chunk_table|].
  split; [now apply parse_chunk_table|].
  assert (Hlen1 : N.of_nat (length (buf ++ [b])) < 2 ^ 32)
    by (rewrite length_app, Nat2N.inj_add in Hlen; lia).
  rewrite !results_of_small by now rewrite length_run. cbn [char_count].
  rewrite run_app, char_landings_app, final_app.
  assert (Hbase : final st (run (the_table isspace iswspace true) st (buf ++ [b])) < 4).
  { rewrite run_app, final_app. cbn [run]. rewrite final_cons. unfold final. cbn [List.last].
    rewrite entry_ascii_column; [apply ascii_step_lt| |assumption].
    apply final_lt; [apply the_table_ok|assumption]. }
  destruct (char_landings_text isspace iswspace _ (entry_utf8_next isspace iswspace)
              _ text Hbase Htext) as [Hcount Hfin].
  rewrite Hcount. split; [reflexivity|exact Hfin].
Qed.

Lemma resynchronises_at_ascii_witness :
  UWORD + QUAD3_xx_xx < STATE_MAX /\ Byte.to_N Byte.x20 < 0x80 /\
  forallb utf8_char [[Byte.xc3; Byte.xa9]; [Byte.x61]] = true /\
  N.of_nat (length (([Byte.xff; Byte.x80; Byte.xe2] ++ [Byte.x20])
                    ++ concat [[Byte.xc3; Byte.xa9]; [Byte.x61]])) < 2 ^ 32 /\
  exists r1 s1 r st',
    parse_chunk (the_table c_isspace c_iswspace true) (fun _ => 0)
      ([Byte.xff; Byte.x80; Byte.xe2] ++ [Byte.x20]) (UWORD + QUAD3_xx_xx) = Some (r1, s1)
    /\ parse_chunk (the_table c_isspace c_iswspace true) (fun _ => 0)
         (([Byte.xff; Byte.x80; Byte.xe2] ++ [Byte.x20])
          ++ concat [[Byte.xc3; Byte.xa9]; [Byte.x61]]) (UWORD + QUAD3_xx_xx)
       = Some (r, st')
    /\ char_count r = char_count r1 + 2
    /\ st' < 4.
Proof.
  assert (H1 : UWORD + QUAD3_xx_xx < STATE_MAX) by reflexivity.
  assert (H2 : Byte.to_N Byte.x20 < 0x80) by reflexivity.
  assert (H3 : forallb utf8_char [[Byte.xc3; Byte.xa9]; [Byte.x61]] = true) by reflexivity.
  assert (H4 : N.of_nat (length (([Byte.xff; Byte.x80; Byte.xe2] ++ [Byte.x20])
                                 ++ concat [[Byte.xc3; Byte.xa9]; [Byte.x61]])) < 2 ^ 32)
    by reflexivity.
  repeat (split; [assumption|]).
  exact (resynchronises_at_ascii c_isspace c_iswspace (fun _ => 0) _ Byte.x20 _ _
           H1 H2 H3 H4).
Defined.

(** * The pointer variants on every argument *)

(** X7.  [parse_chunk_p] returns what [parse_chunk] returns on every
    argument: every table, well formed or not, every buffer of whatever
    length, every inbound state and whatever the stack holds; where one
    leaves an array, so does the other. *)
Theorem parse_chunk_p_is_parse_chunk t junk buf inout_state :
  parse_chunk_p t junk buf inout_state = parse_chunk t junk buf inout_state.
Proof. rewrite parse_chunk_walk. reflexivity. Qed.

(** X8.  For every table and every address of [table_p],
    [compile_pointers] passes all its [assert]s, and afterwards
    [PSTATE] takes the pointer in each cell of the first [STATE_MAX]
    rows back to the state in the same cell of [table]. *)
Theorem compile_pointers_round_trip base t :
  exists tp,
    compile_pointers base t table_p_init = Some tp
    /\ forall s c, s < STATE_MAX -> c < 256 ->
         exists p, pload tp s c = Some p /\ PSTATE base p = Some (entry t s c).
Proof.
  destruct (compile_pointers_spec base t) as (tp & Heq & Htp).
  exists tp. split; [exact Heq|]. intros s c Hs Hc.
  exists (row_ptr base (entry t s c)). split; [now apply Htp|apply PSTATE_row_ptr].
Qed.

(** * Files *)




Section FileFacts.

Variable t : Table.
Variable base : N.
Variable tp : list (list N).

Hypothesis Ht : table_ok t.
Hypothesis Htp :
  forall s c, s < STATE_MAX -> c < 256 ->
    pload tp s c = Some (row_ptr base (entry t s c)).

Let g := {| table := t; table_p_base := base; table_p := tp |}.




(** The loop leaves at the first call of [fread] that delivers
    nothing. *)
Lemma parse_file_loop_stop junk cfg fp rest :
  forall call sum st,
    parse_file_loop g junk cfg call (fp ++ [] :: rest) sum st
    = parse_file_loop g junk cfg call fp sum st.
Proof.
  induction fp as [|buf fp IH]; intros call sum st; [reflexivity|].
  cbn [app parse_file_loop]. cbv zeta.
  destruct (N.of_nat (length buf) <=? 0); [reflexivity|].
  destruct (if (1 <? is_pointer_arithmetic cfg)%Z
            then parse_chunk_pp (table_p_base g) (table_p g) (junk call) buf st
            else if negb (is_pointer_arithmetic cfg =? 0)%Z
                 then parse_chunk_p (table g) (junk call) buf st
                 else parse_chunk (table g) (junk call) buf st) as [[x st']|];
    [|reflexivity].
  cbn [mbind option_bind]. apply IH.
Qed.

End FileFacts.










(** X13.  [parse_file] ends at the first call of [fread] that delivers
    nothing: what the stream would deliver afterwards is never read and
    changes no count. *)
Theorem parse_file_stops_at_empty_read g junk cfg fp rest :
  parse_file g junk cfg (fp ++ [] :: rest) = parse_file g junk cfg fp.
Proof. destruct g as [t base tp]. unfold parse_file. apply parse_file_loop_stop. Qed.

(** * The width of the columns *)

Lemma count_digits_spec fuel :
  forall m w,
    (0 <= m < 10 ^ (Z.of_nat fuel - 1))%Z -> w + N.of_nat fuel < 2 ^ 32 ->
    exists d,
      count_digits fuel m w = Some (w + d)
      /\ (m = 0%Z -> d = 0)
      /\ (0 < m -> 10 ^ (Z.of_N d - 1) <= m < 10 ^ Z.of_N d)%Z.
Proof.
  induction fuel as [|fuel IH]; intros m w Hm Hw.
  - exfalso. change (Z.of_nat 0 - 1)%Z with (-1)%Z in Hm.
    rewrite Z.pow_neg_r in Hm by lia. lia.
  - cbn [count_digits]. destruct (Z.eqb_spec m 0) as [-> | Hne].
    + exists 0. split; [now rewrite N.add_0_r|]. split; [reflexivity|lia].
    + assert (Hpos : (0 < m)%Z) by lia.
      rewrite Z.quot_div_nonneg by lia.
      assert (Hfuel : (0 < Z.of_nat fuel)%Z).
      { destruct fuel; [|lia]. change (Z.of_nat 1 - 1)%Z with 0%Z in Hm.
        change (10 ^ 0)%Z with 1%Z in Hm. lia. }
      assert (Hpow : (10 ^ (Z.of_nat (S fuel) - 1) = 10 * 10 ^ (Z.of_nat fuel - 1))%Z).
      { replace (Z.of_nat (S fuel) - 1)%Z with (Z.succ (Z.of_nat fuel - 1)) by lia.
        apply Z.pow_succ_r. lia. }
      rewrite Hpow in Hm.
      assert (Hdiv : (0 <= m / 10 < 10 ^ (Z.of_nat fuel - 1))%Z).
      { split; [apply Z.div_pos; lia|]. apply Z.div_lt_upper_bound; lia. }
      rewrite wrap32_small by lia.
      destruct (IH (m / 10)%Z (w + 1) Hdiv ltac:(lia)) as (d & Heq & Hzero & Hd).
      exists (d + 1). split; [rewrite Heq; f_equal; lia|]. split; [lia|]. intros _.
      replace (Z.of_N (d + 1) - 1)%Z with (Z.of_N d) by lia.
      replace (Z.of_N (d + 1)) with (Z.succ (Z.of_N d)) by lia.
      rewrite Z.pow_succ_r by lia.
      destruct (Z.eqb_spec (m / 10) 0) as [Hz | Hnz].
      * rewrite (Hzero Hz). change (10 ^ Z.of_N 0)%Z with 1%Z.
        assert (m < 10)%Z by (apply Z.div_small_iff in Hz; lia). lia.
      * destruct (Hd ltac:(lia)) as [Hlo Hhi].
        assert (Hd1 : d <> 0).
        { intros ->. change (10 ^ Z.of_N 0)%Z with 1%Z in Hhi. lia. }
        assert (He : (10 ^ Z.of_N d = 10 * 10 ^ (Z.of_N d - 1))%Z).
        { replace (Z.of_N d) with (Z.succ (Z.of_N d - 1)) at 1 by lia.
          apply Z.pow_succ_r. lia. }
        pose proof (Z.mul_div_le m 10 ltac:(lia)).
        pose proof (Z.mul_succ_div_gt m 10 ltac:(lia)). lia.
Qed.

Section ColumnWidth.

Variable stat : stat_fn.

Lemma widen_bounds m name :
  sizes_in_range stat [name] = true ->
  (1 <= m < 2 ^ 63)%Z -> (m <= widen stat m name < 2 ^ 63)%Z.
Proof.
  intros Hstat Hm. unfold widen. destruct (char_at name 0 =? 45); [lia|].
  cbn in Hstat. rewrite andb_true_r in Hstat.
  destruct (stat name) as [[is_reg size]|] eqn:Hst; [|lia].
  apply andb_prop in Hstat as [H1 H2]. apply Z.leb_le in H1. apply Z.ltb_lt in H2.
  destruct is_reg; [destruct (Z.leb_spec m size); lia|].
  destruct (Z.leb_spec m 1000000); lia.
Qed.

Lemma widen_covers m name :
  (1 <= m < 2 ^ 63)%Z -> char_at name 0 <> 45 ->
  match stat name with
  | Some (true, size) => (size <= widen stat m name)%Z
  | Some (false, _) => (1000000 <= widen stat m name)%Z
  | None => True
  end.
Proof.
  intros Hm Hdash. unfold widen. apply N.eqb_neq in Hdash. rewrite Hdash.
  destruct (stat name) as [[[|] size]|]; [| |exact I].
  - destruct (Z.leb_spec m size); lia.
  - destruct (Z.leb_spec m 1000000); lia.
Qed.

Lemma sizes_in_range_cons name names :
  sizes_in_range stat (name :: names) = true ->
  sizes_in_range stat [name] = true /\ sizes_in_range stat names = true.
Proof.
  intros H. apply andb_prop in H as [H1 H2]. split; [|exact H2].
  cbn. now rewrite H1.
Qed.

Lemma foldl_widen_bounds names m :
  sizes_in_range stat names = true ->
  (1 <= m < 2 ^ 63)%Z -> (m <= foldl (widen stat) m names < 2 ^ 63)%Z.
Proof.
  revert m. induction names as [|name names IH]; intros m Hstat Hm; [cbn; lia|].
  apply sizes_in_range_cons in Hstat as [H1 H2].
  cbn [foldl]. pose proof (widen_bounds m name H1 Hm).
  pose proof (IH (widen stat m name) H2 ltac:(lia)). lia.
Qed.

Lemma foldl_widen_covers names m name :
  sizes_in_range stat names = true ->
  (1 <= m < 2 ^ 63)%Z -> name ∈ names -> char_at name 0 <> 45 ->
  match stat name with
  | Some (true, size) => (size <= foldl (widen stat) m names)%Z
  | Some (false, _) => (1000000 <= foldl (widen stat) m names)%Z
  | None => True
  end.
Proof.
  revert m. induction names as [|name' names IH]; intros m Hstat Hm Hin Hdash.
  - now apply elem_of_nil in Hin.
  - apply sizes_in_range_cons in Hstat as [H1 H2].
    cbn [foldl]. pose proof (widen_bounds m name' H1 Hm) as Hw.
    apply elem_of_cons in Hin as [-> | Hin].
    + pose proof (widen_covers m name' Hm Hdash) as Hc.
      pose proof (foldl_widen_bounds names (widen stat m name') H2 ltac:(lia)) as Hb.
      destruct (stat name') as [[[|] size]|]; [lia|lia|exact I].
    + apply IH; [assumption|lia|assumption..].
Qed.

End ColumnWidth.

(** X14.  When [stat] reports sizes in the range of [off_t],
    [get_column_width] returns a width between 1 and 19 in which the
    size of every regular file named on the command line fits; the
    width is at least 7 when the standard input is read or a name is no
    regular file. *)
Theorem column_width_fits stat argv is_stdin :
  sizes_in_range stat (tail argv) = true ->
  exists w,
    get_column_width stat argv is_stdin = Some w
    /\ 1 <= w <= 19
    /\ (forall name size,
          name ∈ tail argv -> char_at name 0 <> 45 -> stat name = Some (true, size) ->
          (size < 10 ^ Z.of_N w)%Z)
    /\ (is_stdin <> 0%Z
        \/ (exists name size,
              name ∈ tail argv /\ char_at name 0 <> 45 /\ stat name = Some (false, size)) ->
        7 <= w).
Proof.
  intros Hstat. unfold get_column_width. cbv zeta.
  pose proof (foldl_widen_bounds stat (tail argv) 1%Z Hstat ltac:(lia)) as Hfold.
  set (m0 := foldl (widen stat) 1%Z (tail argv)) in *.
  set (m := if negb (is_stdin =? 0)%Z
            then if (m0 <=? 1000000)%Z then 1000000%Z else m0 else m0).
  assert (Hm : (m0 <= m < 2 ^ 63)%Z).
  { subst m. destruct (negb (is_stdin =? 0)%Z); [|lia].
    destruct (Z.leb_spec m0 1000000); lia. }
  destruct (count_digits_spec 20 m 0) as (d & Heq & _ & Hd);
    [change (10 ^ (Z.of_nat 20 - 1))%Z with 10000000000000000000%Z;
     change (2 ^ 63)%Z with 9223372036854775808%Z in Hm; lia|reflexivity|].
  destruct (Hd ltac:(lia)) as [Hlo Hhi]. rewrite N.add_0_l in Heq.
  exists d. split; [exact Heq|].
  assert (Hd1 : 1 <= d).
  { destruct (N.eq_dec d 0) as [-> | ?]; [|lia].
    change (10 ^ Z.of_N 0)%Z with 1%Z in Hhi. lia. }
  assert (Hmono : forall k, (10 ^ k <= m)%Z -> (0 <= k)%Z -> (k < Z.of_N d)%Z).
  { intros k Hk Hk0. apply (Z.pow_lt_mono_r_iff 10); lia. }
  split; [split; [exact Hd1|]|split].
  - assert (Z.of_N d - 1 < 19)%Z; [|lia].
    apply (Z.pow_lt_mono_r_iff 10); [lia|lia|].
    change (10 ^ 19)%Z with 10000000000000000000%Z.
    change (2 ^ 63)%Z with 9223372036854775808%Z in Hm. lia.
  - intros name size Hin Hdash Hst.
    pose proof (foldl_widen_covers stat (tail argv) 1%Z name Hstat ltac:(lia) Hin Hdash)
      as Hc.
    rewrite Hst in Hc. fold m0 in Hc. lia.
  - intros Hcase.
    assert (Hbig : (10 ^ 6 <= m)%Z).
    { change (10 ^ 6)%Z with 1000000%Z.
      destruct Hcase as [Hin | (name & size & Hin & Hdash & Hst)].
      - subst m. apply Z.eqb_neq in Hin. rewrite Hin. cbn [negb].
        destruct (Z.leb_spec m0 1000000); lia.
      - pose proof (foldl_widen_covers stat (tail argv) 1%Z name Hstat ltac:(lia)
                      Hin Hdash) as Hc.
        rewrite Hst in Hc. fold m0 in Hc. lia. }
    pose proof (Hmono 6%Z Hbig ltac:(lia)). lia.
Qed.

Lemma column_width_fits_witness :
  sizes_in_range example_stat (tail [[Byte.x77; Byte.x63]; [Byte.x2d; Byte.x6c];
                                     [Byte.x61]; [Byte.x7a]]) = true /\
  exists w,
    get_column_width example_stat
      [[Byte.x77; Byte.x63]; [Byte.x2d; Byte.x6c]; [Byte.x61]; [Byte.x7a]] 0 = Some w
    /\ 1 <= w <= 19
    /\ (forall name size,
          name ∈ tail [[Byte.x77; Byte.x63]; [Byte.x2d; Byte.x6c]; [Byte.x61]; [Byte.x7a]] ->
          char_at name 0 <> 45 -> example_stat name = Some (true, size) ->
          (size < 10 ^ Z.of_N w)%Z)
    /\ (0%Z <> 0%Z
        \/ (exists name size,
              name ∈ tail [[Byte.x77; Byte.x63]; [Byte.x2d; Byte.x6c]; [Byte.x61];
                           [Byte.x7a]]
              /\ char_at name 0 <> 45 /\ example_stat name = Some (false, size)) ->
        7 <= w).
Proof.
  assert (H : sizes_in_range example_stat
                (tail [[Byte.x77; Byte.x63]; [Byte.x2d; Byte.x6c]; [Byte.x61];
                       [Byte.x7a]]) = true) by reflexivity.
  split; [exact H|].
  exact (column_width_fits example_stat
           [[Byte.x77; Byte.x63]; [Byte.x2d; Byte.x6c]; [Byte.x61]; [Byte.x7a]] 0%Z H).
Defined.

(** * Printing *)

Lemma spaced_app_one fields f :
  fields <> [] -> spaced (fields ++ [f]) = spaced fields ++ Byte.x20 :: f.
Proof.
  induction fields as [|g fields IH]; [congruence|]. intros _.
  destruct fields as [|h fields]; [reflexivity|].
  change (spaced ((g :: h :: fields) ++ [f]))
    with (g ++ Byte.x20 :: spaced ((h :: fields) ++ [f])).
  rewrite IH by discriminate.
  change (spaced (g :: h :: fields)) with (g ++ Byte.x20 :: spaced (h :: fields)).
  now rewrite <- app_assoc.
Qed.

Lemma format_lu_int width value :
  width < 2 ^ 31 -> format_lu width value = Returns (right_justified width value).
Proof.
  intros Hw. unfold format_lu, INT_MAX. change (2 ^ 31) with 2147483648 in Hw.
  destruct (Z.leb_spec (Z.of_N width) 2147483647); [reflexivity|lia].
Qed.

(** What [print_count] keeps: the text is the fields so far with their
    spaces, and [needs_space] is their number. *)
Lemma print_count_fields flag width value fields :
  width < 2 ^ 31 ->
  print_count flag width value (spaced fields, Z.of_nat (length fields))
  = Returns
      (spaced (fields ++ (if negb (flag =? 0)%Z
                          then [right_justified width value] else [])),
       Z.of_nat (length (fields ++ (if negb (flag =? 0)%Z
                                    then [right_justified width value] else [])))).
Proof.
  intros Hw. unfold print_count. destruct (negb (flag =? 0)%Z); [|now rewrite app_nil_r].
  rewrite format_lu_int by assumption. cbn [mbind result_bind].
  rewrite length_app. cbn [length]. f_equal. f_equal; [|lia].
  destruct fields as [|f fields]; [reflexivity|].
  rewrite spaced_app_one by discriminate.
  destruct (Z.eqb_spec (Z.of_nat (length (f :: fields))) 0) as [H|_];
    [cbn [length] in H; lia|reflexivity].
Qed.

Lemma print_results_line filename r cfg :
  column_width cfg < 2 ^ 31 ->
  print_results filename r cfg = Returns (results_line filename r cfg).
Proof.
  intros Hw. unfold print_results, results_line, fields_of. cbv zeta.
  change ([], 0%Z) with (spaced [], Z.of_nat (length (@nil (list Byte.byte)))).
  rewrite print_count_fields by assumption. cbn [mbind result_bind].
  rewrite print_count_fields by assumption. cbn [mbind result_bind].
  rewrite print_count_fields by assumption. cbn [mbind result_bind].
  rewrite print_count_fields by assumption. cbn [mbind result_bind].
  rewrite !app_nil_l.
  generalize (if negb (is_counting_lines cfg =? 0)%Z
              then [right_justified (column_width cfg) (line_count r)] else []) as f1.
  generalize (if negb (is_counting_words cfg =? 0)%Z
              then [right_justified (column_width cfg) (word_count r)] else []) as f2.
  generalize (if negb (is_counting_bytes cfg =? 0)%Z
              then [right_justified (column_width cfg) (byte_count r)] else []) as f3.
  generalize (if negb (is_counting_chars cfg =? 0)%Z
              then [right_justified (column_width cfg) (char_count r)] else []) as f4.
  intros f4 f3 f2 f1. f_equal. f_equal.
  replace (f1 ++ f2 ++ f3 ++ f4 ++ match filename with Some name => [name] | None => [] end)
    with ((((f1 ++ f2) ++ f3) ++ f4)
          ++ match filename with Some name => [name] | None => [] end)
    by now rewrite <- !app_assoc.
  generalize (((f1 ++ f2) ++ f3) ++ f4) as counts. intros counts.
  destruct filename as [name|]; [|now rewrite app_nil_r].
  destruct counts as [|f counts]; [reflexivity|].
  rewrite spaced_app_one by discriminate.
  destruct (Z.eqb_spec (Z.of_nat (length (f :: counts))) 0) as [H|_];
    [cbn [length] in H; lia|reflexivity].
Qed.

(** X15.  For a column width that an [int] holds, [print_results]
    writes the selected counts in the order lines, words, bytes,
    characters and then the name, if any, each count right-justified on
    the width, with one space between each two fields, none before the
    first or after the last, and one newline at the end. *)
Theorem print_results_fields filename r cfg :
  column_width cfg < 2 ^ 31 ->
  print_results filename r cfg
  = Returns (spaced (fields_of filename r cfg) ++ [Byte.x0a]).
Proof. intros Hw. now apply print_results_line. Qed.

Lemma print_results_fields_witness :
  column_width (mk_config 1 0 1 0 1 0 0 3 0) < 2 ^ 31 /\
  print_results (Some [Byte.x61])
    {| line_count := 2; word_count := 5; char_count := 17; byte_count := 17 |}
    (mk_config 1 0 1 0 1 0 0 3 0)
  = Returns [Byte.x20; Byte.x20; Byte.x32; Byte.x20; Byte.x20; Byte.x31; Byte.x37;
             Byte.x20; Byte.x61; Byte.x0a].
Proof.
  assert (H1 : column_width (mk_config 1 0 1 0 1 0 0 3 0) < 2 ^ 31) by reflexivity.
  split; [exact H1|].
  exact (print_results_fields (Some [Byte.x61])
           {| line_count := 2; word_count := 5; char_count := 17; byte_count := 17 |}
           (mk_config 1 0 1 0 1 0 0 3 0) H1).
Defined.

Lemma decimal_loop_length fuel :
  forall n acc w,
    (0 < w)%nat -> n < 10 ^ N.of_nat w -> n < 10 ^ N.of_nat fuel ->
    (length (decimal_loop fuel n acc) <= length acc + w)%nat.
Proof.
  induction fuel as [|fuel IH]; intros n acc w Hw Hn Hfuel; [cbn; lia|].
  cbn [decimal_loop]. cbv zeta. destruct (N.eqb_spec (n / 10) 0) as [Hz | Hnz].
  - cbn [length]. lia.
  - assert (Hten : 10 <= n).
    { destruct (N.lt_ge_cases n 10) as [Hlt|]; [|assumption].
      now rewrite N.div_small in Hnz. }
    destruct w as [|[|w]]; [lia|change (10 ^ N.of_nat 1) with 10 in Hn; lia|].
    assert (Hdiv : forall k, n < 10 ^ N.of_nat (S k) -> n / 10 < 10 ^ N.of_nat k).
    { intros k Hk. apply N.Div0.div_lt_upper_bound.
      rewrite Nat2N.inj_succ, N.pow_succ_r' in Hk. exact Hk. }
    pose proof (IH (n / 10)
                  (default Byte.x30 (Byte.of_N (48 + n mod 10)) :: acc) (S w)
                  ltac:(lia) (Hdiv _ Hn) (Hdiv _ Hfuel)) as Hlen.
    cbn [length] in Hlen. lia.
Qed.

Lemma right_justified_length width value :
  1 <= width -> value < 10 ^ width -> value < 2 ^ 64 ->
  length (right_justified width value) = N.to_nat width.
Proof.
  intros Hw Hv H64. unfold right_justified. rewrite length_app, length_replicate.
  pose proof (decimal_loop_length 20 value [] (N.to_nat width) ltac:(lia)
                ltac:(now rewrite N2Nat.id)
                ltac:(change (10 ^ N.of_nat 20) with 100000000000000000000;
                      change (2 ^ 64) with 18446744073709551616 in H64; lia)) as Hlen.
  cbn [length] in Hlen. unfold decimal. lia.
Qed.

(** X16.  When the column width is at least 1 and one that an [int]
    holds, and the byte count, which bounds the other counts, has no
    more digits than the width, every count that [print_results] writes
    takes exactly [column_width] characters: the columns of successive
    lines stand under each other. *)
Theorem print_results_columns r cfg :
  1 <= column_width cfg -> column_width cfg < 2 ^ 31 ->
  line_count r <= byte_count r -> word_count r <= byte_count r ->
  char_count r <= byte_count r ->
  byte_count r < 10 ^ column_width cfg -> byte_count r < 2 ^ 64 ->
  print_results None r cfg = Returns (spaced (fields_of None r cfg) ++ [Byte.x0a])
  /\ Forall (fun field => length field = N.to_nat (column_width cfg))
       (fields_of None r cfg).
Proof.
  intros Hw Hint Hl Hwd Hc Hb H64. split; [now apply print_results_line|].
  unfold fields_of. rewrite app_nil_r.
  repeat apply Forall_app_2;
    match goal with
    | |- Forall _ (if ?b then _ else _) => destruct b; [|constructor]
    end;
    (constructor; [apply right_justified_length; lia|constructor]).
Qed.

Lemma print_results_columns_witness :
  1 <= column_width (mk_config 1 0 1 1 1 0 0 4 0) /\
  column_width (mk_config 1 0 1 1 1 0 0 4 0) < 2 ^ 31 /\
  3 <= 250 /\ 41 <= 250 /\ 250 <= 250 /\
  250 < 10 ^ column_width (mk_config 1 0 1 1 1 0 0 4 0) /\ 250 < 2 ^ 64 /\
  print_results None
    {| line_count := 3; word_count := 41; char_count := 250; byte_count := 250 |}
    (mk_config 1 0 1 1 1 0 0 4 0)
  = Returns (spaced (fields_of None
                       {| line_count := 3; word_count := 41; char_count := 250;
                          byte_count := 250 |} (mk_config 1 0 1 1 1 0 0 4 0))
             ++ [Byte.x0a])
  /\ Forall (fun field => length field = N.to_nat (column_width (mk_config 1 0 1 1 1 0 0 4 0)))
       (fields_of None {| line_count := 3; word_count := 41; char_count := 250;
                          byte_count := 250 |} (mk_config 1 0 1 1 1 0 0 4 0)).
Proof.
  assert (H1 : 1 <= column_width (mk_config 1 0 1 1 1 0 0 4 0)) by (cbn; lia).
  assert (H0 : column_width (mk_config 1 0 1 1 1 0 0 4 0) < 2 ^ 31) by reflexivity.
  assert (H2 : 3 <= 250) by lia.
  assert (H3 : 41 <= 250) by lia.
  assert (H4 : 250 <= 250) by lia.
  assert (H5 : 250 < 10 ^ column_width (mk_config 1 0 1 1 1 0 0 4 0)) by reflexivity.
  assert (H6 : 250 < 2 ^ 64) by reflexivity.
  repeat (split; [assumption|]).
  exact (print_results_columns
           {| line_count := 3; word_count := 41; char_count := 250; byte_count := 250 |}
           (mk_config 1 0 1 1 1 0 0 4 0) H1 H0 H2 H3 H4 H5 H6).
Defined.

(** * The command line *)

Lemma int_incr_Returns x n : int_incr x = Returns n -> n = (x + 1)%Z.
Proof. unfold int_incr. destruct (x <? INT_MAX)%Z; congruence. Qed.

Lemma result_bind_Returns {A B : Type} (r : result A) (k : A -> result B) b :
  r ≫= k = Returns b -> exists a, r = Returns a /\ k a = Returns b.
Proof. destruct r as [a| | |]; try discriminate. intros H. now exists a. Qed.

Lemma read_letters_ok letters :
  forall next cfg cfg' took,
    config_ok cfg -> read_letters letters next cfg = Returns (cfg', took) ->
    config_ok cfg' /\ file_count cfg' = file_count cfg /\ is_stdin cfg' = is_stdin cfg
    /\ (took = true -> next <> None).
Proof.
  induction letters as [|b letters IH]; intros next cfg cfg' took Hok Hread.
  - injection Hread as <- <-. split; [assumption|]. split; [reflexivity|].
    split; [reflexivity|discriminate].
  - cbn [read_letters] in Hread. cbv zeta in Hread.
    destruct Hok as (Hl & Hw & Hb & Hc & Hp & Hx & Hs & Ht).
    repeat match type of Hread with
           | (if ?c then _ else _) = _ => destruct c eqn:?
           | (match ?o with Some _ => _ | None => _ end) = _ => destruct o eqn:?
           | _ ≫= _ = Returns _ =>
               apply result_bind_Returns in Hread as (n & Hn & Hread);
               first [apply int_incr_Returns in Hn; subst n | idtac]
           end; try discriminate;
      try (apply IH in Hread; [exact Hread|];
           unfold config_ok; cbn; repeat split; try assumption; try lia;
           match goal with
           | H : negb (?x =? 0)%Z = false |- _ =>
               apply negb_false_iff, Z.eqb_eq in H; (now left) || (now right)
           | _ => assumption
           end).
    injection Hread as <- <-.
    split; [unfold config_ok; cbn; repeat split; assumption|].
    split; [reflexivity|]. split; [reflexivity|].
    intros Htook. rewrite Htook in Heqo. congruence.
Qed.

Lemma read_args_ok_upto n :
  forall args cfg cfg',
    (length args <= n)%nat ->
    config_ok cfg -> read_args args cfg = Returns cfg' -> config_ok cfg'.
Proof.
  induction n as [|n IH]; intros args cfg cfg' Hlen Hok Hread.
  - destruct args; [now injection Hread as <-|cbn in Hlen; lia].
  - destruct args as [|arg rest]; [now injection Hread as <-|].
    cbn [length] in Hlen. cbn [read_args] in Hread.
    assert (Hset : forall v, config_ok (set_file_count cfg v))
      by (intros v; exact Hok).
    assert (Hstdin : config_ok (set_is_stdin cfg 1)).
    { destruct Hok as (Hl & Hw & Hb & Hc & Hp & Hx & Hs & Ht).
      unfold config_ok. cbn. repeat split; try assumption. now right. }
    destruct (negb (char_at arg 0 =? 45)).
    { apply (IH rest) in Hread; [assumption|lia|apply Hset]. }
    destruct (char_at arg 1 =? 0).
    { apply (IH rest) in Hread; [assumption|lia|assumption]. }
    destruct (char_at arg 1 =? 45).
    { destruct (char_at arg 2 =? 0); [injection Hread as <-; apply Hset|].
      destruct (same_string arg str_version); [discriminate|].
      destruct (same_string arg str_help); discriminate. }
    apply result_bind_Returns in Hread as ([cfg1 took] & Hletters & Hread).
    apply read_letters_ok in Hletters as (Hok1 & _); [|assumption].
    cbn [fst snd] in Hread. destruct took.
    + destruct rest as [|skipped rest]; [now injection Hread as <-|].
      cbn [length] in Hlen. apply (IH rest) in Hread; [assumption|lia|assumption].
    + apply (IH rest) in Hread; [assumption|lia|assumption].
Qed.

Lemma read_args_ok args cfg cfg' :
  config_ok cfg -> read_args args cfg = Returns cfg' -> config_ok cfg'.
Proof. apply (read_args_ok_upto (length args)). lia. Qed.

Lemma zero_config_ok : config_ok zero_config.
Proof. unfold config_ok. cbn. repeat split; try lia; now left. Qed.

Lemma get_column_width_pos stat argv is_stdin w :
  get_column_width stat argv is_stdin = Some w -> 1 <= w.
Proof.
  unfold get_column_width. cbv zeta.
  assert (Hfold : forall names m, (1 <= m)%Z -> (1 <= foldl (widen stat) m names)%Z).
  { induction names as [|name names IH]; intros m Hm; [exact Hm|].
    cbn [foldl]. apply IH. unfold widen.
    destruct (char_at name 0 =? 45); [exact Hm|].
    destruct (stat name) as [[[|] size]|]; [| |exact Hm].
    - destruct (Z.leb_spec m size); lia.
    - destruct (Z.leb_spec m 1000000); lia. }
  specialize (Hfold (tail argv) 1%Z ltac:(lia)).
  set (m0 := foldl (widen stat) 1%Z (tail argv)) in *.
  set (m := if negb (is_stdin =? 0)%Z then _ else _).
  assert (Hm : (1 <= m)%Z).
  { subst m. destruct (negb (is_stdin =? 0)%Z); [|exact Hfold].
    destruct (Z.leb_spec m0 1000000); lia. }
  assert (Hloop : forall fuel k width w,
             width + N.of_nat fuel < 2 ^ 32 ->
             count_digits fuel k width = Some w ->
             width <= w /\ (k <> 0%Z -> width + 1 <= w)).
  { induction fuel as [|fuel IH]; intros k width w' Hsmall Hcount; [discriminate|].
    cbn [count_digits] in Hcount. destruct (Z.eqb_spec k 0) as [Hk|Hk].
    - injection Hcount as <-. split; [lia|]. intros; contradiction.
    - rewrite wrap32_small in Hcount by lia.
      apply IH in Hcount as [Hle _]; lia. }
  intros Hcount. apply Hloop in Hcount as [_ Hw]; [|reflexivity].
  specialize (Hw ltac:(lia)). lia.
Qed.

(** X17.  Whenever [read_command_line] returns, the configuration is
    usable: [-c] and [-m] are never both set, at least one count is
    selected, the width of the columns is at least 1, the standard
    input is read when no file was counted, and the totals are asked
    for exactly when more than one input was counted. *)
Theorem read_command_line_config stat argv cfg :
  read_command_line stat argv = Returns cfg ->
  (is_counting_bytes cfg = 0%Z \/ is_counting_chars cfg = 0%Z)
  /\ (is_counting_lines cfg <> 0%Z \/ is_counting_words cfg <> 0%Z
      \/ is_counting_bytes cfg <> 0%Z \/ is_counting_chars cfg <> 0%Z)
  /\ 1 <= column_width cfg
  /\ (file_count cfg = 0 -> is_stdin cfg = 1%Z)
  /\ (is_printing_totals cfg = 1%Z
      <-> 1 < file_count cfg \/ (file_count cfg <> 0 /\ is_stdin cfg <> 0%Z))
  /\ (is_printing_totals cfg = 0%Z \/ is_printing_totals cfg = 1%Z).
Proof.
  unfold read_command_line. intros Hread.
  apply result_bind_Returns in Hread as (cfg0 & Hargs & Hread).
  apply read_args_ok in Hargs; [|apply zero_config_ok]. cbv zeta in Hread.
  apply result_bind_Returns in Hread as (cfg1 & Hwidth & Hread).
  injection Hread as <-.
  destruct Hargs as (Hl & Hw & Hb & Hc & Hp & Hx & Hs & Ht).
  set (cfgA := if file_count cfg0 =? 0 then set_is_stdin cfg0 1 else cfg0) in *.
  assert (HA : is_counting_lines cfgA = is_counting_lines cfg0
               /\ is_counting_words cfgA = is_counting_words cfg0
               /\ is_counting_bytes cfgA = is_counting_bytes cfg0
               /\ is_counting_chars cfgA = is_counting_chars cfg0
               /\ file_count cfgA = file_count cfg0
               /\ column_width cfgA = column_width cfg0
               /\ is_printing_totals cfgA = 0%Z
               /\ (file_count cfg0 = 0 -> is_stdin cfgA = 1%Z)
               /\ (is_stdin cfgA = 0%Z \/ is_stdin cfgA = 1%Z)).
  { subst cfgA. destruct (N.eqb_spec (file_count cfg0) 0); cbn;
      repeat split; try assumption; try reflexivity; try (now right); try (intros; lia). }
  destruct HA as (HAl & HAw & HAb & HAc & HAf & HAcw & HAt & HAs & HAs').
  set (cfgB := if (is_counting_lines cfgA =? 0)%Z && (is_counting_words cfgA =? 0)%Z
                  && (is_counting_bytes cfgA =? 0)%Z && (is_counting_chars cfgA =? 0)%Z
               then _ else cfgA) in *.
  assert (HB : (is_counting_bytes cfgB = 0%Z \/ is_counting_chars cfgB = 0%Z)
               /\ (is_counting_lines cfgB <> 0%Z \/ is_counting_words cfgB <> 0%Z
                   \/ is_counting_bytes cfgB <> 0%Z \/ is_counting_chars cfgB <> 0%Z)
               /\ file_count cfgB = file_count cfg0
               /\ is_stdin cfgB = is_stdin cfgA
               /\ column_width cfgB = column_width cfg0
               /\ is_printing_totals cfgB = 0%Z).
  { subst cfgB. rewrite HAl, HAw, HAb, HAc.
    destruct (Z.eqb_spec (is_counting_lines cfg0) 0),
             (Z.eqb_spec (is_counting_words cfg0) 0),
             (Z.eqb_spec (is_counting_bytes cfg0) 0),
             (Z.eqb_spec (is_counting_chars cfg0) 0); cbn [andb];
      cbn; rewrite ?HAl, ?HAw, ?HAb, ?HAc, ?HAf, ?HAcw, ?HAt;
      repeat split; try reflexivity; try assumption; try tauto; try (now right);
      try (left; lia). }
  destruct HB as (HBx & HBsome & HBf & HBs & HBcw & HBt).
  assert (H1 : is_counting_bytes cfg1 = is_counting_bytes cfgB
               /\ is_counting_chars cfg1 = is_counting_chars cfgB
               /\ is_counting_lines cfg1 = is_counting_lines cfgB
               /\ is_counting_words cfg1 = is_counting_words cfgB
               /\ file_count cfg1 = file_count cfgB
               /\ is_stdin cfg1 = is_stdin cfgB
               /\ is_printing_totals cfg1 = is_printing_totals cfgB
               /\ 1 <= column_width cfg1).
  { destruct (N.eqb_spec (column_width cfgB) 0) as [Hz|Hnz].
    - destruct (0 <? file_count cfgB).
      + destruct (get_column_width stat argv (is_stdin cfgB)) as [w|] eqn:Hgcw;
          [|discriminate].
        apply get_column_width_pos in Hgcw.
        injection Hwidth as <-. cbn. repeat split; try reflexivity; lia.
      + injection Hwidth as <-. cbn. repeat split; try reflexivity; lia.
    - injection Hwidth as <-. repeat split; try reflexivity; lia. }
  destruct H1 as (H1b & H1c & H1l & H1w & H1f & H1s & H1t & H1cw).
  set (totals := (1 <? file_count cfg1)
                 || (negb (file_count cfg1 =? 0) && negb (is_stdin cfg1 =? 0)%Z)).
  assert (Htot : totals = true
                 <-> 1 < file_count cfg1 \/ (file_count cfg1 <> 0 /\ is_stdin cfg1 <> 0%Z)).
  { subst totals. rewrite orb_true_iff, andb_true_iff, !negb_true_iff, N.ltb_lt,
      N.eqb_neq, Z.eqb_neq. tauto. }
  assert (Hstd : file_count cfg1 = 0 -> is_stdin cfg1 = 1%Z)
    by (intros Hz; rewrite H1s, HBs; apply HAs; congruence).
  rewrite <- H1b, <- H1c in HBx. rewrite <- H1b, <- H1c, <- H1l, <- H1w in HBsome.
  destruct totals; cbn; repeat split; try assumption; try tauto.
  - rewrite H1t, HBt. discriminate.
  - intros Hcase. apply Htot in Hcase. discriminate.
  - left. now rewrite H1t.
Qed.

Lemma read_command_line_config_witness :
  read_command_line example_stat
    [[Byte.x77; Byte.x63]; [Byte.x2d; Byte.x6c; Byte.x6d]; [Byte.x61]; [Byte.x2d]]
  = Returns (mk_config 1 1 1 0 0 1 1 7 0) /\
  (is_counting_bytes (mk_config 1 1 1 0 0 1 1 7 0) = 0%Z
   \/ is_counting_chars (mk_config 1 1 1 0 0 1 1 7 0) = 0%Z)
  /\ (is_counting_lines (mk_config 1 1 1 0 0 1 1 7 0) <> 0%Z
      \/ is_counting_words (mk_config 1 1 1 0 0 1 1 7 0) <> 0%Z
      \/ is_counting_bytes (mk_config 1 1 1 0 0 1 1 7 0) <> 0%Z
      \/ is_counting_chars (mk_config 1 1 1 0 0 1 1 7 0) <> 0%Z)
  /\ 1 <= column_width (mk_config 1 1 1 0 0 1 1 7 0)
  /\ (file_count (mk_config 1 1 1 0 0 1 1 7 0) = 0
      -> is_stdin (mk_config 1 1 1 0 0 1 1 7 0) = 1%Z)
  /\ (is_printing_totals (mk_config 1 1 1 0 0 1 1 7 0) = 1%Z
      <-> 1 < file_count (mk_config 1 1 1 0 0 1 1 7 0)
          \/ (file_count (mk_config 1 1 1 0 0 1 1 7 0) <> 0
              /\ is_stdin (mk_config 1 1 1 0 0 1 1 7 0) <> 0%Z))
  /\ (is_printing_totals (mk_config 1 1 1 0 0 1 1 7 0) = 0%Z
      \/ is_printing_totals (mk_config 1 1 1 0 0 1 1 7 0) = 1%Z).
Proof.
  assert (H : read_command_line example_stat
                [[Byte.x77; Byte.x63]; [Byte.x2d; Byte.x6c; Byte.x6d]; [Byte.x61];
                 [Byte.x2d]]
              = Returns (mk_config 1 1 1 0 0 1 1 7 0)) by (vm_compute; reflexivity).
  split; [exact H|].
  exact (read_command_line_config example_stat _ _ H).
Defined.

Lemma read_letters_plain letters :
  forall next cfg cfg' took,
    forallb (fun b => negb (Byte.to_N b =? 87)) letters = true ->
    read_letters letters next cfg = Returns (cfg', took) -> took = false.
Proof.
  induction letters as [|b letters IH]; intros next cfg cfg' took Hplain Hread.
  - now injection Hread as _ <-.
  - apply andb_prop in Hplain as [Hb Hplain]. apply negb_true_iff in Hb.
    cbn [read_letters] in Hread. cbv zeta in Hread. rewrite Hb in Hread.
    repeat match type of Hread with
           | (if ?c then _ else _) = _ => destruct c
           | _ ≫= _ = Returns _ => apply result_bind_Returns in Hread as (n & _ & Hread)
           end; try discriminate; now apply IH in Hread.
Qed.

Lemma read_args_file_count args :
  forall cfg cfg',
    plain_options args = true ->
    file_count cfg + N.of_nat (length args) < 2 ^ 64 ->
    read_args args cfg = Returns cfg' ->
    file_count cfg'
    = file_count cfg
      + N.of_nat (length (List.filter (fun arg => negb (char_at arg 0 =? 45)) args)).
Proof.
  induction args as [|arg rest IH]; intros cfg cfg' Hplain Hlen Hread.
  - injection Hread as <-. cbn. lia.
  - apply andb_prop in Hplain as [Harg Hplain]. cbn [length] in Hlen.
    cbn [read_args] in Hread. cbn [List.filter].
    destruct (negb (char_at arg 0 =? 45)) eqn:Hdash.
    + apply IH in Hread; [|assumption|cbn; rewrite wrap64_small; lia].
      rewrite Hread. cbn [file_count set_file_count length].
      rewrite wrap64_small by lia. lia.
    + cbn [orb] in Harg. apply andb_prop in Harg as [Hdd Hletters].
      apply negb_true_iff in Hdd. rewrite Hdd in Hread.
      destruct (char_at arg 1 =? 0).
      * apply IH in Hread; [exact Hread|assumption|cbn; lia].
      * apply result_bind_Returns in Hread as ([cfg1 took] & Hread1 & Hread).
        pose proof (read_letters_plain _ _ _ _ _ Hletters Hread1) as ->.
        cbn [fst snd] in Hread.
        assert (Hfc : file_count cfg1 = file_count cfg).
        { revert Hread1. generalize (head rest). generalize cfg cfg1. clear.
          induction (tail arg) as [|b letters IH]; intros cfg cfg1 next Hread.
          - now injection Hread as <-.
          - cbn [read_letters] in Hread. cbv zeta in Hread.
            repeat match type of Hread with
                   | (if ?c then _ else _) = _ => destruct c
                   | (match ?o with Some _ => _ | None => _ end) = _ => destruct o
                   | _ ≫= _ = Returns _ =>
                       apply result_bind_Returns in Hread as (n & _ & Hread)
                   end; try discriminate;
              try (apply IH in Hread; exact Hread); now injection Hread as <-. }
        apply IH in Hread; [|assumption|lia]. now rewrite Hread, Hfc.
Qed.

(** X18.  On a command line with fewer than 2^31 arguments whose
    options are plain (no [--] and no [-W]), [file_count] is the number
    of arguments that [main] opens, so the totals are asked for exactly
    when more than one input is counted: two names or more, or a name
    and the standard input. *)
Theorem file_count_named_files stat argv cfg :
  plain_options (tail argv) = true ->
  N.of_nat (length argv) < 2 ^ 31 ->
  read_command_line stat argv = Returns cfg ->
  file_count cfg = N.of_nat (length (named_files argv))
  /\ (is_printing_totals cfg = 1%Z
      <-> (1 < length (named_files argv))%nat
          \/ (named_files argv <> [] /\ is_stdin cfg <> 0%Z)).
Proof.
  intros Hplain Hlen Hread.
  pose proof (read_command_line_config stat argv cfg Hread) as (_ & _ & _ & _ & Htot & _).
  assert (Hfc : file_count cfg = N.of_nat (length (named_files argv))).
  { unfold read_command_line in Hread.
    apply result_bind_Returns in Hread as (cfg0 & Hargs & Hread).
    apply read_args_file_count in Hargs;
      [|assumption
       |cbn; assert (length (tail argv) <= length argv)%nat by (destruct argv; cbn; lia);
        change (2 ^ 31) with 2147483648 in Hlen;
        change (2 ^ 64) with 18446744073709551616; lia].
    cbv zeta in Hread. apply result_bind_Returns in Hread as (cfg1 & Hwidth & Hread).
    injection Hread as <-. unfold named_files.
    change (file_count zero_config) with 0 in Hargs. rewrite N.add_0_l in Hargs.
    rewrite <- Hargs.
    assert (H1 : file_count cfg1 = file_count cfg0).
    { repeat match type of Hwidth with
             | (if ?c then _ else _) = _ => destruct c
             | (match ?o with Some _ => _ | None => _ end) = _ => destruct o
             end; try discriminate; injection Hwidth as <-; cbn;
        repeat match goal with
               | |- context [if ?c then _ else _] => destruct c
               end; reflexivity. }
    destruct ((1 <? file_count cfg1)
              || negb (file_count cfg1 =? 0) && negb (is_stdin cfg1 =? 0)%Z);
      exact H1. }
  split; [exact Hfc|]. rewrite Htot, Hfc.
  destruct (named_files argv) as [|name names]; cbn [length]; [|split; intros [?|[? ?]]];
    try (split; intros [?|[? ?]]); try lia; try congruence;
    try (left; lia); try (right; split; [discriminate|assumption]);
    try (right; split; [lia|assumption]).
Qed.

Lemma file_count_named_files_witness :
  plain_options (tail [[Byte.x77; Byte.x63]; [Byte.x2d; Byte.x6c]; [Byte.x61]; [Byte.x62]])
  = true /\
  N.of_nat (length [[Byte.x77; Byte.x63]; [Byte.x2d; Byte.x6c]; [Byte.x61]; [Byte.x62]])
  < 2 ^ 31 /\
  read_command_line example_stat
    [[Byte.x77; Byte.x63]; [Byte.x2d; Byte.x6c]; [Byte.x61]; [Byte.x62]]
  = Returns (mk_config 2 0 1 0 0 0 1 5 0) /\
  file_count (mk_config 2 0 1 0 0 0 1 5 0)
  = N.of_nat (length (named_files [[Byte.x77; Byte.x63]; [Byte.x2d; Byte.x6c];
                                   [Byte.x61]; [Byte.x62]]))
  /\ (is_printing_totals (mk_config 2 0 1 0 0 0 1 5 0) = 1%Z
      <-> (1 < length (named_files [[Byte.x77; Byte.x63]; [Byte.x2d; Byte.x6c];
                                    [Byte.x61]; [Byte.x62]]))%nat
          \/ (named_files [[Byte.x77; Byte.x63]; [Byte.x2d; Byte.x6c]; [Byte.x61];
                           [Byte.x62]] <> []
              /\ is_stdin (mk_config 2 0 1 0 0 0 1 5 0) <> 0%Z)).
Proof.
  assert (H1 : plain_options (tail [[Byte.x77; Byte.x63]; [Byte.x2d; Byte.x6c];
                                    [Byte.x61]; [Byte.x62]]) = true) by reflexivity.
  assert (H2 : N.of_nat (length [[Byte.x77; Byte.x63]; [Byte.x2d; Byte.x6c]; [Byte.x61];
                                 [Byte.x62]]) < 2 ^ 31) by reflexivity.
  assert (H3 : read_command_line example_stat
                 [[Byte.x77; Byte.x63]; [Byte.x2d; Byte.x6c]; [Byte.x61]; [Byte.x62]]
               = Returns (mk_config 2 0 1 0 0 0 1 5 0)) by (vm_compute; reflexivity).
  repeat (split; [assumption|]).
  exact (file_count_named_files example_stat _ _ H1 H2 H3).
Defined.

(** * The program *)






Section MainFacts.

Variable isspace : N -> bool.
Variable iswspace : N -> bool.
Variable base : N.
Variable stat : stat_fn.
Variable fopen : cstring -> option stream.
Variable stdin : stream.
Variable freopen_ok : bool.
Variable junk : nat -> N -> N.

Variable cfg : config.
Variable tp : list (list N).

Let T := the_table isspace iswspace (negb (is_counting_chars cfg =? 0)%Z).
Let g := {| table := T; table_p_base := base; table_p := tp |}.

Hypothesis Htp :
  forall s c, s < STATE_MAX -> c < 256 ->
    pload tp s c = Some (row_ptr base (entry T s c)).

Hypothesis Hwidth : column_width cfg < 2 ^ 31.



End MainFacts.



Lemma foldl_add_results rs :
  forall r0,
    line_count r0 < 2 ^ 64 -> word_count r0 < 2 ^ 64 ->
    char_count r0 < 2 ^ 64 -> byte_count r0 < 2 ^ 64 ->
    line_count (foldl add_results r0 rs) = wrap64 (line_count r0 + sum_of (line_count <$> rs))
    /\ word_count (foldl add_results r0 rs)
       = wrap64 (word_count r0 + sum_of (word_count <$> rs))
    /\ char_count (foldl add_results r0 rs)
       = wrap64 (char_count r0 + sum_of (char_count <$> rs))
    /\ byte_count (foldl add_results r0 rs)
       = wrap64 (byte_count r0 + sum_of (byte_count <$> rs)).
Proof.
  induction rs as [|r rs IH]; intros r0 Hl Hw Hc Hb.
  - cbn. rewrite !N.add_0_r, !wrap64_small by assumption. repeat split.
  - cbn [foldl fmap list_fmap sum_of foldr].
    assert (Hlt : forall v, wrap64 v < 2 ^ 64) by (intros v; now apply N.mod_lt).
    destruct (IH (add_results r0 r)) as (H1 & H2 & H3 & H4); try apply Hlt.
    rewrite H1, H2, H3, H4. unfold add_results.
    cbn [line_count word_count char_count byte_count].
    rewrite !wrap64_add, !N.add_assoc. repeat split.
Qed.

(** X20.  The totals that [main] accumulates over its inputs are, field
    by field, the sums of the counts modulo 2^64: wrapping around at
    every step comes to the same as reducing the whole sum once. *)
Theorem totals_are_sums rs :
  line_count (foldl add_results zero_results rs) = wrap64 (sum_of (line_count <$> rs))
  /\ word_count (foldl add_results zero_results rs) = wrap64 (sum_of (word_count <$> rs))
  /\ char_count (foldl add_results zero_results rs) = wrap64 (sum_of (char_count <$> rs))
  /\ byte_count (foldl add_results zero_results rs) = wrap64 (sum_of (byte_count <$> rs)).
Proof. apply (foldl_add_results rs zero_results); reflexivity. Qed.
